(** * TikTok live recorder: the acquisition and recording pipeline

    A shallow embedding of [src/tiktok_recorder.py]: the resolver
    [TikTokAPI], the per-broadcaster [Recorder], the registry
    [MultiRecorder] and the watchlist loop [TikTokApp._monitor_loop],
    followed by the properties the specification states about them.

    Conventions.
    - Python [str] is [string]; characters are the 8-bit code points.
    - [Optional[str]] is [option string]; a value is "truthy" when it is
      [Some s] with [s] non-empty.
    - The file system, the clock, child processes and the network are
      explicit: a [World] record for files, oracles for everything the
      program only observes.
    - Code that can raise returns [res]; code that mutates and can raise
      runs in the monad [M], whose state survives an exception exactly as
      a Python object mutated before a [raise] does.
    - Where the source branches on [sys.platform], the POSIX branch is
      the one embedded. *)

From Stdlib Require Import ZArith QArith Lia Bool List Ascii String.
From stdpp Require Import gmap strings list fin_maps.

Open Scope string_scope.

(* ===================================================================== *)
(** ** Python string operations *)
(* ===================================================================== *)

Module PyStr.

(** [c.lower()] on one code point below 256. *)
Definition lower_ascii (c : ascii) : ascii :=
  let n := nat_of_ascii c in
  if ((65 <=? n) && (n <=? 90))%nat then ascii_of_nat (n + 32)
  else if ((192 <=? n) && (n <=? 222) && negb (n =? 215))%nat
       then ascii_of_nat (n + 32)
  else c.

Fixpoint lower (s : string) : string :=
  match s with
  | EmptyString => EmptyString
  | String c r => String (lower_ascii c) (lower r)
  end.

(** [str.isspace] for one code point below 256. *)
Definition is_space (c : ascii) : bool :=
  let n := nat_of_ascii c in
  (((9 <=? n) && (n <=? 13)) || ((28 <=? n) && (n <=? 32))
   || (n =? 133) || (n =? 160))%nat.

Fixpoint lstrip_by (p : ascii -> bool) (s : string) : string :=
  match s with
  | EmptyString => EmptyString
  | String c r => if p c then lstrip_by p r else s
  end.

Fixpoint rev_onto (s acc : string) : string :=
  match s with
  | EmptyString => acc
  | String c r => rev_onto r (String c acc)
  end.

Definition rev (s : string) : string := rev_onto s EmptyString.

Definition rstrip_by (p : ascii -> bool) (s : string) : string :=
  rev (lstrip_by p (rev s)).

(** [s.strip()] *)
Definition strip (s : string) : string :=
  rstrip_by is_space (lstrip_by is_space s).

Definition is_char (c d : ascii) : bool := Ascii.eqb c d.

(** [s.lstrip(c)] for a one-character argument. *)
Definition lstrip_char (c : ascii) (s : string) : string :=
  lstrip_by (is_char c) s.

(** [s.rstrip(c)] for a one-character argument. *)
Definition rstrip_char (c : ascii) (s : string) : string :=
  rstrip_by (is_char c) s.

(** [s.startswith(p)] *)
Fixpoint startswith (p s : string) : bool :=
  match p, s with
  | EmptyString, _ => true
  | String a p', String b s' => Ascii.eqb a b && startswith p' s'
  | String _ _, EmptyString => false
  end.

(** [s.endswith(p)] *)
Definition endswith (p s : string) : bool := startswith (rev p) (rev s).

(** [sub in s] *)
Fixpoint contains (sub s : string) : bool :=
  startswith sub s ||
  match s with
  | EmptyString => false
  | String _ r => contains sub r
  end.

(** [s[:n]] *)
Fixpoint take (n : nat) (s : string) : string :=
  match n, s with
  | O, _ => EmptyString
  | _, EmptyString => EmptyString
  | S k, String c r => String c (take k r)
  end.

(** [s[n:]] *)
Fixpoint drop (n : nat) (s : string) : string :=
  match n, s with
  | O, _ => s
  | _, EmptyString => EmptyString
  | S k, String _ r => drop k r
  end.

(** [s.replace(old, new)] for a non-empty [old]: non-overlapping
    occurrences, leftmost first. The fuel is the length of [s]. *)
Fixpoint replace_fuel (fuel : nat) (old new s : string) : string :=
  match fuel with
  | O => s
  | S f =>
      match s with
      | EmptyString => EmptyString
      | String c r =>
          if startswith old s
          then new ++ replace_fuel f old new (drop (String.length old) s)
          else String c (replace_fuel f old new r)
      end
  end.

Definition replace (old new s : string) : string :=
  replace_fuel (String.length s) old new s.

(** [re.sub('[...]', '', s)] for a character class. *)
Fixpoint remove_chars (bad : ascii -> bool) (s : string) : string :=
  match s with
  | EmptyString => EmptyString
  | String c r =>
      if bad c then remove_chars bad r else String c (remove_chars bad r)
  end.

(** [s.rfind(c)] for one character: [None] stands for -1. *)
Fixpoint rfind_from (c : ascii) (s : string) (i : nat) (best : option nat)
  : option nat :=
  match s with
  | EmptyString => best
  | String d r =>
      rfind_from c r (S i) (if Ascii.eqb c d then Some i else best)
  end.

Definition rfind (c : ascii) (s : string) : option nat :=
  rfind_from c s 0 None.

Definition digit (n : nat) : ascii := ascii_of_nat (48 + n mod 10).

(** Decimal digits of [n], most significant first. *)
Fixpoint digits_fuel (fuel n : nat) (acc : string) : string :=
  match fuel with
  | O => acc
  | S f =>
      let acc' := String (digit n) acc in
      if (n <? 10)%nat then acc' else digits_fuel f (n / 10) acc'
  end.

Definition str_of_nat (n : nat) : string := digits_fuel (S n) n EmptyString.

(** Decimal digits of a non-negative integer; the fuel bounds the number
    of digits by the number of bits. *)
Fixpoint digitsZ_fuel (fuel : nat) (n : Z) (acc : string) : string :=
  match fuel with
  | O => acc
  | S f =>
      let acc' := String (digit (Z.to_nat (n mod 10))) acc in
      if (n <? 10)%Z then acc' else digitsZ_fuel f (n / 10) acc'
  end.

(** [str(n)] for an integer. *)
Definition str_of_Z (n : Z) : string :=
  if (n <? 0)%Z
  then String "-" (digitsZ_fuel (S (Z.to_nat (Z.log2 (- n)))) (- n) EmptyString)
  else digitsZ_fuel (S (Z.to_nat (Z.log2 n))) n EmptyString.

Fixpoint zeros (k : nat) : string :=
  match k with
  | O => EmptyString
  | S j => String "0" (zeros j)
  end.

(** [f"{n:0wd}"] for a natural number. *)
Definition zfill (w n : nat) : string :=
  let d := str_of_nat n in
  zeros (w - String.length d) ++ d.

(** Python truthiness of an [Optional[str]]. *)
Definition truthy (o : option string) : bool :=
  match o with
  | Some s => negb (String.eqb s "")
  | None => false
  end.

End PyStr.

(* ===================================================================== *)
(** ** [os.path] (posixpath) *)
(* ===================================================================== *)

Module OsPath.
Import PyStr.

Definition sep : ascii := "/"%char.
Definition extsep : ascii := "."%char.

(** Is there a character other than [extsep] in [p[lo:hi]]? *)
Definition has_non_dot (p : string) (lo hi : nat) : bool :=
  negb (String.eqb (lstrip_char extsep (take (hi - lo) (drop lo p)))
                   EmptyString).

(** [os.path.splitext(p)]: the pair (root, ext). *)
Definition splitext (p : string) : string * string :=
  let start := match rfind sep p with Some k => S k | None => 0%nat end in
  match rfind extsep p with
  | Some d =>
      if (start <=? d)%nat && has_non_dot p start d
      then (take d p, drop d p)
      else (p, EmptyString)
  | None => (p, EmptyString)
  end.

(** [os.path.basename(p)] *)
Definition basename (p : string) : string :=
  match rfind sep p with
  | Some k => drop (S k) p
  | None => p
  end.

Fixpoint all_sep (s : string) : bool :=
  match s with
  | EmptyString => true
  | String c r => Ascii.eqb c sep && all_sep r
  end.

(** [os.path.dirname(p)] *)
Definition dirname (p : string) : string :=
  let head := match rfind sep p with
              | Some k => take (S k) p
              | None => EmptyString
              end in
  if negb (String.eqb head EmptyString) && negb (all_sep head)
  then rstrip_char sep head
  else head.

(** [os.path.join(a, b)] *)
Definition join (a b : string) : string :=
  if startswith "/" b then b
  else if String.eqb a EmptyString || endswith "/" a then a ++ b
  else a ++ "/" ++ b.

End OsPath.

(* ===================================================================== *)
(** ** Exceptions and the state-and-exception monad *)
(* ===================================================================== *)

Inductive exn_kind :=
| DownloadError        (* yt_dlp.utils.DownloadError *)
| RequestException     (* requests.exceptions.RequestException *)
| TimeoutExpired       (* subprocess.TimeoutExpired *)
| OSError
| AttributeError
| TypeError
| KeyError
| ValueError.          (* json.JSONDecodeError is a ValueError *)

(** An exception object: its class and [str(e)]. *)
Record exn := mkExn { exn_kind_of : exn_kind; exn_msg : string }.

Inductive res (A : Type) :=
| Ret (a : A)
| Raise (e : exn).
Arguments Ret {A} a.
Arguments Raise {A} e.

Definition is_ret {A} (r : res A) : bool :=
  match r with Ret _ => true | Raise _ => false end.

(** A computation over a mutable state [S] that returns or raises; the
    state reached when the exception was raised is kept. *)
Definition M (S A : Type) : Type := S -> S * res A.

Definition ret {S A} (a : A) : M S A := fun s => (s, Ret a).
Definition raise {S A} (e : exn) : M S A := fun s => (s, Raise e).
Definition bind {S A B} (m : M S A) (k : A -> M S B) : M S B :=
  fun s => match m s with
           | (s', Ret a) => k a s'
           | (s', Raise e) => (s', Raise e)
           end.
Definition get_st {S} : M S S := fun s => (s, Ret s).
Definition modify {S} (f : S -> S) : M S unit := fun s => (f s, Ret tt).
Definition lift {S A} (r : res A) : M S A := fun s => (s, r).

(** [try: m except Exception as e: h e] *)
Definition try_except {S A} (m : M S A) (h : exn -> M S A) : M S A :=
  fun s => match m s with
           | (s', Ret a) => (s', Ret a)
           | (s', Raise e) => h e s'
           end.

(** [try: m except: pass] *)
Definition try_pass {S} (m : M S unit) : M S unit :=
  try_except m (fun _ => ret tt).

Declare Scope py_scope.
Delimit Scope py_scope with py.
Notation "x <- m ;; k" := (bind m (fun x => k))
  (at level 100, m at next level, right associativity) : py_scope.
Notation "m ;;; k" := (bind m (fun _ => k))
  (at level 100, right associativity) : py_scope.
Open Scope py_scope.

(** [if c: m] with no else branch. *)
Definition when {S} (c : bool) (m : M S unit) : M S unit :=
  if c then m else ret tt.

(** [for x in l: f x] *)
Fixpoint for_each {S A} (f : A -> M S unit) (l : list A) : M S unit :=
  match l with
  | [] => ret tt
  | x :: rest => f x ;;; for_each f rest
  end.

(* ===================================================================== *)
(** ** JSON values and the Python operations applied to them *)
(* ===================================================================== *)

(** What [json.loads] and the extractor hand back. Numbers are integers;
    a dictionary keeps its insertion order. *)
#[local] Set Warnings "-register-all".
Inductive json :=
| JNull
| JBool (b : bool)
| JNum (n : Z)
| JStr (s : string)
| JList (l : list json)
| JDict (d : list (string * json)).

Module Py.

Definition attribute_error (what : string) : exn :=
  mkExn AttributeError ("object has no attribute " ++ what).
Definition type_error (what : string) : exn := mkExn TypeError what.

(** [bool(v)] *)
Definition truthy (v : json) : bool :=
  match v with
  | JNull => false
  | JBool b => b
  | JNum n => negb (n =? 0)%Z
  | JStr s => negb (String.eqb s "")
  | JList l => match l with [] => false | _ => true end
  | JDict d => match d with [] => false | _ => true end
  end.

Fixpoint assoc (k : string) (d : list (string * json)) : option json :=
  match d with
  | [] => None
  | (k', v) :: rest => if String.eqb k k' then Some v else assoc k rest
  end.

(** [v.get(k, default)] *)
Definition get (v : json) (k : string) (default : json) : res json :=
  match v with
  | JDict d => Ret (match assoc k d with Some x => x | None => default end)
  | _ => Raise (attribute_error "get")
  end.

(** [v[k]] for a string [k] *)
Definition getitem (v : json) (k : string) : res json :=
  match v with
  | JDict d => match assoc k d with
               | Some x => Ret x
               | None => Raise (mkExn KeyError k)
               end
  | JStr _ | JList _ => Raise (type_error "indices must be integers")
  | _ => Raise (type_error "object is not subscriptable")
  end.

Definition is_str (s : string) (v : json) : bool :=
  match v with JStr t => String.eqb s t | _ => false end.

(** [k in v] for a string [k] *)
Definition contains (k : string) (v : json) : res bool :=
  match v with
  | JDict d => Ret (match assoc k d with Some _ => true | None => false end)
  | JStr s => Ret (PyStr.contains k s)
  | JList l => Ret (existsb (is_str k) l)
  | _ => Raise (type_error "argument is not iterable")
  end.

(** [v.items()] *)
Definition items (v : json) : res (list (string * json)) :=
  match v with
  | JDict d => Ret d
  | _ => Raise (attribute_error "items")
  end.

Fixpoint chars (s : string) : list json :=
  match s with
  | EmptyString => []
  | String c r => JStr (String c EmptyString) :: chars r
  end.

(** [for x in v] *)
Definition iter (v : json) : res (list json) :=
  match v with
  | JList l => Ret l
  | JDict d => Ret (map (fun kv => JStr (fst kv)) d)
  | JStr s => Ret (chars s)
  | _ => Raise (type_error "object is not iterable")
  end.

(** [v.lower()] *)
Definition lower (v : json) : res string :=
  match v with
  | JStr s => Ret (PyStr.lower s)
  | _ => Raise (attribute_error "lower")
  end.

(** Can [v] be a dictionary key? *)
Definition hashable (v : json) : bool :=
  match v with JList _ | JDict _ => false | _ => true end.

(** Equality of two dictionary keys: [True == 1] and [False == 0]. *)
Definition key_eqb (a b : json) : bool :=
  match a, b with
  | JNull, JNull => true
  | JStr s, JStr t => String.eqb s t
  | JNum n, JNum m => (n =? m)%Z
  | JBool x, JBool y => Bool.eqb x y
  | JBool x, JNum m | JNum m, JBool x => ((if x then 1 else 0) =? m)%Z
  | _, _ => false
  end.

(** [d[k] = v] on an insertion-ordered dictionary with hashable keys:
    an existing key keeps its place (and its first spelling). *)
Fixpoint dict_set (k v : json) (d : list (json * json)) : list (json * json) :=
  match d with
  | [] => [(k, v)]
  | (k', v') :: rest =>
      if key_eqb k k' then (k', v) :: rest
      else (k', v') :: dict_set k v rest
  end.

(** [d[k] = v], raising on an unhashable key. *)
Definition setitem (k v : json) (d : list (json * json))
  : res (list (json * json)) :=
  if hashable k then Ret (dict_set k v d)
  else Raise (type_error "unhashable type").

(** [d.update(other)] for a JSON dictionary [other]. *)
Definition update (other : list (string * json)) (d : list (json * json))
  : list (json * json) :=
  fold_left (fun acc kv => dict_set (JStr (fst kv)) (snd kv) acc) other d.

End Py.

(* ===================================================================== *)
(** ** The world outside the program *)
(* ===================================================================== *)

(** Files by path with their size in bytes; [locked] are the paths whose
    removal fails ([os.remove] raises); [listing] is what [os.listdir]
    returns ([None]: it raises); [has_ffmpeg] tells whether launching
    [ffmpeg -version] works. *)
Record World := mkWorld {
  files : gmap string Z;
  locked : gset string;
  listing : string -> option (list string);
  has_ffmpeg : bool;
}.

Definition set_files (f : gmap string Z -> gmap string Z) (w : World) : World :=
  {| files := f (files w); locked := locked w;
     listing := listing w; has_ffmpeg := has_ffmpeg w |}.

Module Os.

(** [os.path.exists(p)] *)
Definition path_exists (w : World) (p : string) : bool :=
  bool_decide (is_Some (files w !! p)).

(** [os.path.getsize(p)] *)
Definition getsize (w : World) (p : string) : res Z :=
  match files w !! p with
  | Some n => Ret n
  | None => Raise (mkExn OSError "No such file or directory")
  end.

(** [os.remove(p)] *)
Definition remove (p : string) : M World unit :=
  fun w =>
    if bool_decide (p ∈ locked w)
    then (w, Raise (mkExn OSError "Permission denied"))
    else match files w !! p with
         | Some _ => (set_files (delete p) w, Ret tt)
         | None => (w, Raise (mkExn OSError "No such file or directory"))
         end.

(** [o and os.path.exists(o)] for an [Optional[str]]. *)
Definition truthy_exists (w : World) (o : option string) : bool :=
  match o with
  | Some p => PyStr.truthy o && path_exists w p
  | None => false
  end.

End Os.

(* ===================================================================== *)
(** ** Configuration, clock, events and oracles *)
(* ===================================================================== *)

(** The fields of [AppConfig] that the pipeline reads or writes. *)
Record AppConfig := mkConfig {
  output_dir : string;
  cookies_file : string;
  check_interval : nat;
  quality : string;
  filename_pattern : string;
  total_recordings : Z;
  total_size_bytes : Z;
  total_duration_seconds : Z;
}.

(** [datetime.now()] *)
Record DateTime := mkDateTime {
  year : nat; month : nat; day : nat;
  hour : nat; minute : nat; second : nat; microsecond : nat;
}.

(** One reading of the clock: [datetime.now()], what
    [int(time.time() * 1000)] gives, and what [time.time()] gives. A
    reading of [time.time()] is a double; it is taken as the rational
    number it is. *)
Record Clock := mkClock { now : DateTime; time_ms : Z; time_s : Q }.

(** [bool(x)] and [int(x)] for a float: zero is falsy, and [int] cuts
    towards zero. *)
Definition float_truthy (x : Q) : bool := negb (Qnum x =? 0)%Z.
Definition int_of_float (x : Q) : Z := Z.quot (Qnum x) (Z.pos (Qden x)).

(** [int(time.time() - first)] for the reading [t] of the clock. The
    difference of two doubles is exact when each is at most twice the
    other, as two readings of one clock are; it is taken as exact. *)
Definition elapsed_seconds (t first : Q) : Z := int_of_float (t - first)%Q.


(** The three conversion commands of [_convert_to_mp4]. *)
Inductive step := Remux | AudioAac | FullEncode.

(** What one [subprocess.run] of a conversion command does: it returns
    with an exit code or raises (time-out after 1800 s, launch failure);
    either way [out_after] is what is at the output path afterwards
    ([None]: nothing; [Some n]: a file of [n] bytes). *)
Inductive run_result :=
| Exited (returncode : Z) (out_after : option Z)
| RunRaised (e : exn) (out_after : option Z).

(** What [subprocess.Popen] and the [poll()] after the grace sleep give. *)
Inductive spawn_result :=
| SpawnRaised (e : exn)
| SpawnExited (pid : nat) (output : string)
| SpawnAlive (pid : nat).

(** How the capture process answers the stop protocol. *)
Record ProcEnv := mkProcEnv {
  sigint : res unit;        (* os.killpg(pgid, SIGINT) *)
  wait_sigint : res unit;   (* process.wait(timeout=5) *)
  sigkill : res unit;       (* os.killpg(pgid, SIGKILL) *)
  wait_sigkill : res unit;  (* process.wait(timeout=3) *)
  kill : res unit;          (* process.kill() *)
  wait_kill : res unit;     (* process.wait(timeout=3) *)
}.

(** Everything one call of a [Recorder] method observes from outside. *)
Record Env := mkEnv {
  clock : Clock;
  ffmpeg_run : step -> run_result;
  spawn_ffmpeg : spawn_result;
  spawn_ytdlp : spawn_result;
  proc_env : ProcEnv;
  mkdir_output : res unit;   (* Path(output_dir).mkdir(parents, exist_ok) *)
}.

Inductive signal := SIGINT | SIGKILL | KILL.

(** Observable actions of a [Recorder], in program order. *)
Inductive Event :=
| EvProbeFfmpeg                                   (* ffmpeg -version *)
| EvConvert (s : step) (input output : string)    (* subprocess.run *)
| EvSpawn (method : string) (target : string)     (* subprocess.Popen *)
| EvSignal (pid : nat) (sg : signal)
| EvWait (pid : nat)
| EvMonitorThread (user : string)
| EvNotifyStart (user : string)
| EvNotifyEnd (user : string)
| EvSaveConfig
| EvOnComplete (user : string) (path : option string).

(* ===================================================================== *)
(** ** Recorder: state *)
(* ===================================================================== *)

Record Recorder := mkRecorder {
  process : option nat;
  is_recording : bool;
  is_stopping : bool;
  output_file : option string;
  actual_recording_file : option string;
  raw_recording_file : option string;
  username : string;
  title : json;
  live_url : string;
  stream_url : json;
  first_write_time : option Q;
  stop_event : bool;
  file_check_count : nat;
  recording_method : string;
  last_error : option string;
  on_complete : bool;    (* is a callback installed? *)
}.

(** [Recorder.__init__] *)
Definition new_recorder : Recorder :=
  {| process := None; is_recording := false; is_stopping := false;
     output_file := None; actual_recording_file := None;
     raw_recording_file := None; username := ""; title := JStr "";
     live_url := ""; stream_url := JStr ""; first_write_time := None;
     stop_event := false; file_check_count := 0; recording_method := "";
     last_error := None; on_complete := false |}.

Definition set_process v (r : Recorder) : Recorder :=
  mkRecorder v (is_recording r) (is_stopping r) (output_file r)
    (actual_recording_file r) (raw_recording_file r) (username r) (title r)
    (live_url r) (stream_url r) (first_write_time r) (stop_event r)
    (file_check_count r) (recording_method r) (last_error r) (on_complete r).
Definition set_is_recording v (r : Recorder) : Recorder :=
  mkRecorder (process r) v (is_stopping r) (output_file r)
    (actual_recording_file r) (raw_recording_file r) (username r) (title r)
    (live_url r) (stream_url r) (first_write_time r) (stop_event r)
    (file_check_count r) (recording_method r) (last_error r) (on_complete r).
Definition set_is_stopping v (r : Recorder) : Recorder :=
  mkRecorder (process r) (is_recording r) v (output_file r)
    (actual_recording_file r) (raw_recording_file r) (username r) (title r)
    (live_url r) (stream_url r) (first_write_time r) (stop_event r)
    (file_check_count r) (recording_method r) (last_error r) (on_complete r).
Definition set_output_file v (r : Recorder) : Recorder :=
  mkRecorder (process r) (is_recording r) (is_stopping r) v
    (actual_recording_file r) (raw_recording_file r) (username r) (title r)
    (live_url r) (stream_url r) (first_write_time r) (stop_event r)
    (file_check_count r) (recording_method r) (last_error r) (on_complete r).
Definition set_actual_recording_file v (r : Recorder) : Recorder :=
  mkRecorder (process r) (is_recording r) (is_stopping r) (output_file r)
    v (raw_recording_file r) (username r) (title r)
    (live_url r) (stream_url r) (first_write_time r) (stop_event r)
    (file_check_count r) (recording_method r) (last_error r) (on_complete r).
Definition set_raw_recording_file v (r : Recorder) : Recorder :=
  mkRecorder (process r) (is_recording r) (is_stopping r) (output_file r)
    (actual_recording_file r) v (username r) (title r)
    (live_url r) (stream_url r) (first_write_time r) (stop_event r)
    (file_check_count r) (recording_method r) (last_error r) (on_complete r).
Definition set_stop_event v (r : Recorder) : Recorder :=
  mkRecorder (process r) (is_recording r) (is_stopping r) (output_file r)
    (actual_recording_file r) (raw_recording_file r) (username r) (title r)
    (live_url r) (stream_url r) (first_write_time r) v
    (file_check_count r) (recording_method r) (last_error r) (on_complete r).
Definition set_recording_method v (r : Recorder) : Recorder :=
  mkRecorder (process r) (is_recording r) (is_stopping r) (output_file r)
    (actual_recording_file r) (raw_recording_file r) (username r) (title r)
    (live_url r) (stream_url r) (first_write_time r) (stop_event r)
    (file_check_count r) v (last_error r) (on_complete r).
Definition set_last_error v (r : Recorder) : Recorder :=
  mkRecorder (process r) (is_recording r) (is_stopping r) (output_file r)
    (actual_recording_file r) (raw_recording_file r) (username r) (title r)
    (live_url r) (stream_url r) (first_write_time r) (stop_event r)
    (file_check_count r) (recording_method r) v (on_complete r).

(** What a [Recorder] method runs over: the files, the shared
    configuration object, the recorder itself and the actions so far. *)
Record RState := mkRState {
  world : World;
  config : AppConfig;
  rec : Recorder;
  log : list Event;
}.

Definition upd_rec (f : Recorder -> Recorder) : M RState unit :=
  modify (fun s => mkRState (world s) (config s) (f (rec s)) (log s)).
Definition upd_config (f : AppConfig -> AppConfig) : M RState unit :=
  modify (fun s => mkRState (world s) (f (config s)) (rec s) (log s)).
Definition upd_world (f : World -> World) : M RState unit :=
  modify (fun s => mkRState (f (world s)) (config s) (rec s) (log s)).
Definition emit (e : Event) : M RState unit :=
  modify (fun s => mkRState (world s) (config s) (rec s) (log s ++ [e])).

(** Run a computation on the files inside a recorder computation. *)
Definition in_world {A} (m : M World A) : M RState A :=
  fun s => let '(w', r) := m (world s) in
           (mkRState w' (config s) (rec s) (log s), r).

(* ===================================================================== *)
(** ** Recorder: methods *)
(* ===================================================================== *)

Module Recorder.
Import PyStr.

Definition dquote : ascii := ascii_of_nat 34.
Definition backslash : ascii := ascii_of_nat 92.

(** The character class of the filename-cleaning regular expression:
    less-than, greater-than, colon, double quote, slash, backslash,
    bar, question mark, star. *)
Definition forbidden (c : ascii) : bool :=
  existsb (Ascii.eqb c)
    ["<"%char; ">"%char; ":"%char; dquote; "/"%char; backslash;
     "|"%char; "?"%char; "*"%char].

(** [now.strftime("%Y%m%d")] and [now.strftime("%H%M%S")] *)
Definition fmt_date (d : DateTime) : string :=
  zfill 4 (year d) ++ zfill 2 (month d) ++ zfill 2 (day d).
Definition fmt_time (d : DateTime) : string :=
  zfill 2 (hour d) ++ zfill 2 (minute d) ++ zfill 2 (second d).

(** [x or "live"] *)
Definition or_default (x d : string) : string :=
  if String.eqb x "" then d else x.

(** The name built from the pattern, with its millisecond suffix and
    without extension (lines 795-809). *)
Definition filename_stem (cfg : AppConfig) (user ttl : string) (c : Clock)
  : string :=
  let safe_title :=
    or_default (strip (take 30 (remove_chars forbidden ttl))) "live" in
  let filename := filename_pattern cfg in
  let filename := replace "{username}" user filename in
  let filename := replace "{date}" (fmt_date (now c)) filename in
  let filename := replace "{time}" (fmt_time (now c)) filename in
  let filename :=
    replace "{datetime}" (fmt_date (now c) ++ "_" ++ fmt_time (now c))
      filename in
  let filename := replace "{title}" safe_title filename in
  let filename := remove_chars forbidden filename in
  let ms := (microsecond (now c) / 1000)%nat in
  filename ++ "_" ++ zfill 3 ms.

Definition base_path (cfg : AppConfig) (stem : string) : string :=
  OsPath.join (output_dir cfg) (stem ++ ".mp4").

Definition counter_path (cfg : AppConfig) (stem : string) (counter : nat)
  : string :=
  OsPath.join (output_dir cfg) (stem ++ "_" ++ zfill 3 counter ++ ".mp4").

Definition ts_path (cfg : AppConfig) (stem : string) (c : Clock) : string :=
  OsPath.join (output_dir cfg)
    (stem ++ "_" ++ str_of_Z (time_ms c) ++ ".mp4").

(** The [while True] loop of [_generate_filename]; it runs at most 999
    times, which is what [fuel] counts. *)
Fixpoint probe_counters (fuel : nat) (w : World) (cfg : AppConfig)
    (stem : string) (c : Clock) (counter : nat) : string :=
  match fuel with
  | O => ts_path cfg stem c
  | S f =>
      let new_path := counter_path cfg stem counter in
      if negb (Os.path_exists w new_path) then new_path
      else
        let counter := S counter in
        if (999 <? counter)%nat then ts_path cfg stem c
        else probe_counters f w cfg stem c counter
  end.

(** [Recorder._generate_filename]. The title reaches [re.sub], which
    raises on anything but a string. *)
Definition _generate_filename (w : World) (cfg : AppConfig) (r : Recorder)
    (c : Clock) : res string :=
  match title r with
  | JStr ttl =>
      let stem := filename_stem cfg (username r) ttl c in
      Ret (if negb (Os.path_exists w (base_path cfg stem))
           then base_path cfg stem
           else probe_counters 999 w cfg stem c 1)
  | _ => Raise (Py.type_error "expected string or bytes-like object")
  end.

(** [Recorder._find_ffmpeg]: the probe is run and its exit code is not
    looked at; only a failure to launch gives [None]. *)
Definition _find_ffmpeg : M RState (option string) :=
  emit EvProbeFfmpeg ;;;
  s <- get_st ;;
  ret (if has_ffmpeg (world s) then Some "ffmpeg" else None).

(** The first existing candidate among the alternate extensions. *)
Fixpoint first_existing (w : World) (base : string) (exts : list string)
  : option string :=
  match exts with
  | [] => None
  | ext :: rest =>
      if Os.path_exists w (base ++ ext) then Some (base ++ ext)
      else first_existing w base rest
  end.

(** The directory scan: the first entry that starts with the base name
    and does not end in [.txt]. *)
Fixpoint first_named (dir_path base_name : string) (entries : list string)
  : option string :=
  match entries with
  | [] => None
  | f :: rest =>
      if startswith base_name f && negb (endswith ".txt" f)
      then Some (OsPath.join dir_path f)
      else first_named dir_path base_name rest
  end.

(** [Recorder._find_actual_file] *)
Definition _find_actual_file (w : World) (r : Recorder) : option string :=
  if Os.truthy_exists w (raw_recording_file r) then raw_recording_file r
  else if Os.truthy_exists w (actual_recording_file r)
  then actual_recording_file r
  else match output_file r with
       | None => None
       | Some o =>
           if String.eqb o "" then None
           else
             let base := fst (OsPath.splitext o) in
             let dir_path := OsPath.dirname o in
             let base_name := OsPath.basename base in
             if Os.path_exists w o then Some o
             else match first_existing w base
                          [".flv"; ".mp4"; ".ts"; ".mkv"; ".webm"] with
                  | Some alt => Some alt
                  | None =>
                      match listing w dir_path with
                      | Some entries =>
                          first_named dir_path base_name entries
                      | None => None
                      end
                  end
       end.

(** [os.remove(p)] guarded by [try: ... except: pass]. *)
Definition remove_quietly (p : string) : M RState unit :=
  try_pass (in_world (Os.remove p)).

(** [Recorder._cleanup_flv] *)
Definition _cleanup_flv (original_flv : option string) (input_file : string)
  : M RState unit :=
  s <- get_st ;;
  when (Os.truthy_exists (world s) original_flv)
    (match original_flv with
     | Some p => remove_quietly p
     | None => ret tt
     end) ;;;
  s <- get_st ;;
  when (truthy (Some input_file)
        && negb (bool_decide (Some input_file = original_flv))
        && Os.path_exists (world s) input_file)
    (when (endswith ".flv" (lower input_file))
       (remove_quietly input_file)).

(** The effect of a conversion command on the files: only its output
    path changes. *)
Definition put_output (output : string) (out : option Z)
    (fs : gmap string Z) : gmap string Z :=
  match out with
  | Some n => <[output := n]> fs
  | None => delete output fs
  end.

(** [subprocess.run(cmd, capture_output=True, timeout=1800)] for one
    conversion command writing to [output]. *)
Definition run_convert (env : Env) (st : step) (input output : string)
  : M RState Z :=
  emit (EvConvert st input output) ;;;
  match ffmpeg_run env st with
  | Exited rc out =>
      upd_world (set_files (put_output output out)) ;;; ret rc
  | RunRaised e out =>
      upd_world (set_files (put_output output out)) ;;; raise e
  end.

(** The size test of each step. The source compares the integer
    [output_size] with the floats [file_size * 0.5] and
    [file_size * 0.3]; for sizes below 2^50 bytes these comparisons are
    the exact ones [2 * output_size > file_size] and
    [10 * output_size > 3 * file_size]: the product with 0.5 is exact,
    and the rounded product with 0.3 is within 0.05 of three tenths of
    the size, and is that number when it is an integer. *)
Definition size_ok (st : step) (file_size output_size : Z) : bool :=
  match st with
  | Remux => (file_size <? 2 * output_size)%Z
  | AudioAac => (3 * file_size <? 10 * output_size)%Z
  | FullEncode => (10000 <? output_size)%Z
  end.

(** [result.returncode == 0 and os.path.exists(mp4_output)] followed by
    the size test. *)
Definition accepted (st : step) (rc : Z) (file_size : Z) (mp4_output : string)
  : M RState bool :=
  s <- get_st ;;
  if (rc =? 0)%Z && Os.path_exists (world s) mp4_output
  then output_size <- lift (Os.getsize (world s) mp4_output) ;;
       ret (size_ok st file_size output_size)
  else ret false.

(** "Clean up failed attempt" *)
Definition discard_output (mp4_output : string) : M RState unit :=
  s <- get_st ;;
  when (Os.path_exists (world s) mp4_output) (remove_quietly mp4_output).

(** One rung: run the command and test its output. *)
Definition attempt (env : Env) (st : step) (input_file mp4_output : string)
    (file_size : Z) : M RState bool :=
  rc <- run_convert env st input_file mp4_output ;;
  accepted st rc file_size mp4_output.

(** "Success - DELETE ORIGINAL FLV and set output" *)
Definition accept_output (original_flv : option string)
    (input_file mp4_output : string) : M RState unit :=
  _cleanup_flv original_flv input_file ;;;
  upd_rec (set_output_file (Some mp4_output)).

(** The conversion target (lines 1111-1116): the output name with
    [.mp4], moved aside when that is the input itself. *)
Definition mp4_output_for (out input_file : string) : string :=
  let base_name := fst (OsPath.splitext out) in
  let mp4_output := base_name ++ ".mp4" in
  if String.eqb input_file mp4_output
  then base_name ++ "_converted.mp4" else mp4_output.

(** The [try] block of [_convert_to_mp4] (lines 1111-1200). *)
Definition ladder (env : Env) (input_file : string) (file_size : Z)
  : M RState unit :=
  s <- get_st ;;
  out <- match output_file (rec s) with
         | Some o => ret o
         | None => raise (mkExn TypeError "expected str, not NoneType")
         end ;;
  let mp4_output := mp4_output_for out input_file in
  let original_flv :=
    if endswith ".flv" (lower input_file) then Some input_file else None in
  ok1 <- attempt env Remux input_file mp4_output file_size ;;
  if ok1 then accept_output original_flv input_file mp4_output
  else
    discard_output mp4_output ;;;
    ok2 <- attempt env AudioAac input_file mp4_output file_size ;;
    if ok2 then accept_output original_flv input_file mp4_output
    else
      discard_output mp4_output ;;;
      ok3 <- attempt env FullEncode input_file mp4_output file_size ;;
      if ok3 then accept_output original_flv input_file mp4_output
      else upd_rec (set_output_file (Some input_file)).

(** The input of the conversion (lines 1088-1094). *)
Definition find_input (w : World) (r : Recorder) : option string :=
  let input_file := raw_recording_file r in
  let input_file :=
    if negb (Os.truthy_exists w input_file)
    then actual_recording_file r else input_file in
  let input_file :=
    if negb (Os.truthy_exists w input_file)
    then output_file r else input_file in
  if negb (Os.truthy_exists w input_file) then None else input_file.

(** [Recorder._convert_to_mp4] *)
Definition _convert_to_mp4 (env : Env) : M RState unit :=
  s <- get_st ;;
  match find_input (world s) (rec s) with
  | None => ret tt
  | Some input_file =>
      match Os.getsize (world s) input_file with
      | Raise _ => ret tt
      | Ret file_size =>
          if (file_size <? 51200)%Z then ret tt
          else
            ffmpeg <- _find_ffmpeg ;;
            match ffmpeg with
            | None => upd_rec (set_output_file (Some input_file))
            | Some _ =>
                try_except (ladder env input_file file_size)
                  (fun _ =>
                     s <- get_st ;;
                     when (Os.truthy_exists (world s) (Some input_file))
                       (upd_rec (set_output_file (Some input_file))))
            end
      end
  end.

(** The statistics update of a counted recording (lines 1234-1237). *)
Definition count_recording (env : Env) (r : Recorder) (actual_size : Z)
    (c : AppConfig) : AppConfig :=
  mkConfig (output_dir c) (cookies_file c) (check_interval c)
    (quality c) (filename_pattern c)
    (total_recordings c + 1)
    (total_size_bytes c + actual_size)
    (match first_write_time r with
     | Some t0 =>
         if float_truthy t0
         then (total_duration_seconds c
               + elapsed_seconds (time_s (clock env)) t0)%Z
         else total_duration_seconds c
     | None => total_duration_seconds c
     end).

(** "Update stats": only a file above 10 KiB is counted. *)
Definition update_stats (env : Env) : M RState unit :=
  s <- get_st ;;
  when (Os.truthy_exists (world s) (output_file (rec s)))
    (match output_file (rec s) with
     | None => ret tt
     | Some o =>
         actual_size <- lift (Os.getsize (world s) o) ;;
         when (10240 <? actual_size)%Z
           (upd_config (count_recording env (rec s) actual_size) ;;;
            emit EvSaveConfig)
     end).

(** [Recorder._finalize_recording]. The duration and size texts handed
    to the notifier and to the callback are display strings; the events
    record the call and the path. *)
Definition _finalize_recording (env : Env) : M RState unit :=
  update_stats env ;;;
  s <- get_st ;;
  emit (EvNotifyEnd (username (rec s))) ;;;
  when (on_complete (rec s))
    (emit (EvOnComplete (username (rec s)) (output_file (rec s)))).

(** "Find actual recorded file" at the head of both completion paths. *)
Definition adopt_actual_file : M RState unit :=
  s <- get_st ;;
  let actual_file := _find_actual_file (world s) (rec s) in
  when (truthy actual_file) (upd_rec (set_output_file actual_file)).

(** [Recorder._complete]: the capture process ended on its own. *)
Definition _complete (env : Env) : M RState unit :=
  s <- get_st ;;
  if negb (is_recording (rec s)) then ret tt
  else
    upd_rec (set_is_recording false) ;;;
    adopt_actual_file ;;;
    _convert_to_mp4 env ;;;
    _finalize_recording env.

(** [Recorder._complete_after_stop] *)
Definition _complete_after_stop (env : Env) : M RState unit :=
  adopt_actual_file ;;;
  _convert_to_mp4 env ;;;
  _finalize_recording env.

(** The raw target of a capture: the output name with [.flv]. *)
Definition raw_target : M RState string :=
  s <- get_st ;;
  match output_file (rec s) with
  | Some o => ret (fst (OsPath.splitext o) ++ ".flv")
  | None => raise (mkExn TypeError "expected str, not NoneType")
  end.

(** What both capture launchers do once [Popen] has returned. *)
Definition after_spawn (method failed : string) (raw : string)
    (sp : spawn_result) : M RState bool :=
  match sp with
  | SpawnRaised e => raise e
  | SpawnExited pid output =>
      upd_rec (set_process (Some pid)) ;;;
      upd_rec (set_last_error (Some (failed ++ take 100 output))) ;;;
      ret false
  | SpawnAlive pid =>
      upd_rec (set_process (Some pid)) ;;;
      upd_rec (set_is_recording true) ;;;
      upd_rec (set_recording_method method) ;;;
      upd_rec (set_actual_recording_file (Some raw)) ;;;
      s <- get_st ;;
      emit (EvNotifyStart (username (rec s))) ;;;
      emit (EvMonitorThread (username (rec s))) ;;;
      ret true
  end.

(** [Recorder._start_ffmpeg]. [Popen] raises on a command-line
    argument that is not a string. *)
Definition _start_ffmpeg (env : Env) (url : json) : M RState bool :=
  ffmpeg <- _find_ffmpeg ;;
  match ffmpeg with
  | None =>
      upd_rec (set_last_error (Some "FFmpeg not found")) ;;; ret false
  | Some _ =>
      raw <- raw_target ;;
      upd_rec (set_raw_recording_file (Some raw)) ;;;
      try_except
        (emit (EvSpawn "ffmpeg" raw) ;;;
         match url with
         | JStr _ =>
             after_spawn "ffmpeg" "FFmpeg failed: " raw (spawn_ffmpeg env)
         | _ => raise (Py.type_error "expected str, bytes or os.PathLike")
         end)
        (fun e =>
           upd_rec (set_last_error (Some ("FFmpeg error: " ++ exn_msg e))) ;;;
           ret false)
  end.

(** [Recorder._start_ytdlp] *)
Definition _start_ytdlp (env : Env) (url : string) : M RState bool :=
  raw <- raw_target ;;
  upd_rec (set_raw_recording_file (Some raw)) ;;;
  try_except
    (emit (EvSpawn "yt-dlp" raw) ;;;
     after_spawn "yt-dlp" "yt-dlp failed: " raw (spawn_ytdlp env))
    (fun e =>
       upd_rec (set_last_error (Some ("yt-dlp error: " ++ exn_msg e))) ;;;
       ret false).

(** The field resets at the head of [start] (lines 832-842). *)
Definition reset_for_start (env : Env) (user : string)
    (s_url ttl : json) (l_url : string) (r : Recorder) : Recorder :=
  {| process := process r; is_recording := is_recording r;
     is_stopping := false; output_file := output_file r;
     actual_recording_file := None; raw_recording_file := None;
     username := user; title := ttl; live_url := l_url;
     stream_url := s_url;
     first_write_time := Some (time_s (clock env));
     stop_event := false; file_check_count := 0;
     recording_method := recording_method r; last_error := None;
     on_complete := on_complete r |}.

(** [Recorder.start] *)
Definition start (env : Env) (user : string) (s_url ttl : json)
    (l_url : string) : M RState bool :=
  s <- get_st ;;
  if is_recording (rec s) then ret false
  else
    upd_rec (reset_for_start env user s_url ttl l_url) ;;;
    s <- get_st ;;
    out <- lift (_generate_filename (world s) (config s) (rec s)
                   (clock env)) ;;
    upd_rec (set_output_file (Some out)) ;;;
    started <- (if Py.truthy s_url then _start_ffmpeg env s_url
                else ret false) ;;
    if started then ret true
    else
      started <- _start_ytdlp env l_url ;;
      if started then ret true
      else upd_rec (set_is_recording false) ;;; ret false.

(** [process.kill(); process.wait(timeout=3)] inside [try/except: pass]. *)
Definition kill_quietly (pe : ProcEnv) (pid : nat) : M RState unit :=
  try_pass (emit (EvSignal pid KILL) ;;; lift (kill pe) ;;;
            emit (EvWait pid) ;;; lift (wait_kill pe)).

(** The stop protocol of [stop] for a live process handle: interrupt
    the process group, wait 5 s, escalate to SIGKILL on a time-out. *)
Definition shutdown (pe : ProcEnv) (pid : nat) : M RState unit :=
  try_except
    (try_except
       (emit (EvSignal pid SIGINT) ;;; lift (sigint pe) ;;;
        emit (EvWait pid) ;;; lift (wait_sigint pe))
       (fun e =>
          match exn_kind_of e with
          | TimeoutExpired =>
              emit (EvSignal pid SIGKILL) ;;; lift (sigkill pe) ;;;
              emit (EvWait pid) ;;; lift (wait_sigkill pe)
          | _ => kill_quietly pe pid
          end))
    (fun _ => kill_quietly pe pid).

(** The guard at the head of [stop]. *)
Definition stop_refused (r : Recorder) : bool :=
  negb (is_recording r) || is_stopping r.

(** [self.is_stopping = True; self._stop_event.set()] *)
Definition stop_enter : M RState unit :=
  upd_rec (set_is_stopping true) ;;; upd_rec (set_stop_event true).

(** The rest of [stop]: shut the process down, clear the flags,
    complete. *)
Definition stop_body (env : Env) : M RState unit :=
  s <- get_st ;;
  match process (rec s) with
  | Some pid =>
      shutdown (proc_env env) pid ;;; upd_rec (set_process None)
  | None => ret tt
  end ;;;
  upd_rec (set_is_recording false) ;;;
  upd_rec (set_is_stopping false) ;;;
  _complete_after_stop env.

(** [Recorder.stop] *)
Definition stop (env : Env) : M RState unit :=
  s <- get_st ;;
  if stop_refused (rec s) then ret tt
  else stop_enter ;;; stop_body env.

(** [Recorder.check_status] *)
Definition check_status (r : Recorder) : bool :=
  is_recording r && negb (is_stopping r).

(** One pass of the [_monitor] loop body; [exited] is whether
    [process.poll()] reports an exit code. Returns whether the loop
    goes on. *)
Definition monitor_step (env : Env) (exited : bool) : M RState bool :=
  s <- get_st ;;
  if stop_event (rec s) || negb (is_recording (rec s)) then ret false
  else
    let actual_file := _find_actual_file (world s) (rec s) in
    when (truthy actual_file)
      (upd_rec (set_actual_recording_file actual_file)) ;;;
    s <- get_st ;;
    match process (rec s) with
    | Some _ => if exited then _complete env ;;; ret false else ret true
    | None => ret true
    end.

End Recorder.

(* ===================================================================== *)
(** ** TikTokAPI: the resolver *)
(* ===================================================================== *)

(** Network actions of the resolver, in program order. *)
Inductive NetEvent :=
| EvExtractInfo (url : string) (with_cookies : bool)   (* ydl.extract_info *)
| EvHttpGet (url : string) (with_cookies : bool).      (* session.get *)

(** What the resolver observes from outside: the extractor library, the
    HTTP fetch, the two library parsers it calls, and the cookie file. *)
Record NetEnv := mkNetEnv {
  extract_info : string -> bool -> res json;
  http_get : string -> bool -> res string;
  re_search_script : string -> string -> option string;
      (* re.search('<script id="ID"[^>]*>(.+?)</script>', html).group(1) *)
  json_loads : string -> res json;
  cookies_exist : bool;      (* os.path.exists(self.cookies_file) *)
  cookie_jar_loads : bool;   (* MozillaCookieJar(...).load(...) succeeds *)
}.

Module TikTokAPI.

(** The result dictionary of a resolution. *)
Record LiveInfo := mkLiveInfo {
  success : bool;
  is_live : bool;
  username : string;
  title : json;
  viewer_count : json;
  thumbnail_url : json;
  stream_url : json;
  error : option string;
}.

(** The dictionary every resolver function starts from. *)
Definition blank (user : string) : LiveInfo :=
  {| success := false; is_live := false; username := user;
     title := JStr ""; viewer_count := JNum 0; thumbnail_url := JNull;
     stream_url := JNull; error := None |}.

Definition set_success v (r : LiveInfo) : LiveInfo :=
  mkLiveInfo v (is_live r) (username r) (title r) (viewer_count r)
    (thumbnail_url r) (stream_url r) (error r).
Definition set_is_live v (r : LiveInfo) : LiveInfo :=
  mkLiveInfo (success r) v (username r) (title r) (viewer_count r)
    (thumbnail_url r) (stream_url r) (error r).
Definition set_username v (r : LiveInfo) : LiveInfo :=
  mkLiveInfo (success r) (is_live r) v (title r) (viewer_count r)
    (thumbnail_url r) (stream_url r) (error r).
Definition set_title v (r : LiveInfo) : LiveInfo :=
  mkLiveInfo (success r) (is_live r) (username r) v (viewer_count r)
    (thumbnail_url r) (stream_url r) (error r).
Definition set_viewer_count v (r : LiveInfo) : LiveInfo :=
  mkLiveInfo (success r) (is_live r) (username r) (title r) v
    (thumbnail_url r) (stream_url r) (error r).
Definition set_thumbnail_url v (r : LiveInfo) : LiveInfo :=
  mkLiveInfo (success r) (is_live r) (username r) (title r) (viewer_count r)
    v (stream_url r) (error r).
Definition set_stream_url v (r : LiveInfo) : LiveInfo :=
  mkLiveInfo (success r) (is_live r) (username r) (title r) (viewer_count r)
    (thumbnail_url r) v (error r).
Definition set_error v (r : LiveInfo) : LiveInfo :=
  mkLiveInfo (success r) (is_live r) (username r) (title r) (viewer_count r)
    (thumbnail_url r) (stream_url r) v.

(** [QUALITY_MAP.get(quality, ['origin'])] *)
Definition QUALITY_MAP (quality : string) : list string :=
  if String.eqb quality "best" then ["origin"; "uhd"; "hd"; "sd"]
  else if String.eqb quality "high" then ["hd"; "sd"]
  else if String.eqb quality "medium" then ["sd"]
  else if String.eqb quality "low" then ["sd"; "ld"]
  else ["origin"].

(** The state of one strategy: its [result] dictionary and the network
    actions so far. *)
Record Strat := mkStrat { result : LiveInfo; net : list NetEvent }.

Definition upd_result (f : LiveInfo -> LiveInfo) : M Strat unit :=
  modify (fun s => mkStrat (f (result s)) (net s)).
Definition net_emit (e : NetEvent) : M Strat unit :=
  modify (fun s => mkStrat (result s) (net s ++ [e])).

(** ** Stream-URL extraction *)

(** The inner loop of the selection: the first entry whose key contains
    [pref] and whose URL is truthy. [key.lower()] raises on a key that
    is not a string. *)
Fixpoint scan_keys (pref : string) (urls : list (json * json))
  : res (option json) :=
  match urls with
  | [] => Ret None
  | (key, url) :: rest =>
      match Py.lower key with
      | Raise e => Raise e
      | Ret k =>
          if PyStr.contains (PyStr.lower pref) k && Py.truthy url
          then Ret (Some url)
          else scan_keys pref rest
      end
  end.

(** The outer loop: preferences in order. *)
Fixpoint scan_prefs (preferred : list string) (urls : list (json * json))
  : res (option json) :=
  match preferred with
  | [] => Ret None
  | pref :: rest =>
      match scan_keys pref urls with
      | Raise e => Raise e
      | Ret (Some url) => Ret (Some url)
      | Ret None => scan_prefs rest urls
      end
  end.

(** Lines 738-749: selection among the collected candidates. *)
Definition select_url (quality : string) (urls : list (json * json))
  : res json :=
  match urls with
  | [] => Ret JNull
  | (_, first) :: _ =>
      match scan_prefs (QUALITY_MAP quality) urls with
      | Raise e => Raise e
      | Ret (Some url) => Ret url
      | Ret None => Ret first
      end
  end.

(** The body of the loop over [sd["data"].items()]. *)
Definition add_stream (key : string) (val : json) : M (list (json * json)) unit :=
  main <- lift (Py.get val "main" (JDict [])) ;;
  has_flv <- lift (Py.contains "flv" main) ;;
  if has_flv
  then v <- lift (Py.getitem main "flv") ;;
       modify (Py.dict_set (JStr key) v)
  else
    has_hls <- lift (Py.contains "hls" main) ;;
    if has_hls
    then v <- lift (Py.getitem main "hls") ;;
         modify (Py.dict_set (JStr (key ++ "_hls")) v)
    else ret tt.

(** The [try] block on [pull_data["stream_data"]]. *)
Definition add_pull_streams (env : NetEnv) (pull_data : json)
  : M (list (json * json)) unit :=
  raw <- lift (Py.getitem pull_data "stream_data") ;;
  sd <- lift (match raw with
              | JStr text => json_loads env text
              | _ => Raise (Py.type_error "the JSON object must be str")
              end) ;;
  data <- lift (Py.get sd "data" (JDict [])) ;;
  entries <- lift (Py.items data) ;;
  for_each (fun kv => add_stream (fst kv) (snd kv)) entries.

(** The body of the loop over [options["qualities"]]. *)
Definition add_quality (q : json) : M (list (json * json)) unit :=
  sdk_key <- lift (Py.get q "sdk_key" (JStr "")) ;;
  url <- lift (Py.get q "url" JNull) ;;
  if Py.truthy url
  then url <- lift (Py.getitem q "url") ;;
       d <- get_st ;;
       d' <- lift (Py.setitem sdk_key url d) ;;
       modify (fun _ => d')
  else ret tt.

(** Lines 701-736: the candidates, collected into [urls]. *)
Definition collect_urls (env : NetEnv) (stream_data : json)
  : M (list (json * json)) unit :=
  pull_data <- lift (Py.get stream_data "pull_data" (JDict [])) ;;
  when (Py.truthy pull_data)
    (has_sd <- lift (Py.contains "stream_data" pull_data) ;;
     when has_sd (try_pass (add_pull_streams env pull_data)) ;;;
     options <- lift (Py.get pull_data "options" (JDict [])) ;;
     qualities <- lift (Py.get options "qualities" (JList [])) ;;
     qs <- lift (Py.iter qualities) ;;
     for_each add_quality qs) ;;;
  flv_urls <- lift (Py.get stream_data "flv_pull_url" (JDict [])) ;;
  match flv_urls with
  | JDict d => modify (Py.update d)
  | JStr _ => modify (Py.dict_set (JStr "flv") flv_urls)
  | _ => ret tt
  end ;;;
  hls_url <- lift (Py.get stream_data "hls_pull_url" (JStr "")) ;;
  when (Py.truthy hls_url) (modify (Py.dict_set (JStr "hls") hls_url)).

(** [TikTokAPI._extract_stream_url] *)
Definition _extract_stream_url (env : NetEnv) (stream_data : json)
    (quality : string) : res json :=
  if negb (Py.truthy stream_data) then Ret JNull
  else
    match collect_urls env stream_data [] with
    | (_, Raise e) => Raise e
    | (urls, Ret _) => select_url quality urls
    end.

(** ** Strategy A: the extractor library *)

(** [fmt.get("url")] truthy, then [fmt["url"]]. *)
Definition format_url (fmt : json) : res (option json) :=
  match Py.get fmt "url" JNull with
  | Raise e => Raise e
  | Ret u => if Py.truthy u
             then match Py.getitem fmt "url" with
                  | Ret v => Ret (Some v)
                  | Raise e => Raise e
                  end
             else Ret None
  end.

(** The loop over [formats] for one preference. *)
Fixpoint find_format (pref : string) (formats : list json)
  : res (option json) :=
  match formats with
  | [] => Ret None
  | fmt :: rest =>
      match Py.get fmt "format_id" (JStr "") with
      | Raise e => Raise e
      | Ret fid =>
          match Py.lower fid with
          | Raise e => Raise e
          | Ret fmt_id =>
              if PyStr.contains (PyStr.lower pref) fmt_id
              then match format_url fmt with
                   | Raise e => Raise e
                   | Ret (Some v) => Ret (Some v)
                   | Ret None => find_format pref rest
                   end
              else find_format pref rest
          end
      end
  end.

(** The loop over the preferences; [formats] is iterated anew for each. *)
Fixpoint best_format (preferred : list string) (formats : json)
  : res (option json) :=
  match preferred with
  | [] => Ret None
  | pref :: rest =>
      match Py.iter formats with
      | Raise e => Raise e
      | Ret fmts =>
          match find_format pref fmts with
          | Raise e => Raise e
          | Ret (Some v) => Ret (Some v)
          | Ret None => best_format rest formats
          end
      end
  end.

(** "Get highest quality available": the first format with a URL. *)
Fixpoint first_format (formats : list json) : res (option json) :=
  match formats with
  | [] => Ret None
  | fmt :: rest =>
      match format_url fmt with
      | Raise e => Raise e
      | Ret (Some v) => Ret (Some v)
      | Ret None => first_format rest
      end
  end.

Definition opt_json (o : option json) : json :=
  match o with Some v => v | None => JNull end.

(** Lines 556-583: what is done with a truthy [info]. *)
Definition read_info (info : json) (quality : string) : M Strat unit :=
  upd_result (set_is_live true) ;;;
  upd_result (set_success true) ;;;
  t <- lift (Py.get info "title" (JStr "TikTok Live")) ;;
  upd_result (set_title t) ;;;
  v <- lift (Py.get info "concurrent_view_count" (JNum 0)) ;;
  upd_result (set_viewer_count (if Py.truthy v then v else JNum 0)) ;;;
  th <- lift (Py.get info "thumbnail" (JStr "")) ;;
  upd_result (set_thumbnail_url th) ;;;
  formats <- lift (Py.get info "formats" (JList [])) ;;
  best_url <- lift (best_format (QUALITY_MAP quality) formats) ;;
  best_url <- (if negb (Py.truthy (opt_json best_url)) && Py.truthy formats
               then fmts <- lift (Py.iter formats) ;;
                    lift (first_format fmts)
               else ret best_url) ;;
  upd_result (set_stream_url (opt_json best_url)).

(** The message chosen by the [DownloadError] handler. *)
Definition download_error_text (e : exn) : string :=
  let msg := PyStr.lower (exn_msg e) in
  if PyStr.contains "not currently live" msg || PyStr.contains "offline" msg
  then "User tidak sedang live"
  else if PyStr.contains "captcha" msg || PyStr.contains "verify" msg
  then "Butuh cookies! Export cookies dari browser."
  else if PyStr.contains "private" msg then "Live bersifat private"
  else if PyStr.contains "not exist" msg || PyStr.contains "404" msg
  then "User tidak ditemukan"
  else "yt-dlp: " ++ PyStr.take 60 (exn_msg e).

Definition use_cookies (env : NetEnv) (cookies_file : string) : bool :=
  negb (String.eqb cookies_file "") && cookies_exist env.

(** Run a strategy body from a blank result and hand back the result
    dictionary; an exception that escapes the body escapes the
    strategy. *)
Definition run_strategy (user : string) (body : M Strat unit)
  : M (list NetEvent) LiveInfo :=
  fun log =>
    match body (mkStrat (blank user) log) with
    | (st, Ret _) => (net st, Ret (result st))
    | (st, Raise e) => (net st, Raise e)
    end.

(** [TikTokAPI._try_ytdlp] *)
Definition _try_ytdlp (env : NetEnv) (cookies_file url user quality : string)
  : M (list NetEvent) LiveInfo :=
  run_strategy user
    (try_except
       (net_emit (EvExtractInfo url (use_cookies env cookies_file)) ;;;
        info <- lift (extract_info env url (use_cookies env cookies_file)) ;;
        when (Py.truthy info) (read_info info quality))
       (fun e =>
          match exn_kind_of e with
          | DownloadError =>
              upd_result (set_error (Some (download_error_text e)))
          | _ =>
              upd_result
                (set_error (Some ("Error: " ++ PyStr.take 60 (exn_msg e))))
          end)).

(** ** Strategy B: the page itself *)

(** The fields read from a live-room object, in the order of the
    source; [fallback_title] is evaluated only when the title is
    falsy. *)
Definition read_room (env : NetEnv) (room : json)
    (fallback_title : res json) (quality : string) : M Strat unit :=
  upd_result (set_is_live true) ;;;
  upd_result (set_success true) ;;;
  t <- lift (Py.get room "title" (JStr "")) ;;
  t <- (if Py.truthy t then ret t else lift fallback_title) ;;
  upd_result (set_title t) ;;;
  stats <- lift (Py.get room "liveRoomStats" (JDict [])) ;;
  n <- lift (Py.get stats "userCount" (JNum 0)) ;;
  upd_result (set_viewer_count n) ;;;
  cover <- lift (Py.get room "coverUrl" (JStr "")) ;;
  upd_result (set_thumbnail_url cover) ;;;
  stream_data <- lift (Py.get room "streamData" (JDict [])) ;;
  url <- lift (_extract_stream_url env stream_data quality) ;;
  upd_result (set_stream_url url).

(** The [SIGI_STATE] branch; [true] stands for its [return result]. *)
Definition read_sigi (env : NetEnv) (blob quality : string) : M Strat bool :=
  data <- lift (json_loads env blob) ;;
  live_room <- lift (Py.get data "LiveRoom" (JDict [])) ;;
  live_room_info <- lift (Py.get live_room "liveRoomUserInfo" (JDict [])) ;;
  if Py.truthy live_room_info
  then
    user <- lift (Py.get live_room_info "user" (JDict [])) ;;
    room <- lift (Py.get live_room_info "liveRoom" (JDict [])) ;;
    if Py.truthy room
    then read_room env room (Py.get user "nickname" (JStr "TikTok Live"))
           quality ;;;
         ret true
    else ret false
  else ret false.

(** The [__NEXT_DATA__] branch. In it the title has no fallback: the
    default of [get] is the literal. *)
Definition read_next_room (env : NetEnv) (live_room : json)
    (quality : string) : M Strat unit :=
  upd_result (set_is_live true) ;;;
  upd_result (set_success true) ;;;
  t <- lift (Py.get live_room "title" (JStr "TikTok Live")) ;;
  upd_result (set_title t) ;;;
  stats <- lift (Py.get live_room "liveRoomStats" (JDict [])) ;;
  n <- lift (Py.get stats "userCount" (JNum 0)) ;;
  upd_result (set_viewer_count n) ;;;
  cover <- lift (Py.get live_room "coverUrl" (JStr "")) ;;
  upd_result (set_thumbnail_url cover) ;;;
  stream_data <- lift (Py.get live_room "streamData" (JDict [])) ;;
  url <- lift (_extract_stream_url env stream_data quality) ;;
  upd_result (set_stream_url url).

Definition read_next (env : NetEnv) (blob quality : string) : M Strat bool :=
  data <- lift (json_loads env blob) ;;
  props0 <- lift (Py.get data "props" (JDict [])) ;;
  props <- lift (Py.get props0 "pageProps" (JDict [])) ;;
  live_room <- lift (Py.get props "liveRoom" (JDict [])) ;;
  if Py.truthy live_room
  then read_next_room env live_room quality ;;; ret true
  else ret false.

(** [try: branch except: pass], telling whether the branch returned. *)
Definition guarded (branch : M Strat bool) : M Strat bool :=
  try_except branch (fun _ => ret false).

Definition live_page_url (user : string) : string :=
  "https://www.tiktok.com/@" ++ user ++ "/live".

(** The outer [try] block of [_try_web_scrape]. *)
Definition scrape (env : NetEnv) (cookies_file user quality : string)
  : M Strat unit :=
  let with_cookies := use_cookies env cookies_file && cookie_jar_loads env in
  net_emit (EvHttpGet (live_page_url user) with_cookies) ;;;
  html <- lift (http_get env (live_page_url user) with_cookies) ;;
  if PyStr.contains "captcha" (PyStr.lower html)
     || PyStr.contains "verify" (PyStr.lower html)
  then upd_result
         (set_error (Some "Butuh cookies! Export cookies dari browser."))
  else
    returned <- match re_search_script env "SIGI_STATE" html with
                | Some blob => guarded (read_sigi env blob quality)
                | None => ret false
                end ;;
    if returned then ret tt
    else
      returned <- match re_search_script env "__NEXT_DATA__" html with
                  | Some blob => guarded (read_next env blob quality)
                  | None => ret false
                  end ;;
      if returned then ret tt
      else
        when (PyStr.contains "isn't hosting a LIVE" html
              || PyStr.contains "currently not hosting" (PyStr.lower html))
          (upd_result (set_error (Some "User tidak sedang live"))).

(** [TikTokAPI._try_web_scrape] *)
Definition _try_web_scrape (env : NetEnv) (cookies_file user quality : string)
  : M (list NetEvent) LiveInfo :=
  run_strategy user
    (try_except (scrape env cookies_file user quality)
       (fun e =>
          match exn_kind_of e with
          | RequestException =>
              upd_result
                (set_error
                   (Some ("Network error: " ++ PyStr.take 40 (exn_msg e))))
          | _ =>
              upd_result
                (set_error
                   (Some ("Scrape error: " ++ PyStr.take 40 (exn_msg e))))
          end)).

(** ** The resolver *)

(** [username.strip().lstrip("@").lower()] *)
Definition normalize (user : string) : string :=
  PyStr.lower (PyStr.lstrip_char "@" (PyStr.strip user)).

(** [TikTokAPI.get_live_info] *)
Definition get_live_info (env : NetEnv) (cookies_file user quality : string)
  : M (list NetEvent) LiveInfo :=
  let user := normalize user in
  let result := blank user in
  if String.eqb user ""
  then ret (set_error (Some "Username tidak boleh kosong") result)
  else
    let url := live_page_url user in
    yt_result <- _try_ytdlp env cookies_file url user quality ;;
    if success yt_result then ret (set_username user yt_result)
    else
      web_result <- _try_web_scrape env cookies_file user quality ;;
      if success web_result then ret (set_username user web_result)
      else
        if PyStr.truthy (error yt_result)
        then ret (set_error (error yt_result) result)
        else if PyStr.truthy (error web_result)
        then ret (set_error (error web_result) result)
        else ret (set_error (Some "Tidak bisa mendapatkan info live") result).

End TikTokAPI.

(* ===================================================================== *)
(** ** MultiRecorder: the session registry *)
(* ===================================================================== *)

(** The registry and everything its methods touch. [heap] holds every
    [Recorder] object the registry has created, by identity (its index);
    [recorders] is the dictionary from handle to object. The body of each
    method below runs under [self._lock], so it is one atomic step. *)
Record MState := mkMState {
  m_world : World;
  m_config : AppConfig;
  heap : list Recorder;
  recorders : gmap string nat;
  m_log : list Event;
}.

Module MultiRecorder.

(** The recorder registered under a handle. *)
Definition registered (ms : MState) (user : string) : option Recorder :=
  match recorders ms !! user with
  | Some i => heap ms !! i
  | None => None
  end.

(** [username in self.recorders and self.recorders[username].is_recording] *)
Definition active (ms : MState) (user : string) : bool :=
  match registered ms user with
  | Some r => is_recording r
  | None => false
  end.

(** [MultiRecorder.start] *)
Definition start (env : Env) (user : string) (s_url ttl : json)
    (l_url : string) : M MState bool :=
  fun ms =>
    if active ms user then (ms, Ret false)
    else
      match mkdir_output env with
      | Raise e => (ms, Raise e)
      | Ret _ =>
          let '(s', a) :=
            Recorder.start env user s_url ttl l_url
              (mkRState (m_world ms) (m_config ms) new_recorder (m_log ms)) in
          let idx := length (heap ms) in
          let heap' := (heap ms ++ [rec s'])%list in
          match a with
          | Ret true =>
              (mkMState (world s') (config s') heap'
                 (<[user := idx]> (recorders ms)) (log s'), Ret true)
          | _ =>
              (mkMState (world s') (config s') heap' (recorders ms) (log s'),
               a)
          end
      end.

(** [MultiRecorder.is_recording] *)
Definition is_recording (ms : MState) (user : string) : bool :=
  match registered ms user with
  | Some r => Recorder.check_status r
  | None => false
  end.

(** [MultiRecorder.get] *)
Definition get (ms : MState) (user : string) : option Recorder :=
  registered ms user.

(** Run a method of the recorder object [i] in place. *)
Definition on_recorder {A} (i : nat) (m : M RState A) (default : A)
  : M MState A :=
  fun ms =>
    match heap ms !! i with
    | None => (ms, Ret default)
    | Some r =>
        let '(s', a) :=
          m (mkRState (m_world ms) (m_config ms) r (m_log ms)) in
        (mkMState (world s') (config s') (<[i := rec s']> (heap ms))
           (recorders ms) (log s'), a)
    end.

(** [MultiRecorder.stop_all]; [envs] gives what each recorder observes
    while it stops. The dictionary is walked in the order of
    [map_to_list]. *)
Definition stop_all (envs : nat -> Env) : M MState unit :=
  ms <- get_st ;;
  for_each (fun ui => on_recorder (snd ui) (Recorder.stop (envs (snd ui))) tt)
    (map_to_list (recorders ms)) ;;;
  modify (fun ms => mkMState (m_world ms) (m_config ms) (heap ms) ∅
                      (m_log ms)).

End MultiRecorder.

(** What can happen to a registry between two observations: a start
    request, a stop-all, one pass of the monitor thread of some recorder,
    or a change of the files from outside. *)
Inductive registry_step : MState -> MState -> Prop :=
| step_start env user s_url ttl l_url ms :
    registry_step ms (fst (MultiRecorder.start env user s_url ttl l_url ms))
| step_stop_all envs ms :
    registry_step ms (fst (MultiRecorder.stop_all envs ms))
| step_monitor i env exited ms :
    registry_step ms
      (fst (MultiRecorder.on_recorder i (Recorder.monitor_step env exited)
              false ms))
| step_world w ms :
    registry_step ms
      (mkMState w (m_config ms) (heap ms) (recorders ms) (m_log ms)).

(** [MultiRecorder.__init__] *)
Definition empty_registry (w : World) (cfg : AppConfig) : MState :=
  mkMState w cfg [] ∅ [].

Inductive reachable : MState -> Prop :=
| reach_init w cfg : reachable (empty_registry w cfg)
| reach_step ms ms' : reachable ms -> registry_step ms ms' -> reachable ms'.

(* ===================================================================== *)
(** ** TikTokApp: one round of the watchlist monitor *)
(* ===================================================================== *)

(** Actions of the monitor loop itself. *)
Inductive AppEvent :=
| EvResolve (user : string)         (* self.api.get_live_info(u, quality) *)
| EvAutoStart (user : string)       (* self.multi.start(u, ...) *)
| EvNotifyLive (user : string)      (* self.notifier.notify_live(...) *)
| EvQueuePut (user : string).       (* self.queue.put(("monitor_update",)) *)

(** The part of the application the loop works on. *)
Record App := mkApp {
  multi : MState;
  user_status : gmap string TikTokAPI.LiveInfo;
  net_log : list NetEvent;
  app_log : list AppEvent;
}.

Section Monitor.

(** The resolver behind [self.api]: any behaviour, raising included. *)
Variable resolve : string -> string -> M (list NetEvent) TikTokAPI.LiveInfo.
(** What the recorder started for a handle observes. *)
Variable env_of : string -> Env.
(** The value of [self.monitoring], a flag another thread may clear, at
    its k-th read of the round. *)
Variable monitoring : nat -> bool.
(** [self.notifier.notify_live(u, info["title"], info["viewer_count"])]:
    when the notification is enabled the message formats the viewer
    count with a thousands separator, which raises on a count that is
    not a number. *)
Variable notify_live : string -> TikTokAPI.LiveInfo -> res unit.

Definition app_emit (e : AppEvent) : M App unit :=
  modify (fun a => mkApp (multi a) (user_status a) (net_log a)
                     (app_log a ++ [e])).

(** [self.api.get_live_info(u, self.config.quality)] *)
Definition call_resolve (u : string) : M App TikTokAPI.LiveInfo :=
  app_emit (EvResolve u) ;;;
  fun a =>
    let '(n, r) := resolve u (quality (m_config (multi a))) (net_log a) in
    (mkApp (multi a) (user_status a) n (app_log a), r).

(** [self.multi.start(u, info.get("stream_url", ""), info["title"], url)] *)
Definition call_start (u : string) (info : TikTokAPI.LiveInfo) : M App bool :=
  app_emit (EvAutoStart u) ;;;
  fun a =>
    let '(ms, r) :=
      MultiRecorder.start (env_of u) u (TikTokAPI.stream_url info)
        (TikTokAPI.title info) (TikTokAPI.live_page_url u) (multi a) in
    (mkApp ms (user_status a) (net_log a) (app_log a), r).

(** [self.user_status[u] = info] *)
Definition record_status (u : string) (info : TikTokAPI.LiveInfo)
  : M App unit :=
  modify (fun a => mkApp (multi a) (<[u := info]> (user_status a))
                     (net_log a) (app_log a)).

(** The [try] block for one handle (lines 2756-2766). *)
Definition visit_body (u : string) : M App unit :=
  info <- call_resolve u ;;
  record_status u info ;;;
  a <- get_st ;;
  when (TikTokAPI.is_live info
        && negb (MultiRecorder.is_recording (multi a) u))
    (started <- call_start u info ;;
     when started
       (app_emit (EvNotifyLive u) ;;; lift (notify_live u info))) ;;;
  app_emit (EvQueuePut u).

(** One handle: the body under [try: ... except: pass]. *)
Definition visit (u : string) : M App unit := try_pass (visit_body u).

(** The [for u in self.watchlist.get_all()] loop of one round, with its
    [if not self.monitoring: break]; [k] counts the reads of the flag. *)
Fixpoint cycle (k : nat) (handles : list string) : M App unit :=
  match handles with
  | [] => ret tt
  | u :: rest =>
      if negb (monitoring k) then ret tt
      else visit u ;;; cycle (S k) rest
  end.

End Monitor.

(* ===================================================================== *)
(** ** Vocabulary of the conversion properties *)
(* ===================================================================== *)

(** How a run of the conversion ladder ends. *)
Inductive ladder_outcome :=
| Accepted (st : step)
| AllRejected
| Aborted (e : exn).

(** A step is accepted when its process exits zero and leaves an output
    file that passes the size test [ok]. *)
Definition step_accepts (ok : step -> Z -> Z -> bool) (st : step)
    (file_size : Z) (rr : run_result) : bool :=
  match rr with
  | Exited rc (Some n) => (rc =? 0)%Z && ok st file_size n
  | _ => false
  end.

(** The ladder as a plan: the steps tried, in order, and how it ends. A
    step whose process does not return ends the ladder. *)
Fixpoint ladder_plan (ok : step -> Z -> Z -> bool) (run : step -> run_result)
    (file_size : Z) (steps : list step) : list step * ladder_outcome :=
  match steps with
  | [] => ([], AllRejected)
  | st :: rest =>
      match run st with
      | RunRaised e _ => ([st], Aborted e)
      | Exited _ _ =>
          if step_accepts ok st file_size (run st) then ([st], Accepted st)
          else let '(tried, o) := ladder_plan ok run file_size rest in
               (st :: tried, o)
      end
  end.

(** The fixed order: remux, audio transcode, full re-encode. *)
Definition all_steps : list step := [Remux; AudioAac; FullEncode].

(** [w'] differs from [w] at most in the files at paths satisfying [P]. *)
Definition frame (P : string -> Prop) (w w' : World) : Prop :=
  locked w' = locked w /\ listing w' = listing w
  /\ has_ffmpeg w' = has_ffmpeg w
  /\ forall p, ~ P p -> files w' !! p = files w !! p.

(** What a conversion run leaves at its output path. *)
Definition out_of (rr : run_result) : option Z :=
  match rr with Exited _ o => o | RunRaised _ o => o end.

(** The state right after one conversion command has run. *)
Definition after_run (env : Env) (st : step) (inp mp4 : string) (s : RState)
  : RState :=
  mkRState (set_files (Recorder.put_output mp4 (out_of (ffmpeg_run env st))) (world s))
    (config s) (rec s) (log s ++ [EvConvert st inp mp4]).

(** The paths a ladder run may change: its output, and its input once a
    step has been accepted. *)
Definition touched (oc : ladder_outcome) (mp4 inp p : string) : Prop :=
  p = mp4 \/ ((exists st, oc = Accepted st) /\ p = inp).

(** The recorder after the [try] block of the conversion. *)
Definition rec_after (oc : ladder_outcome) (mp4 inp : string) (r : Recorder)
  : Recorder :=
  match oc with
  | Accepted _ => set_output_file (Some mp4) r
  | AllRejected => set_output_file (Some inp) r
  | Aborted _ => r
  end.

Definition result_after (oc : ladder_outcome) : res unit :=
  match oc with Aborted e => Raise e | _ => Ret tt end.

(** The recorder once a completion path has adopted the file it found. *)
Definition adopted (w : World) (r : Recorder) : Recorder :=
  if PyStr.truthy (Recorder._find_actual_file w r)
  then set_output_file (Recorder._find_actual_file w r) r else r.

(** The events of [_finalize_recording]. *)
Definition is_final_event (e : Event) : Prop :=
  match e with
  | EvSaveConfig | EvNotifyEnd _ | EvOnComplete _ _ => True
  | _ => False
  end.

(** The output path a finished ladder leaves in the recorder. *)
Definition final_path (oc : ladder_outcome) (mp4 inp : string) : string :=
  match oc with Accepted _ => mp4 | _ => inp end.

(** Conversion commands, and every run of the conversion tool. *)
Definition is_convert (e : Event) : bool :=
  match e with EvConvert _ _ _ => true | _ => false end.

Definition is_tool_run (e : Event) : bool :=
  match e with EvProbeFfmpeg | EvConvert _ _ _ => true | _ => false end.

(** The process of step [st] exits zero and its output meets the size
    test of that step. *)
Definition step_passes (env : Env) (file_size : Z) (st : step) : Prop :=
  exists n, ffmpeg_run env st = Exited 0 (Some n)
            /\ Recorder.size_ok st file_size n = true.

(** The size test in the words of the specification: at least 50 %, at
    least 30 %, above 10 KB. *)
Definition claimed_size_ok (st : step) (file_size output_size : Z) : bool :=
  match st with
  | Remux => (file_size <=? 2 * output_size)%Z
  | AudioAac => (3 * file_size <=? 10 * output_size)%Z
  | FullEncode => (10000 <? output_size)%Z
  end.

(** The ladder in the words of the specification: every step that is not
    accepted is followed by the next one. *)
Fixpoint claimed_ladder (run : step -> run_result) (file_size : Z)
    (steps : list step) : list step * option step :=
  match steps with
  | [] => ([], None)
  | st :: rest =>
      if step_accepts claimed_size_ok st file_size (run st)
      then ([st], Some st)
      else let '(tried, o) := claimed_ladder run file_size rest in
           (st :: tried, o)
  end.

(** The specification's reading of a completion run on input [inp] of
    size [S]. *)
Definition ladder_as_claimed (env : Env) (s : RState) (inp : string) (S : Z)
  : Prop :=
  let s' := fst (Recorder._complete_after_stop env s) in
  let mp4 := Recorder.mp4_output_for inp inp in
  let plan := claimed_ladder (ffmpeg_run env) S all_steps in
  List.filter is_convert (log s')
  = (List.filter is_convert (log s)
     ++ map (fun st => EvConvert st inp mp4) (fst plan))%list
  /\ output_file (rec s')
     = Some (match snd plan with Some _ => mp4 | None => inp end).

(** The size test as amended: strict for the audio transcode. *)
Definition amended_size_ok (st : step) (file_size output_size : Z) : bool :=
  match st with
  | Remux => (file_size <=? 2 * output_size)%Z
  | AudioAac => (3 * file_size <? 10 * output_size)%Z
  | FullEncode => (10000 <? output_size)%Z
  end.

(** The remux output, if there is one, is not exactly half the input. *)
Definition remux_off_boundary (env : Env) (file_size : Z) : Prop :=
  forall rc n, ffmpeg_run env Remux = Exited rc (Some n) ->
               (2 * n)%Z <> file_size.

(** Concrete worlds and oracles for the examples. *)
Module Sample.
Definition flv : string := "./recordings/bob_20240102_030405_678.flv".
Definition mp4 : string := "./recordings/bob_20240102_030405_678.mp4".
Definition cfg : AppConfig :=
  mkConfig "./recordings" "" 60 "best" "{username}_{datetime}" 0 0 0.
Definition clk : Clock :=
  mkClock (mkDateTime 2024 1 2 3 4 5 678901) 1704164645678
    (1704164645678901 # 1000000).
Definition quiet : ProcEnv :=
  mkProcEnv (Ret tt) (Ret tt) (Ret tt) (Ret tt) (Ret tt) (Ret tt).
Definition env_of (run : step -> run_result) : Env :=
  mkEnv clk run (SpawnAlive 4242) (SpawnAlive 4243) quiet (Ret tt).
Definition world_of (size : Z) (tool : bool) : World :=
  mkWorld {[ flv := size ]} ∅ (fun _ => None) tool.
Definition recorder : Recorder :=
  {| process := Some 4242; is_recording := true; is_stopping := false;
     output_file := Some mp4; actual_recording_file := Some flv;
     raw_recording_file := Some flv; username := "bob";
     title := JStr "hello";
     live_url := "https://www.tiktok.com/@bob/live";
     stream_url := JStr "https://pull.example/bob_hd.flv";
     first_write_time := Some (17041646456789 # 10000);
     stop_event := false; file_check_count := 0;
     recording_method := "ffmpeg"; last_error := None;
     on_complete := true |}.
Definition state_of (size : Z) (tool : bool) : RState :=
  mkRState (world_of size tool) cfg recorder [].

(** Remux fails, the audio transcode gives exactly 30 % of the input,
    the full re-encode fails. *)
Definition run_thirty (st : step) : run_result :=
  match st with
  | Remux => Exited 1 None
  | AudioAac => Exited 0 (Some 30000%Z)
  | FullEncode => Exited 1 None
  end.

(** The remux output is too small, the audio transcode is accepted. *)
Definition run_second (st : step) : run_result :=
  match st with
  | Remux => Exited 0 (Some 20000%Z)
  | AudioAac => Exited 0 (Some 90000%Z)
  | FullEncode => Exited 0 (Some 80000%Z)
  end.

(** Every step exits with an error and leaves no output. *)
Definition run_fail (st : step) : run_result := Exited 1 None.

(** The remux does not return within its time-out; the later steps would
    succeed. *)
Definition run_timeout (st : step) : run_result :=
  match st with
  | Remux =>
      RunRaised (mkExn TimeoutExpired "timed out after 1800 seconds") None
  | _ => Exited 0 (Some 90000%Z)
  end.
End Sample.

(* ===================================================================== *)
(** ** Vocabulary of the filename property *)
(* ===================================================================== *)

(** The base path or one of its 999 counter variants is free. *)
Definition some_slot_free (w : World) (cfg : AppConfig) (stem : string) : Prop :=
  Os.path_exists w (Recorder.base_path cfg stem) = false
  \/ exists k, (1 <= k <= 999)%nat
               /\ Os.path_exists w (Recorder.counter_path cfg stem k) = false.

(** A directory in which the base path, its 999 counter variants and the
    timestamp path of the sample clock are all taken. *)
Module Crowded.
Definition stem : string :=
  Recorder.filename_stem Sample.cfg "bob" "hello" Sample.clk.
Definition taken : list string :=
  Recorder.base_path Sample.cfg stem :: Recorder.ts_path Sample.cfg stem Sample.clk
  :: map (Recorder.counter_path Sample.cfg stem) (seq 1 999).
Definition world : World :=
  mkWorld (list_to_map (map (fun p => (p, 1024%Z)) taken)) ∅
    (fun _ => None) true.
End Crowded.


(* ===================================================================== *)
(** ** Vocabulary of the stop property *)
(* ===================================================================== *)

(** Kinds of actions counted in a log: the end-of-recording notification
    of [_finalize_recording], the lifecycle callback, the interrupt that
    opens the stop protocol. *)
Definition is_notify_end (e : Event) : bool :=
  match e with EvNotifyEnd _ => true | _ => false end.
Definition is_callback (e : Event) : bool :=
  match e with EvOnComplete _ _ => true | _ => false end.
Definition is_interrupt (e : Event) : bool :=
  match e with EvSignal _ SIGINT => true | _ => false end.

(** How often an action of kind [k] occurs in a log. *)
Definition occurrences (k : Event -> bool) (l : list Event) : nat :=
  length (List.filter k l).


(* ===================================================================== *)
(** ** Vocabulary of the registry property *)
(* ===================================================================== *)

(** A start request is admitted when it returns [True]. *)
Definition admitted (r : res bool) : bool :=
  match r with Ret true => true | _ => false end.

(** Every recorder object is outside a stop, and one that is recording is
    the one registered under its handle. *)
Definition registry_ok (ms : MState) : Prop :=
  forall i r, heap ms !! i = Some r ->
    is_stopping r = false
    /\ (is_recording r = true -> recorders ms !! username r = Some i).

(** The body of the loop of [stop_all]. *)
Definition stop_each (envs : nat -> Env) (ui : string * nat) : M MState unit :=
  MultiRecorder.on_recorder (snd ui) (Recorder.stop (envs (snd ui))) tt.

(** The specification's reading of two start requests. *)
Definition exactly_one_admitted (r1 r2 : res bool) : Prop :=
  xorb (admitted r1) (admitted r2) = true.

(** Two start requests for one handle while no capture can be launched. *)
Module Dead.
(** Both capture commands exit during their grace sleep. *)
Definition env : Env :=
  mkEnv Sample.clk Sample.run_fail
    (SpawnExited 4242 "Connection refused")
    (SpawnExited 4243 "ERROR: unable to download") Sample.quiet (Ret tt).
Definition registry : MState :=
  empty_registry (Sample.world_of 100000 true) Sample.cfg.
Definition first :=
  MultiRecorder.start env "bob" (JStr "https://pull.example/bob_hd.flv")
    (JStr "hello") "https://www.tiktok.com/@bob/live" registry.
Definition second :=
  MultiRecorder.start env "bob" (JStr "https://pull.example/bob_hd.flv")
    (JStr "hello") "https://www.tiktok.com/@bob/live" (fst first).
End Dead.


(* ===================================================================== *)
(** ** Vocabulary of the resolver properties *)
(* ===================================================================== *)

(** The error field holds a non-empty message. *)
Definition error_populated (info : TikTokAPI.LiveInfo) : Prop :=
  exists msg, TikTokAPI.error info = Some msg /\ msg <> "".




(* ===================================================================== *)
(** ** Vocabulary of the URL selection property *)
(* ===================================================================== *)

(** A candidate map with string keys, as the dictionary [urls]. *)
Definition keyed (urls : list (string * json)) : list (json * json) :=
  map (fun kv => (JStr (fst kv), snd kv)) urls.

(** The key contains the preference, case-insensitively. *)
Definition key_matches (pref : string) (kv : string * json) : bool :=
  PyStr.contains (PyStr.lower pref) (PyStr.lower (fst kv)).

(** The key matches and the URL is truthy. *)
Definition eligible (pref : string) (kv : string * json) : bool :=
  key_matches pref kv && Py.truthy (snd kv).

(** [(i', j')] comes before [(i, j)] in the order of the two loops. *)
Definition earlier (i' j' i j : nat) : Prop :=
  (i' < i)%nat \/ (i' = i /\ (j' < j)%nat).

(** The selection in the words of the specification: the first candidate
    whose key matches a preference, preferences in order; else the first
    candidate. *)
Fixpoint claimed_pick (preferred : list string) (urls : list (string * json))
  : option json :=
  match preferred with
  | [] => None
  | pref :: rest =>
      match List.find (key_matches pref) urls with
      | Some kv => Some (snd kv)
      | None => claimed_pick rest urls
      end
  end.

Definition claimed_select (quality : string) (urls : list (string * json))
  : json :=
  match urls with
  | [] => JNull
  | first :: _ =>
      match claimed_pick (TikTokAPI.QUALITY_MAP quality) urls with
      | Some url => url
      | None => snd first
      end
  end.

(** A page whose flat pull-URL map has an empty entry. *)
Module Page.
(** A resolver environment with no network and no parsers. *)
Definition offline : NetEnv :=
  mkNetEnv (fun _ _ => Raise (mkExn DownloadError "offline"))
    (fun _ _ => Raise (mkExn RequestException "unreachable"))
    (fun _ _ => None) (fun _ => Raise (mkExn ValueError "no JSON"))
    false false.
(** A flat pull-URL map whose HD entry is empty. *)
Definition flat : list (string * json) :=
  [("HD1", JStr ""); ("SD1", JStr "https://pull.example/bob_sd.flv")].
Definition stream_data : json := JDict [("flv_pull_url", JDict flat)].
End Page.


(* ===================================================================== *)
(** ** Vocabulary of the monitor property *)
(* ===================================================================== *)

(** The calls of the resolver in the log of the loop. *)
Definition is_resolve (e : AppEvent) : bool :=
  match e with EvResolve _ => true | _ => false end.


(** One round of [TikTokApp._monitor_loop] over the resolver of this
    file, with a notifier that is switched off. *)
Definition monitor_round (net : NetEnv) (cookies_file : string)
    (env_of : string -> Env) (monitoring : nat -> bool)
    (handles : list string) : M App unit :=
  cycle (TikTokAPI.get_live_info net cookies_file) env_of monitoring
    (fun _ _ => Ret tt) 0 handles.

(** A watchlist round in which resolving the second handle raises. *)
Module Round.
Definition live (u : string) : TikTokAPI.LiveInfo :=
  TikTokAPI.mkLiveInfo true true u (JStr "hello") (JNum 1200) (JStr "")
    (JStr "https://pull.example/hd.flv") None.
(** A resolver that raises a network error for handle [b]. *)
Definition flaky (u quality : string) : M (list NetEvent) TikTokAPI.LiveInfo :=
  fun log =>
    if String.eqb u "b"
    then (log, Raise (mkExn RequestException "network down"))
    else (log, Ret (live u)).
Definition env_of (u : string) : Env := Sample.env_of Sample.run_second.
Definition app : App :=
  mkApp (empty_registry (Sample.world_of 100000 true) Sample.cfg) ∅ [] [].
Definition handles : list string := ["a"; "b"; "c"].
(** The notifier is switched off. *)
Definition silent (u : string) (info : TikTokAPI.LiveInfo) : res unit :=
  Ret tt.
End Round.

(* ===================================================================== *)
(** ** Vocabulary of the capture-start properties *)
(* ===================================================================== *)

(** Kinds of actions of [Recorder.start]: a capture command being
    launched, the start notification, the monitor thread. *)
Definition is_spawn (e : Event) : bool :=
  match e with EvSpawn _ _ => true | _ => false end.
Definition is_notify_start (e : Event) : bool :=
  match e with EvNotifyStart _ => true | _ => false end.
Definition is_monitor_thread (e : Event) : bool :=
  match e with EvMonitorThread _ => true | _ => false end.

(** The direct capture is tried: the stream URL is truthy and the tool
    can be launched. *)
Definition ffmpeg_tried (w : World) (s_url : json) : bool :=
  Py.truthy s_url && has_ffmpeg w.

(** A capture process is alive after its grace sleep. *)
Definition alive (sp : spawn_result) : bool :=
  match sp with SpawnAlive _ => true | _ => false end.

(** The direct capture is tried and its process stays alive; the URL
    has to be a string for the process to be launched at all. *)
Definition ffmpeg_starts (env : Env) (w : World) (s_url : json) : bool :=
  ffmpeg_tried w s_url
  && match s_url with JStr _ => alive (spawn_ffmpeg env) | _ => false end.

(** The raw target of a session whose output path is [out]. *)
Definition raw_of (out : string) : string :=
  fst (OsPath.splitext out) ++ ".flv".

(** A capture can be launched for a start request: the output directory
    can be made, the title is a string (the file name is built from it),
    and one of the two capture processes stays alive after its grace
    sleep. *)
Definition can_launch (env : Env) (w : World) (s_url ttl : json) : bool :=
  is_ret (mkdir_output env)
  && match ttl with JStr _ => true | _ => false end
  && (ffmpeg_starts env w s_url || alive (spawn_ytdlp env)).

(* ===================================================================== *)
(** ** Vocabulary of the session life-cycle properties *)
(* ===================================================================== *)

(** What is done to one recorder between a start and the next: a call of
    [stop], or one pass of the loop of its monitor thread, which has seen
    the capture process exited or not. Calls are taken one at a time. *)
Inductive session_action :=
| CallStop (env : Env)
| MonitorPass (env : Env) (exited : bool).

Definition is_call_stop (a : session_action) : bool :=
  match a with CallStop _ => true | MonitorPass _ _ => false end.

Definition run_action (a : session_action) : M RState unit :=
  match a with
  | CallStop env => Recorder.stop env
  | MonitorPass env exited => Recorder.monitor_step env exited ;;; ret tt
  end.

Definition run_actions (acts : list session_action) : M RState unit :=
  for_each run_action acts.

(* ===================================================================== *)
(** ** Vocabulary of the raw-file removal property *)
(* ===================================================================== *)

(** What is at the input path after the ladder, by its outcome: [flv]
    tells whether the name of the input ends in [.flv], [locked_] whether
    its removal fails. *)
Definition input_after (flv locked_ : bool) (S : Z) (oc : ladder_outcome)
  : option Z :=
  match oc with
  | Accepted _ => if flv && negb locked_ then None else Some S
  | _ => Some S
  end.

(* ===================================================================== *)
(** ** Vocabulary of the file-tracking property *)
(* ===================================================================== *)

(** [q] is an entry of the directory of the output path whose name
    starts with the base name of the output and does not end in
    [.txt]. *)
Definition from_listing (w : World) (r : Recorder) (q : string) : Prop :=
  exists o entries f,
    output_file r = Some o
    /\ listing w (OsPath.dirname o) = Some entries
    /\ f ∈ entries
    /\ PyStr.startswith (OsPath.basename (fst (OsPath.splitext o))) f = true
    /\ PyStr.endswith ".txt" f = false
    /\ q = OsPath.join (OsPath.dirname o) f.

(* ===================================================================== *)
(** ** Vocabulary of the statistics property *)
(* ===================================================================== *)

(** The size under which the output file of a recorder is counted in the
    statistics: the output path is set, the file exists and is larger
    than 10240 bytes. *)
Definition counted_size (w : World) (r : Recorder) : option Z :=
  match output_file r with
  | Some o =>
      if String.eqb o "" then None
      else match files w !! o with
           | Some n => if (10240 <? n)%Z then Some n else None
           | None => None
           end
  | None => None
  end.

Definition is_save_config (e : Event) : bool :=
  match e with EvSaveConfig => true | _ => false end.

(* ===================================================================== *)
(** ** MultiRecorder: the remaining view of the registry *)
(* ===================================================================== *)

(** [MultiRecorder.get_all]: the handles whose registered recorder passes
    [check_status]. The list comes in the order of the finite map, which
    is not the insertion order of the dictionary: only what is in the
    list is meant. *)
Definition get_all (ms : MState) : list string :=
  map fst
    (List.filter
       (fun ui => match heap ms !! snd ui with
                  | Some r => Recorder.check_status r
                  | None => false
                  end)
       (map_to_list (recorders ms))).

(* ===================================================================== *)
(** ** Vocabulary of the further resolver properties *)
(* ===================================================================== *)

(** The extractor call returns a truthy info dictionary. *)
Definition extracted (env : NetEnv) (cookies_file user : string) : bool :=
  match extract_info env (TikTokAPI.live_page_url (TikTokAPI.normalize user))
          (TikTokAPI.use_cookies env cookies_file) with
  | Ret info => Py.truthy info
  | Raise _ => false
  end.

(** The network actions of one resolution of a non-empty handle. *)
Definition resolver_requests (env : NetEnv) (cookies_file user : string)
  : list NetEvent :=
  let url := TikTokAPI.live_page_url (TikTokAPI.normalize user) in
  let c := TikTokAPI.use_cookies env cookies_file in
  EvExtractInfo url c
  :: (if extracted env cookies_file user then []
      else [EvHttpGet url (c && cookie_jar_loads env)]).

(** A stream URL that can be handed to the capture: nothing, or a truthy
    value. *)
Definition usable_url (v : json) : Prop := v = JNull \/ Py.truthy v = true.

(** The error text, if any, is non-empty and at most [n] characters. *)
Definition error_within (n : nat) (info : TikTokAPI.LiveInfo) : Prop :=
  match TikTokAPI.error info with
  | Some m => m <> "" /\ (String.length m <= n)%nat
  | None => True
  end.







(** The extractor returns an info dictionary whose formats are null. *)
Module Marked.
Definition info : json :=
  JDict [("title", JStr "Bob live"); ("formats", JNull)].
Definition env : NetEnv :=
  mkNetEnv (fun _ _ => Ret info)
    (fun _ _ => Raise (mkExn RequestException "unreachable"))
    (fun _ _ => None) (fun _ => Raise (mkExn ValueError "no JSON"))
    false false.
End Marked.

(** The preference a tier tries first. *)
Definition first_pref (quality : string) : string :=
  hd "origin" (TikTokAPI.QUALITY_MAP quality).

(** Stream data whose first quality entry has a null [sdk_key]. *)
Definition null_key_data : json :=
  JDict [("pull_data",
          JDict [("options",
                  JDict [("qualities",
                          JList [JDict [("sdk_key", JNull);
                                        ("url", JStr "https://pull.example/bob.flv")];
                                 JDict [("sdk_key", JStr "hd");
                                        ("url", JStr "https://pull.example/bob_hd.flv")]])])])].

(* ===================================================================== *)
(** ** Vocabulary of the file-name property *)
(* ===================================================================== *)

(** Every character of [s] satisfies [p]. *)
Fixpoint all_chars (p : ascii -> bool) (s : string) : bool :=
  match s with
  | EmptyString => true
  | String c r => p c && all_chars p r
  end.

(** A name with none of the characters the recorder strips from file
    names, the path separators among them. *)
Definition clean_name (s : string) : bool :=
  all_chars (fun c => negb (Recorder.forbidden c)) s.

(* ===================================================================== *)
(** ** Properties kept by a computation *)
(* ===================================================================== *)

(** [m] keeps the property [P] of the state, whether it returns or
    raises. *)
Definition preserves {S A} (P : S -> Prop) (m : M S A) : Prop :=
  forall s, P s -> P (fst (m s)).

(* ===================================================================== *)
(** ** Watchlist and History: the two JSON files *)
(* ===================================================================== *)

(** The files of the working directory that hold JSON: for each name
    what [json.load] gives ([Some None]: a file that does not parse, no
    entry: no file); [unreadable] and [unwritable] are the names for
    which opening the file for reading or for writing raises. *)
Record Store := mkStore {
  docs : gmap string (option json);
  unreadable : gset string;
  unwritable : gset string;
}.

Module JsonFile.

(** [os.path.exists(name)] followed by [json.load(open(name))]: [None]
    when there is no file, otherwise the document or the exception. *)
Definition load (st : Store) (name : string) : option (res json) :=
  match docs st !! name with
  | None => None
  | Some content =>
      Some (if bool_decide (name ∈ unreadable st)
            then Raise (mkExn OSError "Permission denied")
            else match content with
                 | Some doc => Ret doc
                 | None => Raise (mkExn ValueError "Expecting value")
                 end)
  end.

(** [json.dump(doc, open(name, 'w'))] under [try: ... except: pass]:
    what is written is what a later [json.load] gives. *)
Definition dump (name : string) (doc : json) (st : Store) : Store :=
  if bool_decide (name ∈ unwritable st) then st
  else mkStore (<[name := Some doc]> (docs st)) (unreadable st)
         (unwritable st).

End JsonFile.

Module PyList.

(** [v.append(x)] *)
Definition append (x : json) (v : json) : res json :=
  match v with
  | JList l => Ret (JList (l ++ [x]))
  | _ => Raise (Py.attribute_error "append")
  end.

(** The first element equal to the string [s] removed, if there is one. *)
Fixpoint remove_first (s : string) (l : list json) : option (list json) :=
  match l with
  | [] => None
  | x :: rest =>
      if Py.is_str s x then Some rest
      else match remove_first s rest with
           | Some rest' => Some (x :: rest')
           | None => None
           end
  end.

(** [v.remove(s)] for a string [s] *)
Definition remove (s : string) (v : json) : res json :=
  match v with
  | JList l =>
      match remove_first s l with
      | Some l' => Ret (JList l')
      | None => Raise (mkExn ValueError "list.remove(x): x not in list")
      end
  | _ => Raise (Py.attribute_error "remove")
  end.

(** [v.copy()] *)
Definition copy (v : json) : res json :=
  match v with
  | JList _ | JDict _ => Ret v
  | _ => Raise (Py.attribute_error "copy")
  end.

(** [v.insert(0, x)] *)
Definition insert0 (x : json) (v : json) : res json :=
  match v with
  | JList l => Ret (JList (x :: l))
  | _ => Raise (Py.attribute_error "insert")
  end.

(** [v[:n]] *)
Definition slice_to (n : nat) (v : json) : res json :=
  match v with
  | JList l => Ret (JList (firstn n l))
  | JStr s => Ret (JStr (PyStr.take n s))
  | _ => Raise (Py.type_error "object is not subscriptable")
  end.

End PyList.

(** A [Watchlist] or [History] object with the files it works on. *)
Record Listed := mkListed {
  content : json;     (* self.users, self.data *)
  store : Store;
}.

Module Watchlist.

Definition file : string := "watchlist.json".

(** [Watchlist.load] *)
Definition load (w : Listed) : Listed :=
  match JsonFile.load (store w) file with
  | None => w
  | Some (Ret doc) =>
      match Py.get doc "users" (JList []) with
      | Ret v => mkListed v (store w)
      | Raise _ => mkListed (JList []) (store w)
      end
  | Some (Raise _) => mkListed (JList []) (store w)
  end.

(** [Watchlist.__init__] *)
Definition init (st : Store) : Listed := load (mkListed (JList []) st).

(** [Watchlist.save] *)
Definition save : M Listed unit :=
  modify (fun w =>
    mkListed (content w)
      (JsonFile.dump file (JDict [("users", content w)]) (store w))).

Definition set_users (v : json) : M Listed unit :=
  modify (fun w => mkListed v (store w)).

(** [u.strip().lstrip("@").lower()] *)
Definition handle (u : string) : string :=
  PyStr.lower (PyStr.lstrip_char "@" (PyStr.strip u)).

(** [Watchlist.add] *)
Definition add (u : string) : M Listed bool :=
  let u := handle u in
  w <- get_st ;;
  present <- (if negb (String.eqb u "")
              then lift (Py.contains u (content w)) else ret true) ;;
  if negb (String.eqb u "") && negb present
  then users <- lift (PyList.append (JStr u) (content w)) ;;
       set_users users ;;;
       save ;;;
       ret true
  else ret false.

(** [Watchlist.remove] *)
Definition remove (u : string) : M Listed bool :=
  let u := handle u in
  w <- get_st ;;
  present <- lift (Py.contains u (content w)) ;;
  if present
  then users <- lift (PyList.remove u (content w)) ;;
       set_users users ;;;
       save ;;;
       ret true
  else ret false.

(** [Watchlist.get_all] *)
Definition get_all (w : Listed) : res json := PyList.copy (content w).

End Watchlist.

(** One call on a watchlist. *)
Inductive watch_op := WAdd (u : string) | WRemove (u : string).

Definition run_watch_op (o : watch_op) : M Listed unit :=
  match o with
  | WAdd u => Watchlist.add u ;;; ret tt
  | WRemove u => Watchlist.remove u ;;; ret tt
  end.

Definition run_watch_ops (ops : list watch_op) : M Listed unit :=
  for_each run_watch_op ops.

(** The handles a sequence of calls asks to add. *)
Fixpoint added (ops : list watch_op) : list json :=
  match ops with
  | [] => []
  | WAdd u :: rest => JStr (Watchlist.handle u) :: added rest
  | WRemove _ :: rest => added rest
  end.

Module History.

Definition file : string := "history.json".

(** [History.load] *)
Definition load (h : Listed) : Listed :=
  match JsonFile.load (store h) file with
  | None => h
  | Some (Ret doc) => mkListed doc (store h)
  | Some (Raise _) => mkListed (JList []) (store h)
  end.

(** [History.__init__] *)
Definition init (st : Store) : Listed := load (mkListed (JList []) st).

(** [History.save] *)
Definition save : M Listed unit :=
  modify (fun h =>
    mkListed (content h) (JsonFile.dump file (content h) (store h))).

(** The dictionary of one recording; [time] is
    [datetime.now().isoformat()]. *)
Definition entry (username title duration path size time : string) : json :=
  JDict [("username", JStr username); ("title", JStr title);
         ("duration", JStr duration); ("path", JStr path);
         ("size", JStr size); ("time", JStr time)].

(** [History.add]; [time] is the clock reading of the call. *)
Definition add (username title duration path size time : string)
  : M Listed unit :=
  h <- get_st ;;
  data <- lift (PyList.insert0
                  (entry username title duration path size time)
                  (content h)) ;;
  data <- lift (PyList.slice_to 100 data) ;;
  modify (fun h => mkListed data (store h)) ;;;
  save.

End History.

(** One finished recording as it reaches [History.add], with the clock
    reading of the call. *)
Record finished := mkFinished {
  f_username : string;
  f_title : string;
  f_duration : string;
  f_path : string;
  f_size : string;
  f_time : string;
}.

Definition entry_of (f : finished) : json :=
  History.entry (f_username f) (f_title f) (f_duration f) (f_path f)
    (f_size f) (f_time f).

Definition record_finished (f : finished) : M Listed unit :=
  History.add (f_username f) (f_title f) (f_duration f) (f_path f)
    (f_size f) (f_time f).

(** [isinstance(v, list)] *)
Definition is_list (v : json) : bool :=
  match v with JList _ => true | _ => false end.

(* ===================================================================== *)
(** ** AppConfig: the settings file *)
(* ===================================================================== *)

Module ConfigFile.

(** [TelegramConfig]. [from_dict] checks no type: an attribute holds
    whatever value the settings file gave for it. *)
Record TelegramConfig := mkTelegram {
  enabled : json;
  bot_token : json;
  chat_id : json;
  notify_on_live : json;
  notify_on_record_start : json;
  notify_on_record_end : json;
}.

(** [SoundConfig] *)
Record SoundConfig := mkSound {
  sound_enabled : json;     (* enabled *)
  on_live : json;
  on_record_start : json;
  on_record_end : json;
}.

(** [AppConfig] with all its fields. *)
Record AppConfig := mkAppConfig {
  output_dir : json;
  cookies_file : json;
  check_interval : json;
  quality : json;
  filename_pattern : json;
  theme : json;
  minimize_to_tray : json;
  telegram : TelegramConfig;
  sound : SoundConfig;
  total_recordings : json;
  total_size_bytes : json;
  total_duration_seconds : json;
}.

(** [TelegramConfig()], [SoundConfig()] and [AppConfig()] *)
Definition default_telegram : TelegramConfig :=
  mkTelegram (JBool false) (JStr "") (JStr "")
    (JBool true) (JBool true) (JBool true).

Definition default_sound : SoundConfig :=
  mkSound (JBool true) (JBool true) (JBool true) (JBool true).

Definition default : AppConfig :=
  mkAppConfig (JStr "./recordings") (JStr "") (JNum 60) (JStr "best")
    (JStr "{username}_{datetime}") (JStr "dark") (JBool false)
    default_telegram default_sound (JNum 0) (JNum 0) (JNum 0).

(** [asdict(self.telegram)] and [asdict(self.sound)] *)
Definition asdict_telegram (t : TelegramConfig) : json :=
  JDict [("enabled", enabled t); ("bot_token", bot_token t);
         ("chat_id", chat_id t); ("notify_on_live", notify_on_live t);
         ("notify_on_record_start", notify_on_record_start t);
         ("notify_on_record_end", notify_on_record_end t)].

Definition asdict_sound (s : SoundConfig) : json :=
  JDict [("enabled", sound_enabled s); ("on_live", on_live s);
         ("on_record_start", on_record_start s);
         ("on_record_end", on_record_end s)].

(** [AppConfig.to_dict] *)
Definition to_dict (c : AppConfig) : json :=
  JDict [("output_dir", output_dir c);
         ("cookies_file", cookies_file c);
         ("check_interval", check_interval c);
         ("quality", quality c);
         ("filename_pattern", filename_pattern c);
         ("theme", theme c);
         ("minimize_to_tray", minimize_to_tray c);
         ("telegram", asdict_telegram (telegram c));
         ("sound", asdict_sound (sound c));
         ("total_recordings", total_recordings c);
         ("total_size_bytes", total_size_bytes c);
         ("total_duration_seconds", total_duration_seconds c)].

(** One keyword argument of the call of [TelegramConfig] on the
    unpacked [value]. *)
Definition telegram_kwarg (kv : string * json) : M TelegramConfig unit :=
  let (k, v) := kv in
  if String.eqb k "enabled" then
    modify (fun t => mkTelegram v (bot_token t) (chat_id t)
      (notify_on_live t) (notify_on_record_start t) (notify_on_record_end t))
  else if String.eqb k "bot_token" then
    modify (fun t => mkTelegram (enabled t) v (chat_id t)
      (notify_on_live t) (notify_on_record_start t) (notify_on_record_end t))
  else if String.eqb k "chat_id" then
    modify (fun t => mkTelegram (enabled t) (bot_token t) v
      (notify_on_live t) (notify_on_record_start t) (notify_on_record_end t))
  else if String.eqb k "notify_on_live" then
    modify (fun t => mkTelegram (enabled t) (bot_token t) (chat_id t)
      v (notify_on_record_start t) (notify_on_record_end t))
  else if String.eqb k "notify_on_record_start" then
    modify (fun t => mkTelegram (enabled t) (bot_token t) (chat_id t)
      (notify_on_live t) v (notify_on_record_end t))
  else if String.eqb k "notify_on_record_end" then
    modify (fun t => mkTelegram (enabled t) (bot_token t) (chat_id t)
      (notify_on_live t) (notify_on_record_start t) v)
  else raise (Py.type_error "got an unexpected keyword argument").

(** What a constructor call returns: the object built, or the exception. *)
Definition built {S} (r : S * res unit) : res S :=
  match r with
  | (s, Ret _) => Ret s
  | (_, Raise e) => Raise e
  end.

(** [TelegramConfig] called on the unpacked [value]. *)
Definition new_telegram (value : json) : res TelegramConfig :=
  match value with
  | JDict d => built (for_each telegram_kwarg d default_telegram)
  | _ => Raise (Py.type_error "argument after ** must be a mapping")
  end.

(** One keyword argument of the call of [SoundConfig] on the unpacked
    [value]. *)
Definition sound_kwarg (kv : string * json) : M SoundConfig unit :=
  let (k, v) := kv in
  if String.eqb k "enabled" then
    modify (fun s => mkSound v (on_live s) (on_record_start s)
      (on_record_end s))
  else if String.eqb k "on_live" then
    modify (fun s => mkSound (sound_enabled s) v (on_record_start s)
      (on_record_end s))
  else if String.eqb k "on_record_start" then
    modify (fun s => mkSound (sound_enabled s) (on_live s) v
      (on_record_end s))
  else if String.eqb k "on_record_end" then
    modify (fun s => mkSound (sound_enabled s) (on_live s)
      (on_record_start s) v)
  else raise (Py.type_error "got an unexpected keyword argument").

(** [SoundConfig] called on the unpacked [value]. *)
Definition new_sound (value : json) : res SoundConfig :=
  match value with
  | JDict d => built (for_each sound_kwarg d default_sound)
  | _ => Raise (Py.type_error "argument after ** must be a mapping")
  end.

Definition set_telegram (t : TelegramConfig) (c : AppConfig) : AppConfig :=
  mkAppConfig (output_dir c) (cookies_file c) (check_interval c)
    (quality c) (filename_pattern c) (theme c) (minimize_to_tray c)
    t (sound c)
    (total_recordings c) (total_size_bytes c) (total_duration_seconds c).

Definition set_sound (s : SoundConfig) (c : AppConfig) : AppConfig :=
  mkAppConfig (output_dir c) (cookies_file c) (check_interval c)
    (quality c) (filename_pattern c) (theme c) (minimize_to_tray c)
    (telegram c) s
    (total_recordings c) (total_size_bytes c) (total_duration_seconds c).

(** [setattr(config, key, value)] for the name of a field other than
    [telegram] and [sound]; [None] for any other name. *)
Definition set_field (key : string) (v : json) (c : AppConfig)
  : option AppConfig :=
  if String.eqb key "output_dir" then
    Some (mkAppConfig v (cookies_file c) (check_interval c)
      (quality c) (filename_pattern c) (theme c) (minimize_to_tray c)
      (telegram c) (sound c)
      (total_recordings c) (total_size_bytes c) (total_duration_seconds c))
  else if String.eqb key "cookies_file" then
    Some (mkAppConfig (output_dir c) v (check_interval c)
      (quality c) (filename_pattern c) (theme c) (minimize_to_tray c)
      (telegram c) (sound c)
      (total_recordings c) (total_size_bytes c) (total_duration_seconds c))
  else if String.eqb key "check_interval" then
    Some (mkAppConfig (output_dir c) (cookies_file c) v
      (quality c) (filename_pattern c) (theme c) (minimize_to_tray c)
      (telegram c) (sound c)
      (total_recordings c) (total_size_bytes c) (total_duration_seconds c))
  else if String.eqb key "quality" then
    Some (mkAppConfig (output_dir c) (cookies_file c) (check_interval c)
      v (filename_pattern c) (theme c) (minimize_to_tray c)
      (telegram c) (sound c)
      (total_recordings c) (total_size_bytes c) (total_duration_seconds c))
  else if String.eqb key "filename_pattern" then
    Some (mkAppConfig (output_dir c) (cookies_file c) (check_interval c)
      (quality c) v (theme c) (minimize_to_tray c)
      (telegram c) (sound c)
      (total_recordings c) (total_size_bytes c) (total_duration_seconds c))
  else if String.eqb key "theme" then
    Some (mkAppConfig (output_dir c) (cookies_file c) (check_interval c)
      (quality c) (filename_pattern c) v (minimize_to_tray c)
      (telegram c) (sound c)
      (total_recordings c) (total_size_bytes c) (total_duration_seconds c))
  else if String.eqb key "minimize_to_tray" then
    Some (mkAppConfig (output_dir c) (cookies_file c) (check_interval c)
      (quality c) (filename_pattern c) (theme c) v
      (telegram c) (sound c)
      (total_recordings c) (total_size_bytes c) (total_duration_seconds c))
  else if String.eqb key "total_recordings" then
    Some (mkAppConfig (output_dir c) (cookies_file c) (check_interval c)
      (quality c) (filename_pattern c) (theme c) (minimize_to_tray c)
      (telegram c) (sound c)
      v (total_size_bytes c) (total_duration_seconds c))
  else if String.eqb key "total_size_bytes" then
    Some (mkAppConfig (output_dir c) (cookies_file c) (check_interval c)
      (quality c) (filename_pattern c) (theme c) (minimize_to_tray c)
      (telegram c) (sound c)
      (total_recordings c) v (total_duration_seconds c))
  else if String.eqb key "total_duration_seconds" then
    Some (mkAppConfig (output_dir c) (cookies_file c) (check_interval c)
      (quality c) (filename_pattern c) (theme c) (minimize_to_tray c)
      (telegram c) (sound c)
      (total_recordings c) (total_size_bytes c) v)
  else None.

Section FromDict.

(** A key of the settings file that names no field can still name an
    attribute of the object: a method of the class or a special
    attribute. [class_attr] tells which names do, and [setattr_class]
    what [setattr] does to the fields then (it may raise); both are left
    open. *)
Variable class_attr : string -> bool.
Variable setattr_class : string -> json -> M AppConfig unit.

(** The body of the loop of [from_dict]. *)
Definition from_dict_key (kv : string * json) : M AppConfig unit :=
  let (key, value) := kv in
  if String.eqb key "telegram" then
    t <- lift (new_telegram value) ;;
    modify (set_telegram t)
  else if String.eqb key "sound" then
    s <- lift (new_sound value) ;;
    modify (set_sound s)
  else
    c <- get_st ;;
    match set_field key value c with
    | Some c' => modify (fun _ => c')
    | None => when (class_attr key) (setattr_class key value)
    end.

(** [AppConfig.from_dict] *)
Definition from_dict (data : json) : res AppConfig :=
  built ((items <- lift (Py.items data) ;;
          for_each from_dict_key items) default).

(** [AppConfig.load] *)
Definition load (st : Store) (filepath : string) : AppConfig :=
  match JsonFile.load st filepath with
  | Some (Ret doc) =>
      match from_dict doc with
      | Ret c => c
      | Raise _ => default
      end
  | Some (Raise _) | None => default
  end.

End FromDict.

(** [AppConfig.save] *)
Definition save (c : AppConfig) (filepath : string) (st : Store) : Store :=
  JsonFile.dump filepath (to_dict c) st.

(** The names [from_dict] looks at: the fields, and the other attributes
    of the object. *)
Definition is_field (key : string) : bool :=
  existsb (String.eqb key)
    ["output_dir"; "cookies_file"; "check_interval"; "quality";
     "filename_pattern"; "theme"; "minimize_to_tray"; "telegram"; "sound";
     "total_recordings"; "total_size_bytes"; "total_duration_seconds"].

End ConfigFile.

(** The keyword arguments [TelegramConfig] and [SoundConfig] accept. *)
Definition telegram_field (k : string) : bool :=
  existsb (String.eqb k)
    ["enabled"; "bot_token"; "chat_id"; "notify_on_live";
     "notify_on_record_start"; "notify_on_record_end"].

Definition sound_field (k : string) : bool :=
  existsb (String.eqb k)
    ["enabled"; "on_live"; "on_record_start"; "on_record_end"].

(** A section of the settings file that its constructor accepts: a
    dictionary all of whose keys are fields. *)
Definition section_ok (field : string -> bool) (v : json) : bool :=
  match v with
  | JDict d => forallb (fun kv => field (fst kv)) d
  | _ => false
  end.

(** The entries of a settings document that name an attribute. *)
Definition known_keys (class_attr : string -> bool)
    (d : list (string * json)) : list (string * json) :=
  List.filter
    (fun kv => ConfigFile.is_field (fst kv) || class_attr (fst kv)) d.

(* ===================================================================== *)
(** ** Recorder: the duration shown *)
(* ===================================================================== *)

(** The format [02d] of an f-string on an integer: at least two
    characters, the sign among them. *)
Definition fmt_02d (n : Z) : string :=
  if (n <? 0)%Z then String "-" (PyStr.zfill 1 (Z.to_nat (- n)))
  else PyStr.zfill 2 (Z.to_nat n).

(** [Recorder.get_duration]: [int] cuts the time elapsed towards zero
    and [divmod] rounds down. *)
Definition get_duration (env : Env) (r : Recorder) : string :=
  match first_write_time r with
  | Some t0 =>
      if negb (float_truthy t0) then "00:00:00"
      else
        let elapsed := elapsed_seconds (time_s (clock env)) t0 in
        let h := (elapsed / 3600)%Z in
        let r := (elapsed mod 3600)%Z in
        let m := (r / 60)%Z in
        let s := (r mod 60)%Z in
        fmt_02d h ++ ":" ++ fmt_02d m ++ ":" ++ fmt_02d s
  | None => "00:00:00"
  end.

(** Reading a duration back: a decimal number up to the next colon or
    to the end, with what follows the colon. *)
Fixpoint read_number (s : string) (acc : nat) : option (nat * option string) :=
  match s with
  | EmptyString => Some (acc, None)
  | String c r =>
      if Ascii.eqb c ":" then Some (acc, Some r)
      else
        let d := nat_of_ascii c in
        if ((48 <=? d) && (d <=? 57))%nat
        then read_number r (10 * acc + (d - 48))
        else None
  end.

(** The seconds a text of hours, minutes and seconds stands for. *)
Definition read_hms (s : string) : option nat :=
  match read_number s 0 with
  | Some (h, Some r1) =>
      match read_number r1 0 with
      | Some (m, Some r2) =>
          match read_number r2 0 with
          | Some (sec, None) => Some (h * 3600 + m * 60 + sec)%nat
          | _ => None
          end
      | _ => None
      end
  | _ => None
  end.

(* ===================================================================== *)
(** * Properties *)
(* ===================================================================== *)

(* ===================================================================== *)
(** ** The conversion ladder *)
(* ===================================================================== *)

Section ConversionProofs.
Import Recorder.

(** Appending to the same prefix is injective. *)
Lemma append_inj_l (a x y : string) : a ++ x = a ++ y -> x = y.
Proof. induction a as [|c a IH]; simpl; intros H; [done|]. injection H. auto. Qed.

(** The conversion target is never the input itself. *)
Lemma mp4_output_for_ne out inp : mp4_output_for out inp <> inp.
Proof.
  unfold mp4_output_for.
  destruct (String.eqb inp _) eqn:E.
  - apply String.eqb_eq in E. rewrite E. intros H.
    apply append_inj_l in H. discriminate.
  - apply String.eqb_neq in E. congruence.
Qed.

(** Framing is reflexive, transitive, and monotone in the set of paths. *)
Lemma frame_refl P w : frame P w w.
Proof. by repeat split. Qed.

Lemma frame_trans P w1 w2 w3 : frame P w1 w2 -> frame P w2 w3 -> frame P w1 w3.
Proof.
  intros (a1 & a2 & a3 & a4) (b1 & b2 & b3 & b4).
  repeat split; try congruence. intros p Hp. rewrite b4, a4; auto.
Qed.

Lemma frame_weaken (P Q : string -> Prop) w w' :
  (forall p, P p -> Q p) -> frame P w w' -> frame Q w w'.
Proof.
  intros HPQ (a1 & a2 & a3 & a4). repeat split; auto.
Qed.

(** An update of the files that changes one path only frames that path. *)
Lemma frame_set_files k f w :
  (forall fs p, p <> k -> f fs !! p = fs !! p) ->
  frame (eq k) w (set_files f w).
Proof.
  intros Hf. repeat split; simpl. intros p Hp. apply Hf. congruence.
Qed.

(** A guarded removal returns and touches at most the path it is given. *)
Lemma remove_quietly_spec p s :
  exists w', remove_quietly p s = (mkRState w' (config s) (rec s) (log s), Ret tt)
             /\ frame (eq p) (world s) w'.
Proof.
  unfold remove_quietly, try_pass, try_except, in_world, Os.remove, ret.
  destruct s as [w c r l]; simpl.
  case_bool_decide.
  - eexists; split; [reflexivity|apply frame_refl].
  - destruct (files w !! p) eqn:E.
    + eexists; split; [reflexivity|].
      apply frame_set_files. intros fs q Hq. by apply lookup_delete_ne.
    + eexists; split; [reflexivity|apply frame_refl].
Qed.

(** A conversion command touches at most its output path. *)
Lemma frame_put_output mp4 o w :
  frame (eq mp4) w (set_files (put_output mp4 o) w).
Proof.
  apply frame_set_files. intros fs p Hp. destruct o; simpl.
  - by apply lookup_insert_ne.
  - by apply lookup_delete_ne.
Qed.

(** One rung: the command runs, and its verdict is that of [step_accepts]
    unless the process does not return. *)
Lemma attempt_spec env st inp mp4 S s :
  attempt env st inp mp4 S s =
  (after_run env st inp mp4 s,
   match ffmpeg_run env st with
   | Exited _ _ => Ret (step_accepts size_ok st S (ffmpeg_run env st))
   | RunRaised e _ => Raise e
   end).
Proof.
  unfold attempt, run_convert, after_run, accepted, step_accepts.
  destruct s as [w c r l].
  destruct (ffmpeg_run env st) as [rc o|e o]; simpl; [|reflexivity].
  unfold bind, emit, modify, upd_world, ret, get_st, lift; simpl.
  destruct (rc =? 0)%Z; simpl; [|by destruct o].
  unfold Os.path_exists, Os.getsize; simpl.
  destruct o as [n|]; simpl.
  - rewrite lookup_insert_eq. rewrite bool_decide_eq_true_2 by eauto. done.
  - rewrite lookup_delete_eq. rewrite bool_decide_eq_false_2; [done|].
    intros [? ?]; discriminate.
Qed.

(** Cleaning up a failed attempt touches at most the output path. *)
Lemma discard_output_spec p s :
  exists w', discard_output p s = (mkRState w' (config s) (rec s) (log s), Ret tt)
             /\ frame (eq p) (world s) w'.
Proof.
  unfold discard_output, bind, get_st, when.
  destruct (Os.path_exists (world s) p).
  - apply remove_quietly_spec.
  - exists (world s). destruct s; split; [reflexivity|apply frame_refl].
Qed.

(** [_cleanup_flv] touches at most the input path. *)
Lemma cleanup_flv_spec orig inp s :
  orig = Some inp \/ orig = None ->
  exists w', _cleanup_flv orig inp s
             = (mkRState w' (config s) (rec s) (log s), Ret tt)
             /\ frame (eq inp) (world s) w'.
Proof.
  intros Ho. unfold _cleanup_flv, bind, get_st, when.
  assert (H1 : exists w1,
    (if Os.truthy_exists (world s) orig
     then match orig with Some p => remove_quietly p | None => ret tt end
     else ret tt) s = (mkRState w1 (config s) (rec s) (log s), Ret tt)
    /\ frame (eq inp) (world s) w1).
  { destruct (Os.truthy_exists (world s) orig).
    - destruct Ho as [-> | ->].
      + apply remove_quietly_spec.
      + exists (world s). destruct s; split; [reflexivity|apply frame_refl].
    - exists (world s). destruct s; split; [reflexivity|apply frame_refl]. }
  destruct H1 as (w1 & -> & F1). simpl.
  match goal with |- context [if ?c then _ else _] => destruct c end.
  - destruct (PyStr.endswith _ _).
    + destruct (remove_quietly_spec inp
                  (mkRState w1 (config s) (rec s) (log s))) as (w2 & -> & F2).
      simpl in *. exists w2. split; [reflexivity|]. eapply frame_trans; eauto.
    + exists w1. split; [reflexivity|done].
  - exists w1. split; [reflexivity|done].
Qed.

(** Accepting a step touches at most the input path and sets the output
    path. *)
Lemma accept_output_spec orig inp mp4 s :
  orig = Some inp \/ orig = None ->
  exists w', accept_output orig inp mp4 s
             = (mkRState w' (config s) (set_output_file (Some mp4) (rec s))
                  (log s), Ret tt)
             /\ frame (eq inp) (world s) w'.
Proof.
  intros Ho. unfold accept_output, bind.
  destruct (cleanup_flv_spec orig inp s Ho) as (w' & -> & F).
  exists w'. split; [reflexivity|done].
Qed.

(** Right after a command has run, only its output path may differ, and
    it holds what the command left. *)
Lemma after_run_frame env st inp mp4 s :
  frame (eq mp4) (world s) (world (after_run env st inp mp4 s)).
Proof. apply frame_put_output. Qed.

Ltac close_state :=
  repeat match goal with x := _ : RState |- _ => subst x end;
  unfold after_run; simpl; rewrite <- ?app_assoc; reflexivity.

Lemma after_run_lookup env st inp mp4 s :
  files (world (after_run env st inp mp4 s)) !! mp4
  = out_of (ffmpeg_run env st).
Proof.
  unfold after_run; simpl. destruct (out_of _); simpl.
  - apply lookup_insert_eq.
  - apply lookup_delete_eq.
Qed.

(** Deleting the input does not touch the accepted output. *)
Lemma accepted_output_kept env st inp mp4 s w' :
  mp4 <> inp ->
  frame (eq inp) (world (after_run env st inp mp4 s)) w' ->
  files w' !! mp4 = out_of (ffmpeg_run env st).
Proof.
  intros Hne (_ & _ & _ & F). rewrite F by congruence.
  apply after_run_lookup.
Qed.

(** The [try] block of the conversion follows [ladder_plan]: the commands
    logged are the steps tried, the recorder and the result are those of
    the outcome, and only the output path, and the input once a step is
    accepted, may change. *)
Lemma ladder_spec env inp S s o :
  output_file (rec s) = Some o ->
  let mp4 := mp4_output_for o inp in
  let tried := fst (ladder_plan size_ok (ffmpeg_run env) S all_steps) in
  let oc := snd (ladder_plan size_ok (ffmpeg_run env) S all_steps) in
  exists w',
    ladder env inp S s
    = (mkRState w' (config s) (rec_after oc mp4 inp (rec s))
         (log s ++ map (fun st => EvConvert st inp mp4) tried),
       result_after oc)
    /\ frame (touched oc mp4 inp) (world s) w'
    /\ (forall st, oc = Accepted st ->
                   files w' !! mp4 = out_of (ffmpeg_run env st)).
Proof.
  intros Ho mp4 tried oc.
  assert (Hne : mp4 <> inp) by apply mp4_output_for_ne.
  unfold ladder. unfold bind at 1. unfold get_st. rewrite Ho.
  unfold bind at 1. unfold ret at 1. fold mp4.
  set (orig := if PyStr.endswith ".flv" (PyStr.lower inp) then Some inp else None).
  assert (Horig : orig = Some inp \/ orig = None).
  { unfold orig. destruct (PyStr.endswith _ _); auto. }
  clearbody orig.
  subst tried oc. unfold all_steps. simpl ladder_plan.
  (* step 1 *)
  unfold bind at 1. rewrite attempt_spec.
  pose proof (after_run_frame env Remux inp mp4 s) as F1.
  set (s1 := after_run env Remux inp mp4 s) in *.
  destruct (ffmpeg_run env Remux) as [rc1 o1|e1 o1] eqn:R1.
  2:{ exists (world s1). split; [reflexivity|]. split; [|intros ? [=]].
      eapply frame_weaken; [|exact F1]. intros p <-. by left. }
  destruct (step_accepts size_ok Remux S (Exited rc1 o1)) eqn:A1.
  { destruct (accept_output_spec orig inp mp4 s1 Horig) as (w' & -> & F).
    exists w'. split; [reflexivity|]. split.
    - eapply frame_trans.
      + eapply frame_weaken; [|exact F1]. intros p <-. by left.
      + eapply frame_weaken; [|exact F]. intros p <-. right. eauto.
    - intros st [= <-]. eapply accepted_output_kept; eauto. }
  unfold bind at 1.
  destruct (discard_output_spec mp4 s1) as (w1 & -> & D1).
  set (s1' := mkRState w1 (config s1) (rec s1) (log s1)).
  assert (F1' : frame (eq mp4) (world s) (world s1')).
  { eapply frame_trans; eauto. }
  (* step 2 *)
  unfold bind at 1. rewrite attempt_spec.
  pose proof (after_run_frame env AudioAac inp mp4 s1') as F2.
  set (s2 := after_run env AudioAac inp mp4 s1') in *.
  destruct (ffmpeg_run env AudioAac) as [rc2 o2|e2 o2] eqn:R2.
  2:{ exists (world s2). split; [close_state|]. split; [|intros ? [=]].
      eapply frame_weaken; [|eapply frame_trans; [exact F1'|exact F2]].
      intros p <-. by left. }
  destruct (step_accepts size_ok AudioAac S (Exited rc2 o2)) eqn:A2.
  { destruct (accept_output_spec orig inp mp4 s2 Horig) as (w' & -> & F).
    exists w'. split; [close_state|]. split.
    - eapply frame_trans.
      + eapply frame_weaken; [|eapply frame_trans; [exact F1'|exact F2]].
        intros p <-. by left.
      + eapply frame_weaken; [|exact F]. intros p <-. right. eauto.
    - intros st [= <-]. eapply accepted_output_kept; eauto. }
  unfold bind at 1.
  destruct (discard_output_spec mp4 s2) as (w2 & -> & D2).
  set (s2' := mkRState w2 (config s2) (rec s2) (log s2)).
  assert (F2' : frame (eq mp4) (world s) (world s2')).
  { eapply frame_trans; [exact F1'|]. eapply frame_trans; eauto. }
  (* step 3 *)
  unfold bind at 1. rewrite attempt_spec.
  pose proof (after_run_frame env FullEncode inp mp4 s2') as F3.
  set (s3 := after_run env FullEncode inp mp4 s2') in *.
  destruct (ffmpeg_run env FullEncode) as [rc3 o3|e3 o3] eqn:R3.
  2:{ exists (world s3). split; [close_state|]. split; [|intros ? [=]].
      eapply frame_weaken; [|eapply frame_trans; [exact F2'|exact F3]].
      intros p <-. by left. }
  destruct (step_accepts size_ok FullEncode S (Exited rc3 o3)) eqn:A3.
  { destruct (accept_output_spec orig inp mp4 s3 Horig) as (w' & -> & F).
    exists w'. split; [close_state|]. split.
    - eapply frame_trans.
      + eapply frame_weaken; [|eapply frame_trans; [exact F2'|exact F3]].
        intros p <-. by left.
      + eapply frame_weaken; [|exact F]. intros p <-. right. eauto.
    - intros st [= <-]. eapply accepted_output_kept; eauto. }
  exists (world s3). split; [close_state|]. split; [|intros ? [=]].
  eapply frame_weaken; [|eapply frame_trans; [exact F2'|exact F3]].
  intros p <-. by left.
Qed.

(** Adopting the file found changes the recorder only. *)
Lemma adopt_actual_file_spec s :
  adopt_actual_file s
  = (mkRState (world s) (config s) (adopted (world s) (rec s)) (log s), Ret tt).
Proof.
  unfold adopt_actual_file, adopted, bind, get_st, when, upd_rec, modify, ret.
  destruct s as [w c r l]; simpl.
  destruct (PyStr.truthy _); reflexivity.
Qed.

(** Facts on [truthy_exists] and on the input the conversion picks. *)
Lemma truthy_exists_truthy w o : Os.truthy_exists w o = true -> PyStr.truthy o = true.
Proof. destruct o; simpl; [|done]. intros H. apply andb_true_iff in H. tauto. Qed.

Lemma truthy_exists_lookup w p :
  Os.truthy_exists w (Some p) = true -> is_Some (files w !! p) /\ p <> "".
Proof.
  simpl. intros H. apply andb_true_iff in H as [H1 H2].
  unfold Os.path_exists in H2. apply bool_decide_eq_true in H2.
  split; [done|]. intros ->. discriminate.
Qed.

Lemma find_input_exists w r inp :
  find_input w r = Some inp -> is_Some (files w !! inp) /\ inp <> "".
Proof.
  unfold find_input. intros H.
  match type of H with (if negb (Os.truthy_exists w ?x) then _ else _) = _ =>
    destruct (Os.truthy_exists w x) eqn:E; simpl in H; [|discriminate];
    rewrite H in E end.
  by apply truthy_exists_lookup.
Qed.

(** After adoption the input of the conversion is the output path. *)
Lemma find_input_adopted w r inp :
  find_input w (adopted w r) = Some inp ->
  output_file (adopted w r) = Some inp.
Proof.
  unfold adopted, _find_actual_file.
  destruct (Os.truthy_exists w (raw_recording_file r)) eqn:E1.
  - rewrite (truthy_exists_truthy _ _ E1).
    unfold find_input; simpl. rewrite E1; simpl. rewrite E1; simpl.
    rewrite E1. simpl. done.
  - destruct (Os.truthy_exists w (actual_recording_file r)) eqn:E2.
    + rewrite (truthy_exists_truthy _ _ E2).
      unfold find_input; simpl. rewrite E1; simpl. rewrite E2; simpl.
      rewrite E2. simpl. done.
    + set (r' := if PyStr.truthy _ then _ else r).
      assert (Hraw : raw_recording_file r' = raw_recording_file r).
      { unfold r'. destruct (PyStr.truthy _); reflexivity. }
      assert (Hact : actual_recording_file r' = actual_recording_file r).
      { unfold r'. destruct (PyStr.truthy _); reflexivity. }
      clearbody r'. unfold find_input. rewrite Hraw, Hact, E1; simpl.
      rewrite E2; simpl.
      destruct (Os.truthy_exists w (output_file r')); simpl; [done|discriminate].
Qed.

(** The statistics update and the finalization return, leave the files
    and the recorder alone, and log only finalization events. *)
Lemma update_stats_spec env s :
  exists c' l', update_stats env s
                = (mkRState (world s) c' (rec s) (log s ++ l'), Ret tt)
                /\ Forall is_final_event l'.
Proof.
  unfold update_stats, bind, get_st.
  destruct (Os.truthy_exists (world s) (output_file (rec s))) eqn:E; simpl.
  2:{ exists (config s), []. rewrite app_nil_r.
      destruct s; split; [reflexivity|constructor]. }
  destruct (output_file (rec s)) as [o|] eqn:Eo; [|discriminate].
  apply truthy_exists_lookup in E as [[n Hn] _].
  unfold lift, Os.getsize. rewrite Hn.
  destruct (10240 <? n)%Z; simpl.
  - eexists _, [EvSaveConfig]. split; [reflexivity|]. repeat constructor.
  - exists (config s), []. rewrite app_nil_r.
    destruct s; split; [reflexivity|constructor].
Qed.

Lemma finalize_recording_spec env s :
  exists c' l', _finalize_recording env s
                = (mkRState (world s) c' (rec s) (log s ++ l'), Ret tt)
                /\ Forall is_final_event l'.
Proof.
  unfold _finalize_recording. unfold bind at 1.
  destruct (update_stats_spec env s) as (c' & l1 & -> & Hl1).
  unfold bind, get_st, emit, modify, when, ret; simpl.
  destruct (on_complete (rec s)); simpl.
  - eexists c', _. split.
    + rewrite <- !app_assoc. reflexivity.
    + apply Forall_app. split; [done|]. repeat constructor.
  - eexists c', _. split.
    + rewrite <- !app_assoc. reflexivity.
    + apply Forall_app. split; [done|]. repeat constructor.
Qed.

(** [_convert_to_mp4] on an input below the threshold. *)
Lemma convert_small env s inp S :
  find_input (world s) (rec s) = Some inp ->
  files (world s) !! inp = Some S ->
  (S < 51200)%Z ->
  _convert_to_mp4 env s = (s, Ret tt).
Proof.
  intros Hin HS Hlt. unfold _convert_to_mp4, bind, get_st.
  rewrite Hin. unfold Os.getsize. rewrite HS.
  apply Z.ltb_lt in Hlt. rewrite Hlt. reflexivity.
Qed.

(** [_convert_to_mp4] without the conversion tool. *)
Lemma convert_no_tool env s inp S :
  find_input (world s) (rec s) = Some inp ->
  files (world s) !! inp = Some S ->
  (51200 <= S)%Z ->
  has_ffmpeg (world s) = false ->
  _convert_to_mp4 env s
  = (mkRState (world s) (config s) (set_output_file (Some inp) (rec s))
       (log s ++ [EvProbeFfmpeg]), Ret tt).
Proof.
  intros Hin HS Hge Hff. unfold _convert_to_mp4. unfold bind at 1.
  unfold get_st at 1. rewrite Hin. unfold Os.getsize. rewrite HS.
  apply Z.ltb_ge in Hge. rewrite Hge.
  unfold _find_ffmpeg, bind, emit, modify, get_st, ret, upd_rec; simpl.
  rewrite Hff. reflexivity.
Qed.

(** [_convert_to_mp4] with the tool: the probe, then the ladder, with the
    handler folding an aborted ladder into keeping the input. *)
Lemma convert_ladder env s inp S o :
  find_input (world s) (rec s) = Some inp ->
  files (world s) !! inp = Some S ->
  (51200 <= S)%Z ->
  has_ffmpeg (world s) = true ->
  output_file (rec s) = Some o ->
  let mp4 := mp4_output_for o inp in
  let tried := fst (ladder_plan size_ok (ffmpeg_run env) S all_steps) in
  let oc := snd (ladder_plan size_ok (ffmpeg_run env) S all_steps) in
  exists w',
    _convert_to_mp4 env s
    = (mkRState w' (config s)
         (set_output_file (Some (final_path oc mp4 inp)) (rec s))
         (log s ++ EvProbeFfmpeg :: map (fun st => EvConvert st inp mp4) tried),
       Ret tt)
    /\ frame (touched oc mp4 inp) (world s) w'
    /\ (forall st, oc = Accepted st ->
                   files w' !! mp4 = out_of (ffmpeg_run env st)).
Proof.
  intros Hin HS Hge Hff Ho mp4 tried oc.
  pose proof (find_input_exists _ _ _ Hin) as [_ Hne].
  unfold _convert_to_mp4. unfold bind at 1.
  unfold get_st at 1. rewrite Hin. unfold Os.getsize. rewrite HS.
  apply Z.ltb_ge in Hge. rewrite Hge.
  unfold _find_ffmpeg, bind at 1 2 3, emit, modify, get_st at 1, ret at 1.
  simpl. rewrite Hff.
  set (s0 := mkRState (world s) (config s) (rec s) (log s ++ [EvProbeFfmpeg])).
  destruct (ladder_spec env inp S s0 o Ho) as (w' & E & F & A).
  fold mp4 tried oc in E, F, A.
  unfold try_except. rewrite E. simpl in *.
  exists w'. split; [|split; assumption].
  destruct oc eqn:Eoc; simpl.
  - rewrite <- app_assoc. reflexivity.
  - rewrite <- app_assoc. destruct (rec s); reflexivity.
  - unfold bind, get_st, when; simpl.
    assert (Hk : files w' !! inp = Some S).
    { destruct F as (_ & _ & _ & F). rewrite F; [done|].
      intros [Hp | [[st Hst] _]]; [|discriminate].
      symmetry in Hp. revert Hp. apply mp4_output_for_ne. }
    unfold Os.path_exists. rewrite Hk.
    rewrite bool_decide_eq_true_2 by eauto.
    destruct (String.eqb_spec inp ""); [done|]. simpl.
    rewrite <- app_assoc. reflexivity.
Qed.

(** Acceptance by the code is [step_passes]. *)
Lemma step_accepts_passes env S st :
  step_accepts size_ok st S (ffmpeg_run env st) = true <-> step_passes env S st.
Proof.
  unfold step_accepts, step_passes. split.
  - destruct (ffmpeg_run env st) as [rc [n|]|]; try discriminate.
    intros H. apply andb_true_iff in H as [H1 H2].
    apply Z.eqb_eq in H1. subst. eauto.
  - intros (n & -> & H). by rewrite H.
Qed.

(** A plan ends in [Accepted st] only if [st] was accepted. *)
Lemma ladder_plan_accepted ok run S steps st :
  snd (ladder_plan ok run S steps) = Accepted st ->
  step_accepts ok st S (run st) = true.
Proof.
  induction steps as [|a rest IH]; simpl; [discriminate|].
  destruct (step_accepts ok a S (run a)) eqn:A.
  - destruct (run a) eqn:R; simpl; [|discriminate].
    intros [= <-]. by rewrite R.
  - destruct (run a) eqn:R; simpl; [|discriminate].
    destruct (ladder_plan ok run S rest). simpl in *. done.
Qed.

(** Finalization events are neither tool runs nor conversion commands. *)
Lemma filter_final_tool l :
  Forall is_final_event l -> List.filter is_tool_run l = [].
Proof.
  induction 1 as [|e l He _ IH]; [done|].
  simpl. rewrite IH. by destruct e.
Qed.

Lemma filter_final_convert l :
  Forall is_final_event l -> List.filter is_convert l = [].
Proof.
  induction 1 as [|e l He _ IH]; [done|].
  simpl. rewrite IH. by destruct e.
Qed.

Lemma filter_convert_map inp mp4 steps :
  List.filter is_convert (map (fun st => EvConvert st inp mp4) steps)
  = map (fun st => EvConvert st inp mp4) steps.
Proof. induction steps; simpl; congruence. Qed.

(** The three ways a completion run can go. *)
Lemma complete_after_stop_cases env s inp S :
  let s1 := fst (adopt_actual_file s) in
  find_input (world s1) (rec s1) = Some inp ->
  files (world s) !! inp = Some S ->
  let s' := fst (_complete_after_stop env s) in
  let mp4 := mp4_output_for inp inp in
  let tried := fst (ladder_plan size_ok (ffmpeg_run env) S all_steps) in
  let oc := snd (ladder_plan size_ok (ffmpeg_run env) S all_steps) in
  snd (_complete_after_stop env s) = Ret tt /\
  (((S < 51200)%Z
    /\ world s' = world s /\ output_file (rec s') = Some inp
    /\ List.filter is_tool_run (log s') = List.filter is_tool_run (log s))
   \/ ((51200 <= S)%Z /\ has_ffmpeg (world s) = false
       /\ world s' = world s /\ output_file (rec s') = Some inp
       /\ List.filter is_convert (log s') = List.filter is_convert (log s))
   \/ ((51200 <= S)%Z /\ has_ffmpeg (world s) = true
       /\ frame (touched oc mp4 inp) (world s) (world s')
       /\ output_file (rec s') = Some (final_path oc mp4 inp)
       /\ List.filter is_convert (log s')
          = (List.filter is_convert (log s)
             ++ map (fun st => EvConvert st inp mp4) tried)%list
       /\ (forall st, oc = Accepted st ->
                      files (world s') !! mp4 = out_of (ffmpeg_run env st)))).
Proof.
  intros s1 Hin HS s' mp4 tried oc. subst s' s1.
  rewrite adopt_actual_file_spec in Hin. simpl in Hin.
  pose proof (find_input_adopted _ _ _ Hin) as Hout.
  set (s1 := mkRState (world s) (config s) (adopted (world s) (rec s)) (log s))
    in *.
  assert (E0 : _complete_after_stop env s
               = match _convert_to_mp4 env s1 with
                 | (s2, Ret _) => _finalize_recording env s2
                 | (s2, Raise e) => (s2, Raise e)
                 end).
  { unfold _complete_after_stop, bind. by rewrite adopt_actual_file_spec. }
  destruct (Z.lt_ge_cases S 51200) as [Hlt|Hge].
  { rewrite (convert_small env s1 inp S Hin HS Hlt) in E0.
    destruct (finalize_recording_spec env s1) as (c' & l' & E1 & Hl').
    rewrite E1 in E0. rewrite E0. simpl.
    split; [done|]. left. repeat split; try done.
    rewrite List.filter_app, (filter_final_tool _ Hl'). by rewrite app_nil_r. }
  destruct (has_ffmpeg (world s)) eqn:Hff.
  - destruct (convert_ladder env s1 inp S inp Hin HS Hge Hff Hout)
      as (w' & E & F & A).
    rewrite E in E0.
    match type of E0 with context [_finalize_recording env ?st] =>
      destruct (finalize_recording_spec env st) as (c' & l' & E1 & Hl') end.
    rewrite E1 in E0. rewrite E0. simpl.
    split; [done|]. right. right. repeat split; try done; try apply F.
    rewrite !List.filter_app, (filter_final_convert _ Hl'). simpl.
    rewrite filter_convert_map. by rewrite app_nil_r.
  - rewrite (convert_no_tool env s1 inp S Hin HS Hge Hff) in E0.
    match type of E0 with context [_finalize_recording env ?st] =>
      destruct (finalize_recording_spec env st) as (c' & l' & E1 & Hl') end.
    rewrite E1 in E0. rewrite E0. simpl.
    split; [done|]. right. left. repeat split; try done.
    rewrite !List.filter_app, (filter_final_convert _ Hl'). simpl.
    by rewrite !app_nil_r.
Qed.

(** [_complete] on a recording session is [_complete_after_stop] once
    the recording flag is cleared. *)
Lemma complete_eq env s :
  is_recording (rec s) = true ->
  _complete env s
  = _complete_after_stop env
      (mkRState (world s) (config s) (set_is_recording false (rec s)) (log s)).
Proof.
  intros H. unfold _complete. unfold bind at 1. unfold get_st at 1.
  rewrite H. simpl. reflexivity.
Qed.

(** Claim C1. In every completion run ([_complete_after_stop]; [_complete]
    is the same run behind its guard, by [complete_eq]) whose conversion
    input is the raw file [inp] of [S] bytes: the raw file is gone
    afterwards only if the process of some ladder step exited zero and its
    output met the size test of that step; if no step does so, or the
    conversion tool is missing, the raw file is still there with its size
    and is the recorder's output path; and in every case the output path
    names a file that exists, so the caller never ends without an output
    file. *)
Theorem raw_file_kept_unless_step_accepted env s inp S :
  let s1 := fst (adopt_actual_file s) in
  find_input (world s1) (rec s1) = Some inp ->
  files (world s) !! inp = Some S ->
  let s' := fst (_complete_after_stop env s) in
  (files (world s') !! inp = None -> exists st, step_passes env S st)
  /\ ((forall st, ~ step_passes env S st) \/ has_ffmpeg (world s) = false ->
      files (world s') !! inp = Some S /\ output_file (rec s') = Some inp)
  /\ (exists p, output_file (rec s') = Some p
                /\ is_Some (files (world s') !! p)).
Proof.
  intros s1 Hin HS s'.
  destruct (complete_after_stop_cases env s inp S Hin HS) as [_ H].
  fold s' in H.
  destruct H as [(Hlt & Hw & Ho & _) | [(Hge & Hff & Hw & Ho & _)
                | (Hge & Hff & F & Ho & _ & A)]].
  - rewrite Hw, HS. split; [done|]. split; [done|]. exists inp. eauto.
  - rewrite Hw, HS. split; [done|]. split; [done|]. exists inp. eauto.
  - set (mp4 := mp4_output_for inp inp) in *.
    set (oc := snd (ladder_plan size_ok (ffmpeg_run env) S all_steps)) in *.
    assert (Hne : mp4 <> inp) by apply mp4_output_for_ne.
    assert (Hkeep : (forall st, oc <> Accepted st) ->
                    files (world s') !! inp = Some S).
    { intros Hna. destruct F as (_ & _ & _ & F). rewrite F; [done|].
      intros [Hp | [[st Hst] _]]; [by symmetry in Hp|by apply (Hna st)]. }
    assert (Hacc : forall st, oc = Accepted st -> step_passes env S st).
    { intros st Hst. apply step_accepts_passes.
      by apply (ladder_plan_accepted _ _ _ all_steps). }
    split; [|split].
    + intros Hgone. destruct oc as [st| |e] eqn:Eoc.
      * exists st. by apply Hacc.
      * rewrite Hkeep in Hgone; [done|]. by intros st.
      * rewrite Hkeep in Hgone; [done|]. by intros st.
    + intros [Hnone | Hno]; [|congruence].
      assert (Hna : forall st, oc <> Accepted st).
      { intros st Hst. by apply (Hnone st), Hacc. }
      split; [by apply Hkeep|]. rewrite Ho.
      destruct oc as [st| |e]; [by destruct (Hna st)|done|done].
    + rewrite Ho. destruct oc as [st| |e] eqn:Eoc; simpl.
      * exists mp4. split; [done|]. rewrite (A st eq_refl).
        destruct (Hacc st eq_refl) as (n & -> & _). simpl. eauto.
      * exists inp. split; [done|]. rewrite Hkeep; [eauto|]. by intros st.
      * exists inp. split; [done|]. rewrite Hkeep; [eauto|]. by intros st.
Qed.

(** Claim C5. When the raw input of a completion run is smaller than
    51200 bytes (50 KiB), the conversion does nothing at all: it returns
    with the state it was given, the log gains no run of the conversion
    tool (neither the probe nor a conversion step), the files are the same
    afterwards, and the raw file is the recorder's output path. *)
Theorem small_raw_file_skips_conversion env s inp S :
  let s1 := fst (adopt_actual_file s) in
  find_input (world s1) (rec s1) = Some inp ->
  files (world s) !! inp = Some S ->
  (S < 51200)%Z ->
  let s' := fst (_complete_after_stop env s) in
  _convert_to_mp4 env s1 = (s1, Ret tt)
  /\ List.filter is_tool_run (log s') = List.filter is_tool_run (log s)
  /\ world s' = world s
  /\ output_file (rec s') = Some inp.
Proof.
  intros s1 Hin HS Hlt s'.
  split.
  - apply (convert_small env s1 inp S Hin); [|done].
    subst s1. by rewrite adopt_actual_file_spec.
  - destruct (complete_after_stop_cases env s inp S Hin HS) as [_ H].
    fold s' in H.
    destruct H as [(_ & Hw & Ho & Hl) | [(Hge & _) | (Hge & _)]];
      [done|lia|lia].
Qed.

(** An audio transcode whose output is exactly 30 % of a 100000-byte
    input is not accepted: all three commands run and the raw file stays
    the output, where the claim as written has the second step accepted. *)
Lemma ladder_rejects_exactly_thirty_percent :
  let env := Sample.env_of Sample.run_thirty in
  let s := Sample.state_of 100000 true in
  find_input (world (fst (adopt_actual_file s))) (rec (fst (adopt_actual_file s)))
  = Some Sample.flv
  /\ files (world s) !! Sample.flv = Some 100000%Z
  /\ has_ffmpeg (world s) = true
  /\ List.filter is_convert (log (fst (_complete_after_stop env s)))
     = map (fun st => EvConvert st Sample.flv Sample.mp4) all_steps
  /\ output_file (rec (fst (_complete_after_stop env s))) = Some Sample.flv
  /\ ~ ladder_as_claimed env s Sample.flv 100000.
Proof.
  repeat split; try (vm_compute; reflexivity).
  intros [H _]. vm_compute in H. discriminate H.
Qed.

(** A remux that times out ends the ladder: no further command is run
    although the later steps would have been accepted, and the raw file
    stays the output. *)
Example ladder_ended_by_timeout :
  let env := Sample.env_of Sample.run_timeout in
  let s := Sample.state_of 100000 true in
  let s' := fst (_complete_after_stop env s) in
  List.filter is_convert (log s') = [EvConvert Remux Sample.flv Sample.mp4]
  /\ output_file (rec s') = Some Sample.flv
  /\ files (world s') !! Sample.flv = Some 100000%Z.
Proof. repeat split; vm_compute; reflexivity. Qed.

(** Off the remux boundary the amended size test and the one of the code
    give the same plan. *)
Lemma amended_plan_eq env S :
  remux_off_boundary env S ->
  ladder_plan amended_size_ok (ffmpeg_run env) S all_steps
  = ladder_plan size_ok (ffmpeg_run env) S all_steps.
Proof.
  intros Hb. unfold all_steps. simpl.
  assert (E : step_accepts amended_size_ok Remux S (ffmpeg_run env Remux)
              = step_accepts size_ok Remux S (ffmpeg_run env Remux)).
  { unfold step_accepts. destruct (ffmpeg_run env Remux) as [rc [n|]|] eqn:R;
      try reflexivity.
    f_equal. simpl. specialize (Hb rc n R).
    destruct (Z.leb_spec S (2 * n)), (Z.ltb_spec S (2 * n)); try reflexivity; lia. }
  rewrite E. reflexivity.
Qed.

(** Claim C4, as amended. For a raw input of [S] bytes, [S] at least 51200,
    with the conversion tool available, a completion run issues the
    conversion commands in the order remux, audio transcode, full
    re-encode on that input, up to and including the first step that is
    accepted or whose process does not return (a time-out or a launch
    failure ends the ladder and keeps the raw file); a step is accepted
    iff its process exits zero and its output is at least 50 % of [S]
    (remux, an output of exactly 50 % being left out of this statement),
    more than 30 % of [S] (audio transcode), or more than 10000 bytes
    (full re-encode); the output of the accepted step exists and becomes
    the recorder's output path, and without an accepted step the raw
    file stays the output path. *)
Theorem ladder_runs_in_order_until_accepted env s inp S :
  let s1 := fst (adopt_actual_file s) in
  find_input (world s1) (rec s1) = Some inp ->
  files (world s) !! inp = Some S ->
  (51200 <= S)%Z ->
  has_ffmpeg (world s) = true ->
  remux_off_boundary env S ->
  let s' := fst (_complete_after_stop env s) in
  let mp4 := mp4_output_for inp inp in
  let plan := ladder_plan amended_size_ok (ffmpeg_run env) S all_steps in
  List.filter is_convert (log s')
  = (List.filter is_convert (log s)
     ++ map (fun st => EvConvert st inp mp4) (fst plan))%list
  /\ output_file (rec s') = Some (final_path (snd plan) mp4 inp)
  /\ (forall st, snd plan = Accepted st ->
        step_accepts amended_size_ok st S (ffmpeg_run env st) = true
        /\ files (world s') !! mp4 = out_of (ffmpeg_run env st)).
Proof.
  intros s1 Hin HS Hge Hff Hb s' mp4 plan.
  subst plan. 
  destruct (complete_after_stop_cases env s inp S Hin HS) as [_ H].
  fold s' mp4 in H.
  destruct H as [(Hlt & _) | [(_ & Hno & _) | (_ & _ & F & Ho & Hl & A)]];
    [lia|congruence|].
  split; [|split].
  - rewrite (amended_plan_eq env S Hb). exact Hl.
  - rewrite (amended_plan_eq env S Hb). exact Ho.
  - intros st Hst. split.
    + by apply (ladder_plan_accepted _ _ _ all_steps).
    + apply A. by rewrite <- (amended_plan_eq env S Hb).
Qed.

(** Every step fails on a 100000-byte raw file: it is kept. *)
Lemma raw_file_kept_witness :
  let env := Sample.env_of Sample.run_fail in
  let s := Sample.state_of 100000 true in
  let s' := fst (_complete_after_stop env s) in
  (files (world s') !! Sample.flv = None ->
   exists st, step_passes env 100000 st)
  /\ ((forall st, ~ step_passes env 100000 st) \/ has_ffmpeg (world s) = false ->
      files (world s') !! Sample.flv = Some 100000%Z
      /\ output_file (rec s') = Some Sample.flv)
  /\ (exists p, output_file (rec s') = Some p
                /\ is_Some (files (world s') !! p)).
Proof.
  apply (raw_file_kept_unless_step_accepted
           (Sample.env_of Sample.run_fail) (Sample.state_of 100000 true)
           Sample.flv 100000); vm_compute; reflexivity.
Defined.

(** A raw file of 40 KiB. *)
Lemma small_raw_file_witness :
  let env := Sample.env_of Sample.run_second in
  let s := Sample.state_of 40960 true in
  let s1 := fst (adopt_actual_file s) in
  let s' := fst (_complete_after_stop env s) in
  _convert_to_mp4 env s1 = (s1, Ret tt)
  /\ List.filter is_tool_run (log s') = List.filter is_tool_run (log s)
  /\ world s' = world s
  /\ output_file (rec s') = Some Sample.flv.
Proof.
  apply (small_raw_file_skips_conversion
           (Sample.env_of Sample.run_second) (Sample.state_of 40960 true)
           Sample.flv 40960); [vm_compute; reflexivity ..| lia].
Defined.

(** The remux output is too small, the audio transcode is accepted. *)
Lemma ladder_second_step_witness :
  let env := Sample.env_of Sample.run_second in
  let s := Sample.state_of 100000 true in
  let s' := fst (_complete_after_stop env s) in
  let mp4 := mp4_output_for Sample.flv Sample.flv in
  let plan := ladder_plan amended_size_ok (ffmpeg_run env) 100000 all_steps in
  List.filter is_convert (log s')
  = (List.filter is_convert (log s)
     ++ map (fun st => EvConvert st Sample.flv mp4) (fst plan))%list
  /\ output_file (rec s') = Some (final_path (snd plan) mp4 Sample.flv)
  /\ (forall st, snd plan = Accepted st ->
        step_accepts amended_size_ok st 100000 (ffmpeg_run env st) = true
        /\ files (world s') !! mp4 = out_of (ffmpeg_run env st)).
Proof.
  apply (ladder_runs_in_order_until_accepted
           (Sample.env_of Sample.run_second) (Sample.state_of 100000 true)
           Sample.flv 100000).
  - vm_compute; reflexivity.
  - vm_compute; reflexivity.
  - lia.
  - reflexivity.
  - intros rc n [= <- <-]. lia.
Defined.

End ConversionProofs.

(* ===================================================================== *)
(** ** Filename generation *)
(* ===================================================================== *)

Section FilenameProofs.
Import Recorder.

(** The counter loop returns a free path when a counter in its range is
    free. *)
Lemma probe_counters_free w cfg stem c fuel counter :
  (exists k, (counter <= k < counter + fuel)%nat /\ (k <= 999)%nat
             /\ Os.path_exists w (counter_path cfg stem k) = false) ->
  Os.path_exists w (probe_counters fuel w cfg stem c counter) = false.
Proof.
  revert counter. induction fuel as [|f IH]; intros counter (k & Hk & Hmax & Hfree).
  - lia.
  - simpl. destruct (Os.path_exists w (counter_path cfg stem counter)) eqn:E;
      simpl; [|done].
    assert (k <> counter) by congruence.
    destruct (Nat.ltb_spec 999 (S counter)); [lia|].
    apply IH. exists k. repeat split; try done; lia.
Qed.

(** With every counter taken the loop ends at the safety limit. *)
Lemma probe_counters_full w cfg stem c fuel counter :
  (counter + fuel = 1000)%nat ->
  (forall k, (counter <= k <= 999)%nat ->
             Os.path_exists w (counter_path cfg stem k) = true) ->
  probe_counters fuel w cfg stem c counter = ts_path cfg stem c.
Proof.
  revert counter. induction fuel as [|f IH]; intros counter Hsum Hall; [done|].
  simpl. rewrite Hall by lia. simpl.
  destruct (Nat.ltb_spec 999 (S counter)); [done|].
  apply IH; [lia|]. intros k Hk. apply Hall. lia.
Qed.

(** In the crowded directory the path returned exists already. *)
Lemma generated_filename_taken :
  _generate_filename Crowded.world Sample.cfg Sample.recorder Sample.clk
  = Ret "./recordings/bob_20240102_030405_678_1704164645678.mp4"
  /\ Os.path_exists Crowded.world
       "./recordings/bob_20240102_030405_678_1704164645678.mp4" = true.
Proof. split; vm_compute; reflexivity. Qed.

(** Claim C6, as amended. For a string title, [_generate_filename] returns
    a path that does not exist whenever the millisecond-suffixed base path
    or one of its counter variants [_001] to [_999] is free; when all of
    these 1000 paths are taken it returns the timestamp-suffixed path
    without probing it. *)
Theorem generated_filename_free_slot w cfg r c ttl :
  title r = JStr ttl ->
  let stem := filename_stem cfg (username r) ttl c in
  (some_slot_free w cfg stem ->
   exists p, _generate_filename w cfg r c = Ret p
             /\ Os.path_exists w p = false)
  /\ (~ some_slot_free w cfg stem ->
      _generate_filename w cfg r c = Ret (ts_path cfg stem c)).
Proof.
  intros Ht stem. unfold _generate_filename. rewrite Ht. fold stem. split.
  - intros Hfree. eexists. split; [reflexivity|].
    destruct (Os.path_exists w (base_path cfg stem)) eqn:E; cbn [negb]; [|done].
    destruct Hfree as [Hb | (k & Hk & Hf)]; [congruence|].
    apply probe_counters_free. exists k. repeat split; try done; lia.
  - intros Hfull. f_equal.
    destruct (Os.path_exists w (base_path cfg stem)) eqn:E; cbn [negb].
    + apply probe_counters_full; [done|]. intros k Hk.
      destruct (Os.path_exists w (counter_path cfg stem k)) eqn:Ek; [done|].
      destruct Hfull. right. exists k. split; [lia|done].
    + destruct Hfull. by left.
Qed.

(** A directory that holds the raw file only: the base path is returned. *)
Lemma generated_filename_witness :
  let stem := filename_stem Sample.cfg "bob" "hello" Sample.clk in
  (some_slot_free (Sample.world_of 100000 true) Sample.cfg stem ->
   exists p, _generate_filename (Sample.world_of 100000 true) Sample.cfg
               Sample.recorder Sample.clk = Ret p
             /\ Os.path_exists (Sample.world_of 100000 true) p = false)
  /\ (~ some_slot_free (Sample.world_of 100000 true) Sample.cfg stem ->
      _generate_filename (Sample.world_of 100000 true) Sample.cfg
        Sample.recorder Sample.clk = Ret (ts_path Sample.cfg stem Sample.clk)).
Proof.
  apply (generated_filename_free_slot (Sample.world_of 100000 true) Sample.cfg
           Sample.recorder Sample.clk "hello"). reflexivity.
Defined.

End FilenameProofs.

(* ===================================================================== *)
(** ** Stopping a recorder *)
(* ===================================================================== *)

Section StopProofs.
Import Recorder.

(** Counting distributes over concatenation. *)
Lemma occurrences_app k l1 l2 :
  occurrences k (l1 ++ l2) = (occurrences k l1 + occurrences k l2)%nat.
Proof. unfold occurrences. by rewrite List.filter_app, length_app. Qed.

(** Setting the output path twice, or to what it is. *)
Lemma set_output_file_same r : set_output_file (output_file r) r = r.
Proof. by destruct r. Qed.

Lemma set_output_file_twice a b r :
  set_output_file a (set_output_file b r) = set_output_file a r.
Proof. by destruct r. Qed.

(** The stop protocol returns whatever the process does, interrupts
    once, and neither notifies nor runs the conversion tool. *)
Lemma shutdown_spec pe pid s :
  exists l, shutdown pe pid s
            = (mkRState (world s) (config s) (rec s) (log s ++ l), Ret tt)
            /\ occurrences is_interrupt l = 1%nat
            /\ occurrences is_notify_end l = 0%nat
            /\ occurrences is_callback l = 0%nat
            /\ occurrences is_tool_run l = 0%nat.
Proof.
  unfold shutdown, kill_quietly, try_pass, try_except, bind, emit, modify,
    lift, ret.
  destruct s as [w c r l]. simpl.
  destruct (sigint pe) as [[]|[k1 m1]]; simpl.
  - destruct (wait_sigint pe) as [[]|[k2 m2]]; simpl.
    + eexists. rewrite <- !app_assoc. split; [reflexivity|]. by vm_compute.
    + destruct k2; simpl;
        repeat match goal with
               | |- context [match ?x with Ret _ => _ | Raise _ => _ end] =>
                   destruct x as [[]|[? ?]]; simpl
               end;
        eexists; rewrite <- ?app_assoc; (split; [reflexivity|]); by vm_compute.
  - destruct k1; simpl;
      repeat match goal with
             | |- context [match ?x with Ret _ => _ | Raise _ => _ end] =>
                 destruct x as [[]|[? ?]]; simpl
             end;
      eexists; rewrite <- ?app_assoc; (split; [reflexivity|]); by vm_compute.
Qed.

(** Conversion commands are not of a kind that rejects them. *)
Lemma occurrences_map_convert k inp mp4 steps :
  (forall st, k (EvConvert st inp mp4) = false) ->
  occurrences k (map (fun st => EvConvert st inp mp4) steps) = 0%nat.
Proof.
  intros Hk. unfold occurrences.
  induction steps as [|a rest IH]; simpl; [done|]. by rewrite Hk.
Qed.

(** Whatever the state, the conversion returns, and it touches the
    recorder only in [output_file] and the log only by tool runs. *)
Lemma convert_shape env s :
  exists w' o' l',
    _convert_to_mp4 env s
    = (mkRState w' (config s) (set_output_file o' (rec s)) (log s ++ l'),
       Ret tt)
    /\ occurrences is_interrupt l' = 0%nat
    /\ occurrences is_notify_end l' = 0%nat
    /\ occurrences is_callback l' = 0%nat.
Proof.
  destruct (find_input (world s) (rec s)) as [inp|] eqn:Hin.
  2:{ exists (world s), (output_file (rec s)), [].
      rewrite set_output_file_same, app_nil_r.
      unfold _convert_to_mp4, bind, get_st. rewrite Hin.
      destruct s; split; [reflexivity|done]. }
  destruct (find_input_exists _ _ _ Hin) as [[S HS] Hne].
  destruct (Z.lt_ge_cases S 51200) as [Hlt|Hge].
  { exists (world s), (output_file (rec s)), [].
    rewrite set_output_file_same, app_nil_r.
    rewrite (convert_small env s inp S Hin HS Hlt).
    destruct s; split; [reflexivity|done]. }
  destruct (has_ffmpeg (world s)) eqn:Hff.
  2:{ rewrite (convert_no_tool env s inp S Hin HS Hge Hff).
      eexists _, _, _. split; [reflexivity|done]. }
  destruct (output_file (rec s)) as [o|] eqn:Ho.
  - destruct (convert_ladder env s inp S o Hin HS Hge Hff Ho)
      as (w' & E & _ & _).
    rewrite E. eexists _, _, _. split; [reflexivity|].
    change (EvProbeFfmpeg :: ?l) with ([EvProbeFfmpeg] ++ l)%list.
    rewrite !occurrences_app, !occurrences_map_convert by done. done.
  - exists (world s), (Some inp), [EvProbeFfmpeg]. split; [|done].
    unfold _convert_to_mp4. unfold bind at 1. unfold get_st at 1.
    rewrite Hin. unfold Os.getsize. rewrite HS.
    apply Z.ltb_ge in Hge. rewrite Hge.
    unfold _find_ffmpeg, bind at 1 2 3, emit, modify, get_st at 1, ret at 1.
    simpl. rewrite Hff.
    unfold try_except, ladder. unfold bind at 1. unfold get_st at 1.
    simpl. rewrite Ho. unfold bind at 1. unfold raise at 1.
    unfold bind, get_st, when. simpl.
    unfold Os.path_exists. rewrite HS.
    rewrite bool_decide_eq_true_2 by eauto.
    destruct (String.eqb_spec inp ""); [done|]. simpl. reflexivity.
Qed.

(** The statistics update logs at most one save of the configuration. *)
Lemma update_stats_events env s :
  exists c' l', update_stats env s
                = (mkRState (world s) c' (rec s) (log s ++ l'), Ret tt)
                /\ (l' = [] \/ l' = [EvSaveConfig]).
Proof.
  unfold update_stats, bind, get_st.
  destruct (Os.truthy_exists (world s) (output_file (rec s))) eqn:E; simpl.
  2:{ exists (config s), []. rewrite app_nil_r.
      destruct s; split; [reflexivity|by left]. }
  destruct (output_file (rec s)) as [o|] eqn:Eo; [|discriminate].
  apply truthy_exists_lookup in E as [[n Hn] _].
  unfold lift, Os.getsize. rewrite Hn.
  destruct (10240 <? n)%Z; simpl.
  - eexists _, [EvSaveConfig]. split; [reflexivity|by right].
  - exists (config s), []. rewrite app_nil_r.
    destruct s; split; [reflexivity|by left].
Qed.

(** Finalization notifies once and calls the callback once when one is
    installed. *)
Lemma finalize_recording_counts env s :
  exists c' l', _finalize_recording env s
                = (mkRState (world s) c' (rec s) (log s ++ l'), Ret tt)
                /\ occurrences is_interrupt l' = 0%nat
                /\ occurrences is_notify_end l' = 1%nat
                /\ occurrences is_callback l'
                   = (if on_complete (rec s) then 1 else 0)%nat.
Proof.
  unfold _finalize_recording. unfold bind at 1.
  destruct (update_stats_events env s) as (c' & l1 & -> & Hl1).
  unfold bind, get_st, emit, modify, when, ret; simpl.
  destruct (on_complete (rec s)); simpl;
    eexists c', _; rewrite <- ?app_assoc; (split; [reflexivity|]);
    destruct Hl1 as [-> | ->]; by vm_compute.
Qed.

(** The completion path returns, changes only the output path of the
    recorder, and finalizes once. *)
Lemma complete_after_stop_shape env s :
  exists w' c' o' l',
    _complete_after_stop env s
    = (mkRState w' c' (set_output_file o' (rec s)) (log s ++ l'), Ret tt)
    /\ occurrences is_interrupt l' = 0%nat
    /\ occurrences is_notify_end l' = 1%nat
    /\ occurrences is_callback l'
       = (if on_complete (rec s) then 1 else 0)%nat.
Proof.
  unfold _complete_after_stop. unfold bind at 1.
  rewrite adopt_actual_file_spec. unfold bind at 1.
  set (s1 := mkRState (world s) (config s) (adopted (world s) (rec s)) (log s)).
  destruct (convert_shape env s1) as (w' & o' & l1 & -> & H1 & H2 & H3).
  match goal with |- context [_finalize_recording env ?st] =>
    destruct (finalize_recording_counts env st) as (c' & l2 & -> & K1 & K2 & K3)
  end.
  simpl in *.
  assert (Hoc : on_complete (adopted (world s) (rec s)) = on_complete (rec s)).
  { unfold adopted. destruct (PyStr.truthy _); by destruct (rec s). }
  exists w', c', o', (l1 ++ l2)%list. split.
  - rewrite <- app_assoc. f_equal. f_equal.
    unfold adopted. destruct (PyStr.truthy _); by destruct (rec s).
  - rewrite !occurrences_app, H1, H2, H3, K1, K2, K3.
    destruct (rec s), (adopted _ _); simpl in *. subst. done.
Qed.

(** A refused stop changes nothing. *)
Lemma stop_refused_noop env s :
  stop_refused (rec s) = true -> stop env s = (s, Ret tt).
Proof. intros H. unfold stop, bind, get_st. by rewrite H. Qed.

(** Entering the stop sets the two flags. *)
Lemma stop_enter_spec s :
  stop_enter s
  = (mkRState (world s) (config s)
       (set_stop_event true (set_is_stopping true (rec s))) (log s), Ret tt).
Proof. by destruct s. Qed.

(** Sequencing after a computation that returns. *)
Lemma bind_eq {S A B} (m : M S A) (k : A -> M S B) s s' a :
  m s = (s', Ret a) -> bind m k s = k a s'.
Proof. intros H. unfold bind. by rewrite H. Qed.

(** A stop that is not refused: what it leaves behind. *)
Lemma stop_accepted_shape env s :
  stop_refused (rec s) = false ->
  exists w' c' r' l,
    stop env s = (mkRState w' c' r' (log s ++ l), Ret tt)
    /\ is_recording r' = false /\ is_stopping r' = false
    /\ stop_event r' = true /\ process r' = None
    /\ occurrences is_notify_end l = 1%nat
    /\ occurrences is_interrupt l
       = (match process (rec s) with Some _ => 1 | None => 0 end)%nat
    /\ occurrences is_callback l
       = (if on_complete (rec s) then 1 else 0)%nat.
Proof.
  intros Hgo. unfold stop.
  rewrite (bind_eq _ _ s s s) by reflexivity. rewrite Hgo.
  rewrite (bind_eq _ _ _ _ tt (stop_enter_spec s)).
  unfold stop_body.
  erewrite bind_eq by reflexivity.
  cbn [rec process set_stop_event set_is_stopping].
  destruct (process (rec s)) as [pid|] eqn:Hp.
  - match goal with |- context [shutdown ?pe ?p] =>
      destruct (shutdown_spec pe p
        (mkRState (world s) (config s)
           (set_stop_event true (set_is_stopping true (rec s))) (log s)))
        as (l1 & E1 & I1 & N1 & C1 & _) end.
    cbn [world config rec log] in E1.
    erewrite (bind_eq (bind _ _)).
    2:{ erewrite bind_eq by exact E1. reflexivity. }
    erewrite bind_eq by reflexivity.
    erewrite bind_eq by reflexivity.
    cbn [world config rec log].
    match goal with |- context [_complete_after_stop env ?st] =>
      destruct (complete_after_stop_shape env st)
        as (w' & c' & o' & l2 & -> & I2 & N2 & C2) end.
    cbn [world config rec log] in *.
    eexists w', c', _, (l1 ++ l2)%list. split; [by rewrite <- app_assoc|].
    rewrite !occurrences_app, I1, N1, C1, I2, N2, C2.
    destruct (rec s); simpl. done.
  - erewrite bind_eq by reflexivity.
    erewrite bind_eq by reflexivity.
    erewrite bind_eq by reflexivity.
    cbn [world config rec log].
    match goal with |- context [_complete_after_stop env ?st] =>
      destruct (complete_after_stop_shape env st)
        as (w' & c' & o' & l2 & -> & I2 & N2 & C2) end.
    cbn [world config rec log] in *.
    eexists w', c', _, l2. split; [reflexivity|].
    rewrite I2, N2, C2. destruct (rec s); simpl in *. subst. done.
Qed.


End StopProofs.

(* ===================================================================== *)
(** ** The session registry *)
(* ===================================================================== *)

Section RegistryProofs.
Import Recorder.

(** The flags after [Recorder.start] on an idle recorder. *)
Lemma start_flags env user s_url ttl l_url s :
  is_recording (rec s) = false ->
  let s' := fst (Recorder.start env user s_url ttl l_url s) in
  let a := snd (Recorder.start env user s_url ttl l_url s) in
  is_stopping (rec s') = false
  /\ (a = Ret true -> is_recording (rec s') = true /\ username (rec s') = user)
  /\ (a <> Ret true -> is_recording (rec s') = false).
Proof.
  intros Hr. unfold Recorder.start.
  rewrite (bind_eq _ _ s s s) by reflexivity. rewrite Hr.
  erewrite bind_eq by reflexivity.
  erewrite bind_eq by reflexivity.
  cbn [world config rec log].
  match goal with |- context [_generate_filename ?w ?c ?r ?k] =>
    destruct (_generate_filename w c r k) as [out|e] eqn:G end.
  2:{ unfold bind, lift. cbn. destruct (rec s); cbn in *. subst.
      repeat split; try done. }
  erewrite bind_eq by reflexivity.
  erewrite bind_eq by reflexivity.
  cbn [world config rec log].
  unfold _start_ffmpeg, _start_ytdlp, raw_target, after_spawn, _find_ffmpeg,
    try_except, bind, emit, upd_rec, modify, get_st, ret, raise, lift.
  destruct (rec s) eqn:Hrec; cbn in *. subst.
  destruct (Py.truthy s_url); cbn -[OsPath.splitext String.append PyStr.take].
  - destruct (has_ffmpeg (world s));
      cbn -[OsPath.splitext String.append PyStr.take].
    + destruct s_url; cbn -[OsPath.splitext String.append PyStr.take];
        destruct (spawn_ffmpeg env);
        cbn -[OsPath.splitext String.append PyStr.take];
        try (repeat split; done);
        destruct (spawn_ytdlp env);
        cbn -[OsPath.splitext String.append PyStr.take];
        repeat split; done.
    + destruct (spawn_ytdlp env);
        cbn -[OsPath.splitext String.append PyStr.take];
        repeat split; done.
  - destruct (spawn_ytdlp env);
      cbn -[OsPath.splitext String.append PyStr.take];
      repeat split; done.
Qed.

(** The flags after [Recorder.stop], [_complete] and one monitor pass. *)
Lemma stop_flags env s :
  is_stopping (rec s) = false ->
  snd (stop env s) = Ret tt
  /\ is_recording (rec (fst (stop env s))) = false
  /\ is_stopping (rec (fst (stop env s))) = false.
Proof.
  intros Hs. destruct (stop_refused (rec s)) eqn:Hr.
  - rewrite (stop_refused_noop env s Hr). simpl.
    unfold stop_refused in Hr. rewrite Hs, orb_false_r in Hr.
    apply negb_true_iff in Hr. done.
  - destruct (stop_accepted_shape env s Hr)
      as (w' & c' & r' & l & -> & H1 & H2 & _). done.
Qed.

Lemma complete_flags env s :
  snd (_complete env s) = Ret tt
  /\ is_recording (rec (fst (_complete env s))) = false
  /\ is_stopping (rec (fst (_complete env s))) = is_stopping (rec s)
  /\ username (rec (fst (_complete env s))) = username (rec s).
Proof.
  destruct (is_recording (rec s)) eqn:Hr.
  - rewrite (complete_eq env s Hr).
    match goal with |- context [_complete_after_stop env ?st] =>
      destruct (complete_after_stop_shape env st)
        as (w' & c' & o' & l2 & -> & _) end.
    simpl. by destruct (rec s).
  - unfold _complete, bind, get_st. rewrite Hr. simpl. done.
Qed.

Lemma monitor_step_flags env exited s :
  let s' := fst (monitor_step env exited s) in
  is_stopping (rec s') = is_stopping (rec s)
  /\ username (rec s') = username (rec s)
  /\ (is_recording (rec s') = true -> is_recording (rec s) = true).
Proof.
  unfold monitor_step.
  rewrite (bind_eq _ _ s s s) by reflexivity.
  destruct (stop_event (rec s) || negb (is_recording (rec s))); [done|].
  set (s1 := fst (when (PyStr.truthy (_find_actual_file (world s) (rec s)))
                    (upd_rec (set_actual_recording_file
                                (_find_actual_file (world s) (rec s)))) s)).
  assert (E1 : when (PyStr.truthy (_find_actual_file (world s) (rec s)))
                 (upd_rec (set_actual_recording_file
                             (_find_actual_file (world s) (rec s)))) s
               = (s1, Ret tt)).
  { subst s1. unfold when. destruct (PyStr.truthy _); reflexivity. }
  assert (F1 : is_stopping (rec s1) = is_stopping (rec s)
               /\ username (rec s1) = username (rec s)
               /\ is_recording (rec s1) = is_recording (rec s)).
  { subst s1. unfold when. destruct (PyStr.truthy _); simpl;
      by destruct (rec s). }
  clearbody s1.
  rewrite (bind_eq _ _ _ _ _ E1).
  rewrite (bind_eq _ _ s1 s1 s1) by reflexivity.
  destruct F1 as (F1 & F2 & F3).
  destruct (process (rec s1)); [|simpl; by rewrite F1, F2, F3].
  destruct exited; [|simpl; by rewrite F1, F2, F3].
  destruct (complete_flags env s1) as (C0 & C1 & C2 & C3).
  unfold bind. destruct (_complete env s1) as [s2 a]. simpl in *. subst a.
  simpl. rewrite C1, C2, C3, F1, F2. done.
Qed.

(** Stopping the recorders of a list leaves the dictionary alone, and a
    recorder still recording afterwards is one the loop did not visit. *)
Lemma stop_each_loop envs l ms :
  (forall i r, heap ms !! i = Some r -> is_stopping r = false) ->
  let ms' := fst (for_each (stop_each envs) l ms) in
  snd (for_each (stop_each envs) l ms) = Ret tt
  /\ recorders ms' = recorders ms
  /\ (forall i r', heap ms' !! i = Some r' ->
        is_stopping r' = false
        /\ (is_recording r' = true ->
            heap ms !! i = Some r' /\ i ∉ map snd l)).
Proof.
  revert ms. induction l as [|[u i] l IH]; intros ms Hms.
  - simpl. repeat split; try done.
    + by apply (Hms i).
    + cbn. apply not_elem_of_nil.
  - cbn [for_each].
    assert (E : exists ms1,
      stop_each envs (u, i) ms = (ms1, Ret tt)
      /\ recorders ms1 = recorders ms
      /\ (forall j r0, heap ms1 !! j = Some r0 ->
            is_stopping r0 = false
            /\ (j = i -> is_recording r0 = false)
            /\ (j <> i -> heap ms !! j = Some r0))).
    { unfold stop_each, MultiRecorder.on_recorder. cbn [snd].
      destruct (heap ms !! i) as [r|] eqn:Hi.
      - pose proof (Hms i r Hi) as Hst.
        destruct (stop_flags (envs i)
                    (mkRState (m_world ms) (m_config ms) r (m_log ms)) Hst)
          as (S0 & S1 & S2).
        destruct (stop (envs i) _) as [s' a]. simpl in S0, S1, S2. subst a.
        eexists. split; [reflexivity|]. split; [done|].
        intros j r0. simpl. destruct (decide (i = j)) as [->|Hne].
        + rewrite list_lookup_insert_eq by (by eapply lookup_lt_Some).
          intros [= <-]. done.
        + rewrite list_lookup_insert_ne by done. intros Hj.
          split; [by apply (Hms j)|]. split; [congruence|done].
      - exists ms. split; [reflexivity|]. split; [done|].
        intros j r0 Hj. split; [by apply (Hms j)|]. split; [congruence|done]. }
    destruct E as (ms1 & E & R1 & H1).
    rewrite (bind_eq _ _ _ _ _ E).
    destruct (IH ms1 (fun j r0 Hj => proj1 (H1 j r0 Hj))) as (A0 & A1 & A2).
    split; [exact A0|]. split; [by rewrite A1|].
    intros j r' Hj. destruct (A2 j r' Hj) as [B1 B2]. split; [done|].
    intros Hrec. destruct (B2 Hrec) as [C1 C2].
    destruct (H1 j r' C1) as (_ & D1 & D2).
    destruct (decide (j = i)) as [->|Hne]; [rewrite D1 in Hrec; done|].
    split; [by apply D2|]. cbn [map snd].
    intros Hin. apply elem_of_cons in Hin as [?|?]; done.
Qed.

(** In a well-formed registry a recording object is the one registered
    under its handle. *)
Lemma active_registered ms i r :
  registry_ok ms -> heap ms !! i = Some r -> is_recording r = true ->
  MultiRecorder.active ms (username r) = true.
Proof.
  intros Hok Hi Hr. destruct (Hok i r Hi) as [_ Hreg].
  unfold MultiRecorder.active, MultiRecorder.registered.
  by rewrite (Hreg Hr), Hi.
Qed.

(** A start for an active handle is refused and changes nothing. *)
Lemma start_refused env user s_url ttl l_url ms :
  MultiRecorder.active ms user = true ->
  MultiRecorder.start env user s_url ttl l_url ms = (ms, Ret false).
Proof. intros H. unfold MultiRecorder.start. by rewrite H. Qed.

(** What an admitted or failed start leaves in the registry. *)
Lemma start_outcome env user s_url ttl l_url ms :
  MultiRecorder.active ms user = false ->
  let ms' := fst (MultiRecorder.start env user s_url ttl l_url ms) in
  let a := snd (MultiRecorder.start env user s_url ttl l_url ms) in
  (ms' = ms /\ a <> Ret true)
  \/ (exists r', heap ms' = (heap ms ++ [r'])%list
        /\ is_stopping r' = false
        /\ ((a = Ret true /\ is_recording r' = true /\ username r' = user
             /\ recorders ms' = <[user := length (heap ms)]> (recorders ms))
            \/ (a <> Ret true /\ is_recording r' = false
                /\ recorders ms' = recorders ms))).
Proof.
  intros Hna. unfold MultiRecorder.start. rewrite Hna.
  destruct (mkdir_output env) as [[]|e]; [|left; done].
  right.
  pose proof (start_flags env user s_url ttl l_url
                (mkRState (m_world ms) (m_config ms) new_recorder (m_log ms))
                eq_refl) as (F1 & F2 & F3).
  destruct (Recorder.start env user s_url ttl l_url _) as [s' a].
  simpl in F1, F2, F3.
  destruct a as [[|]|e]; simpl.
  - exists (rec s'). split; [done|]. split; [done|]. left.
    destruct (F2 eq_refl). done.
  - exists (rec s'). split; [done|]. split; [done|]. right.
    split; [done|]. split; [by apply F3|done].
  - exists (rec s'). split; [done|]. split; [done|]. right.
    split; [done|]. split; [by apply F3|done].
Qed.

(** Every step of the registry keeps it well formed. *)
Lemma registry_ok_start env user s_url ttl l_url ms :
  registry_ok ms ->
  registry_ok (fst (MultiRecorder.start env user s_url ttl l_url ms)).
Proof.
  intros Hok. destruct (MultiRecorder.active ms user) eqn:Ha.
  { by rewrite start_refused. }
  destruct (start_outcome env user s_url ttl l_url ms Ha)
    as [[-> _] | (r' & Hheap & Hst & Hcase)]; [done|].
  intros i r Hi. rewrite Hheap in Hi.
  apply lookup_app_Some in Hi as [Hi | [Hlen Hi]].
  - destruct (Hok i r Hi) as [K1 K2]. split; [done|]. intros Hr.
    destruct Hcase as [(_ & _ & _ & ->) | (_ & _ & ->)]; [|by apply K2].
    destruct (decide (username r = user)) as [Hu|Hu].
    + pose proof (active_registered ms i r Hok Hi Hr) as Hact.
      rewrite Hu in Hact. congruence.
    + rewrite lookup_insert_ne by done. by apply K2.
  - destruct (i - length (heap ms))%nat as [|k] eqn:Hk; simpl in Hi;
      [|done].
    injection Hi as <-. split; [done|]. intros Hr.
    destruct Hcase as [(_ & _ & Hu & ->) | (_ & Hn & _)]; [|congruence].
    rewrite Hu, lookup_insert_eq. f_equal. lia.
Qed.

Lemma registry_ok_stop_all envs ms :
  registry_ok ms -> registry_ok (fst (MultiRecorder.stop_all envs ms)).
Proof.
  intros Hok. unfold MultiRecorder.stop_all.
  rewrite (bind_eq _ _ ms ms ms) by reflexivity.
  destruct (stop_each_loop envs (map_to_list (recorders ms)) ms
              (fun i r Hi => proj1 (Hok i r Hi))) as (A0 & A1 & A2).
  set (ms1 := fst (for_each (stop_each envs) (map_to_list (recorders ms)) ms))
    in *.
  assert (E : for_each (stop_each envs) (map_to_list (recorders ms)) ms
              = (ms1, Ret tt)).
  { subst ms1. rewrite <- A0. by destruct (for_each _ _ _). }
  unfold stop_each in E. rewrite (bind_eq _ _ _ _ _ E).
  intros i r Hi. simpl in Hi. destruct (A2 i r Hi) as [B1 B2].
  split; [done|]. intros Hr. exfalso.
  destruct (B2 Hr) as [C1 C2]. apply C2.
  destruct (Hok i r C1) as [_ Hreg]. specialize (Hreg Hr).
  apply list_elem_of_fmap. exists (username r, i). split; [done|].
  by apply elem_of_map_to_list.
Qed.

Lemma registry_ok_monitor i env exited ms :
  registry_ok ms ->
  registry_ok
    (fst (MultiRecorder.on_recorder i (monitor_step env exited) false ms)).
Proof.
  intros Hok. unfold MultiRecorder.on_recorder.
  destruct (heap ms !! i) as [r|] eqn:Hi; [|done].
  pose proof (monitor_step_flags env exited
                (mkRState (m_world ms) (m_config ms) r (m_log ms)))
    as (F1 & F2 & F3).
  destruct (monitor_step env exited _) as [s' a]. simpl in *.
  intros j r0. simpl. destruct (decide (i = j)) as [->|Hne].
  - rewrite list_lookup_insert_eq by (by eapply lookup_lt_Some).
    intros [= <-]. destruct (Hok j r Hi) as [K1 K2].
    split; [congruence|]. intros Hr. rewrite F2. apply K2. by apply F3.
  - rewrite list_lookup_insert_ne by done. apply Hok.
Qed.

(** Every reachable registry is well formed. *)
Lemma reachable_registry_ok ms : reachable ms -> registry_ok ms.
Proof.
  induction 1 as [w cfg | ms ms' _ IH Hstep].
  - intros i r Hi. discriminate Hi.
  - destruct Hstep.
    + by apply registry_ok_start.
    + by apply registry_ok_stop_all.
    + by apply registry_ok_monitor.
    + exact IH.
Qed.

(** An admitted start leaves the handle active. *)
Lemma start_admitted_then_active env user s_url ttl l_url ms :
  admitted (snd (MultiRecorder.start env user s_url ttl l_url ms)) = true ->
  MultiRecorder.active
    (fst (MultiRecorder.start env user s_url ttl l_url ms)) user = true.
Proof.
  intros Hadm. destruct (MultiRecorder.active ms user) eqn:Ha.
  { rewrite start_refused in Hadm by done. discriminate. }
  destruct (start_outcome env user s_url ttl l_url ms Ha)
    as [[_ Hn] | (r' & Hheap & _ & Hcase)].
  { destruct (snd _) as [[|]|]; done. }
  destruct Hcase as [(_ & Hr & _ & Hreg) | (Hn & _)].
  - unfold MultiRecorder.active, MultiRecorder.registered.
    rewrite Hreg, lookup_insert_eq, Hheap.
    rewrite lookup_app_r by done. by rewrite Nat.sub_diag.
  - destruct (snd _) as [[|]|]; done.
Qed.

(** Both capture commands exit during their grace period: two starts in
    a row for the same handle are both refused. *)
Lemma two_failed_starts_admit_none :
  admitted (snd Dead.first) = false
  /\ admitted (snd Dead.second) = false
  /\ ~ exactly_one_admitted (snd Dead.first) (snd Dead.second)
  /\ can_launch Dead.env (m_world Dead.registry)
       (JStr "https://pull.example/bob_hd.flv") (JStr "hello") = false.
Proof.
  split; [vm_compute; reflexivity|]. split; [vm_compute; reflexivity|].
  split; [vm_compute; discriminate|]. vm_compute; reflexivity.
Qed.

End RegistryProofs.

(* ===================================================================== *)
(** ** The resolver *)
(* ===================================================================== *)

Section ResolverProofs.
Import TikTokAPI.

(** A handler that always returns makes the whole [try] return. *)
Lemma try_except_returns {S A} (m : M S A) (h : exn -> M S A) s :
  (forall e s0, exists s1 a, h e s0 = (s1, Ret a)) ->
  exists s1 a, try_except m h s = (s1, Ret a).
Proof.
  intros Hh. unfold try_except. destruct (m s) as [s' [a|e]]; eauto.
Qed.

(** A strategy whose body returns hands back its result. *)
Lemma run_strategy_returns user body log :
  (forall st, exists st', body st = (st', Ret tt)) ->
  exists log' info, run_strategy user body log = (log', Ret info).
Proof.
  intros Hb. unfold run_strategy.
  destruct (Hb (mkStrat (blank user) log)) as (st' & ->). eauto.
Qed.

(** Both strategies return whatever their sources do. *)
Lemma try_ytdlp_returns env cookies url user quality log :
  exists log' info,
    _try_ytdlp env cookies url user quality log = (log', Ret info).
Proof.
  apply run_strategy_returns. intros st.
  destruct (try_except_returns
    (net_emit (EvExtractInfo url (use_cookies env cookies)) ;;;
     info <- lift (extract_info env url (use_cookies env cookies)) ;;
     when (Py.truthy info) (read_info info quality))
    (fun e => match exn_kind_of e with
              | DownloadError =>
                  upd_result (set_error (Some (download_error_text e)))
              | _ => upd_result
                       (set_error (Some ("Error: " ++ PyStr.take 60 (exn_msg e))))
              end) st) as (s1 & [] & E).
  { intros e s0. destruct (exn_kind_of e); eexists _, tt; reflexivity. }
  eauto.
Qed.

Lemma try_web_scrape_returns env cookies user quality log :
  exists log' info,
    _try_web_scrape env cookies user quality log = (log', Ret info).
Proof.
  apply run_strategy_returns. intros st.
  destruct (try_except_returns (scrape env cookies user quality)
    (fun e => match exn_kind_of e with
              | RequestException =>
                  upd_result
                    (set_error
                       (Some ("Network error: " ++ PyStr.take 40 (exn_msg e))))
              | _ =>
                  upd_result
                    (set_error
                       (Some ("Scrape error: " ++ PyStr.take 40 (exn_msg e))))
              end) st) as (s1 & [] & E).
  { intros e s0. destruct (exn_kind_of e); eexists _, tt; reflexivity. }
  eauto.
Qed.






(** Claim C10. For a username that normalises to the empty string (strip,
    drop leading [@], lower-case), [get_live_info] returns at once: the
    result has [success] false, [is_live] false and a non-empty error, it
    is the same whatever the network would have answered, and the log of
    network actions is unchanged, so neither strategy made its call. *)
Theorem empty_username_rejected_without_network env cookies user quality log :
  normalize user = "" ->
  get_live_info env cookies user quality log
  = (log, Ret (set_error (Some "Username tidak boleh kosong") (blank "")))
  /\ forall info, snd (get_live_info env cookies user quality log) = Ret info ->
       success info = false /\ is_live info = false /\ error_populated info.
Proof.
  intros Hn.
  assert (E : get_live_info env cookies user quality log
              = (log, Ret (set_error (Some "Username tidak boleh kosong")
                             (blank "")))).
  { unfold get_live_info. rewrite Hn. reflexivity. }
  split; [exact E|]. rewrite E. intros info [= <-].
  split; [done|]. split; [done|]. eexists. split; [reflexivity|done].
Qed.

(** A username of blanks and at-signs. *)
Lemma empty_username_witness :
  get_live_info Page.offline "" "  @@ " "best" []
  = ([], Ret (set_error (Some "Username tidak boleh kosong") (blank "")))
  /\ forall info,
       snd (get_live_info Page.offline "" "  @@ " "best" []) = Ret info ->
       success info = false /\ is_live info = false /\ error_populated info.
Proof.
  apply (empty_username_rejected_without_network Page.offline "" "  @@ "
           "best" []).
  vm_compute; reflexivity.
Defined.

(** Both strategies fail: the extractor reports the user offline, the
    page cannot be fetched. The caller gets the extractor's verdict. *)
Example offline_user_is_reported :
  get_live_info Page.offline "" "@Bob" "best" []
  = ([EvExtractInfo "https://www.tiktok.com/@bob/live" false;
      EvHttpGet "https://www.tiktok.com/@bob/live" false],
     Ret (set_error (Some "User tidak sedang live") (blank "bob"))).
Proof. vm_compute; reflexivity. Qed.

(** The inner loop returns the first eligible entry, and nothing when no
    entry is eligible. *)
Lemma scan_keys_found pref urls j k v :
  urls !! j = Some (k, v) ->
  eligible pref (k, v) = true ->
  (forall j' kv', (j' < j)%nat -> urls !! j' = Some kv' ->
                  eligible pref kv' = false) ->
  scan_keys pref (keyed urls) = Ret (Some v).
Proof.
  revert j. induction urls as [|[k0 v0] rest IH]; intros j Hj He Hbefore.
  - discriminate.
  - simpl. destruct j as [|j].
    + injection Hj as -> ->. unfold eligible, key_matches in He. simpl in He.
      by rewrite He.
    + pose proof (Hbefore 0%nat (k0, v0) ltac:(lia) eq_refl) as H0.
      unfold eligible, key_matches in H0. simpl in H0. rewrite H0.
      apply (IH j); [done|done|].
      intros j' kv' Hlt Hl. apply (Hbefore (S j')); [lia|done].
Qed.

Lemma scan_keys_none pref urls :
  (forall kv, kv ∈ urls -> eligible pref kv = false) ->
  scan_keys pref (keyed urls) = Ret None.
Proof.
  induction urls as [|[k0 v0] rest IH]; intros Hall; [done|].
  simpl. pose proof (Hall (k0, v0) ltac:(left)) as H0.
  unfold eligible, key_matches in H0. simpl in H0. rewrite H0.
  apply IH. intros kv Hkv. apply Hall. by right.
Qed.

(** The outer loop returns the entry that comes first in the order of
    preferences, then of entries, and nothing when none is eligible. *)
Lemma scan_prefs_found prefs urls i j pref k v :
  prefs !! i = Some pref ->
  urls !! j = Some (k, v) ->
  eligible pref (k, v) = true ->
  (forall i' j' pref' kv', earlier i' j' i j ->
     prefs !! i' = Some pref' -> urls !! j' = Some kv' ->
     eligible pref' kv' = false) ->
  scan_prefs prefs (keyed urls) = Ret (Some v).
Proof.
  revert i. induction prefs as [|p rest IH]; intros i Hi Hj He Hbefore.
  - discriminate.
  - simpl. destruct i as [|i].
    + injection Hi as ->.
      rewrite (scan_keys_found pref urls j k v Hj He); [done|].
      intros j' kv' Hlt Hl. apply (Hbefore 0%nat j' pref kv'); try done.
      right. done.
    + rewrite scan_keys_none.
      * apply (IH i); [done|done|done|].
        intros i' j' pref' kv' Hearly Hp Hl.
        apply (Hbefore (S i') j' pref' kv'); try done.
        destruct Hearly as [?|[-> ?]]; [left; lia|right; done].
      * intros kv Hkv. apply list_elem_of_lookup in Hkv as [j' Hj'].
        apply (Hbefore 0%nat j' p kv); try done. left. lia.
Qed.

Lemma scan_prefs_none prefs urls :
  (forall pref kv, pref ∈ prefs -> kv ∈ urls -> eligible pref kv = false) ->
  scan_prefs prefs (keyed urls) = Ret None.
Proof.
  induction prefs as [|p rest IH]; intros Hall; [done|].
  simpl. rewrite scan_keys_none.
  - apply IH. intros pref kv Hp Hkv. apply Hall; [by right|done].
  - intros kv Hkv. apply Hall; [by left|done].
Qed.

(** A page whose first candidate matches the preference but has an empty
    URL: the extraction returns the second candidate. And a page whose
    first quality entry has a null key: the selection raises although
    the second candidate matches a preference of the tier. *)
Lemma extraction_skips_empty_url :
  collect_urls Page.offline Page.stream_data [] = (keyed Page.flat, Ret tt)
  /\ _extract_stream_url Page.offline Page.stream_data "high"
     = Ret (JStr "https://pull.example/bob_sd.flv")
  /\ claimed_select "high" Page.flat = JStr ""
  /\ _extract_stream_url Page.offline Page.stream_data "high"
     <> Ret (claimed_select "high" Page.flat)
  /\ collect_urls Page.offline null_key_data []
     = ([(JNull, JStr "https://pull.example/bob.flv");
         (JStr "hd", JStr "https://pull.example/bob_hd.flv")], Ret tt)
  /\ _extract_stream_url Page.offline null_key_data "best"
     = Raise (Py.attribute_error "lower").
Proof.
  repeat split; try (vm_compute; reflexivity). vm_compute. discriminate.
Qed.

(** Claim C8, as amended. For every quality tier and every candidate map
    with string keys: an empty map gives no URL; the URL selected is that
    of the first candidate, with the preferences of the tier tried in
    their order and the candidates in insertion order under each, whose
    key contains the preference case-insensitively and whose URL is
    non-empty; when no candidate qualifies for any preference, the URL of
    the first candidate is returned as it is. *)
Theorem select_url_first_eligible quality (urls : list (string * json)) :
  let prefs := QUALITY_MAP quality in
  (urls = [] -> select_url quality (keyed urls) = Ret JNull)
  /\ (forall i j pref k v,
        prefs !! i = Some pref ->
        urls !! j = Some (k, v) ->
        eligible pref (k, v) = true ->
        (forall i' j' pref' kv', earlier i' j' i j ->
           prefs !! i' = Some pref' -> urls !! j' = Some kv' ->
           eligible pref' kv' = false) ->
        select_url quality (keyed urls) = Ret v)
  /\ (forall k v rest,
        urls = (k, v) :: rest ->
        (forall pref kv, pref ∈ prefs -> kv ∈ urls ->
                         eligible pref kv = false) ->
        select_url quality (keyed urls) = Ret v).
Proof.
  intros prefs. subst prefs. split; [|split].
  - intros ->. reflexivity.
  - intros i j pref k v Hi Hj He Hbefore.
    unfold select_url. destruct urls as [|[k0 v0] rest]; [discriminate|].
    cbn [keyed map fst snd].
    change ((JStr k0, v0) :: map (fun kv => (JStr kv.1, kv.2)) rest)
      with (keyed ((k0, v0) :: rest)).
    by rewrite (scan_prefs_found _ _ i j pref k v Hi Hj He Hbefore).
  - intros k v rest -> Hnone. unfold select_url. cbn [keyed map fst snd].
    change ((JStr k, v) :: map (fun kv => (JStr kv.1, kv.2)) rest)
      with (keyed ((k, v) :: rest)).
    by rewrite (scan_prefs_none _ _ Hnone).
Qed.

End ResolverProofs.

(* ===================================================================== *)
(** ** The watchlist monitor *)
(* ===================================================================== *)

Section MonitorFacts.

Variable resolve : string -> string -> M (list NetEvent) TikTokAPI.LiveInfo.
Variable env_of : string -> Env.
Variable monitoring : nat -> bool.
Variable notify_live : string -> TikTokAPI.LiveInfo -> res unit.

Abbreviation visit1 := (visit resolve env_of notify_live).
Abbreviation round := (cycle resolve env_of monitoring notify_live).

(** A visit returns whatever its body does. *)
Lemma visit_returns u a : snd (visit1 u a) = Ret tt.
Proof.
  unfold visit, try_pass, try_except.
  by destruct (visit_body resolve env_of notify_live u a) as [a' [[]|e]].
Qed.

Lemma visit_eq u a : visit1 u a = (fst (visit1 u a), Ret tt).
Proof. rewrite <- (visit_returns u a). by destruct (visit1 u a). Qed.

(** A round returns. *)
Lemma cycle_returns k handles a : snd (round k handles a) = Ret tt.
Proof.
  revert k a. induction handles as [|u rest IH]; intros k a; [done|].
  cbn [cycle]. destruct (monitoring k); [|done]. cbn [negb].
  rewrite (bind_eq _ _ _ _ _ (visit_eq u a)). apply IH.
Qed.

Hypothesis always_on : forall k, monitoring k = true.

(** With the flag left on, a round visits its first handle and goes on
    with the rest; the count of flag reads does not matter. *)
Lemma cycle_cons k u rest a :
  round k (u :: rest) a = round (S k) rest (fst (visit1 u a)).
Proof.
  cbn [cycle]. rewrite always_on. cbn [negb].
  by rewrite (bind_eq _ _ _ _ _ (visit_eq u a)).
Qed.

Lemma cycle_index k k' handles a :
  fst (round k handles a) = fst (round k' handles a).
Proof.
  revert k k' a. induction handles as [|u rest IH]; intros k k' a; [done|].
  rewrite !cycle_cons. apply IH.
Qed.

(** A round over a concatenation is the round over the second part run
    after the round over the first. *)
Lemma cycle_app k pre post a :
  fst (round k (pre ++ post) a)
  = fst (round (k + length pre) post (fst (round k pre a))).
Proof.
  revert k a. induction pre as [|u pre IH]; intros k a.
  - simpl. by rewrite Nat.add_0_r.
  - cbn [app length]. rewrite !cycle_cons, IH. f_equal. f_equal. lia.
Qed.

(** What one visit does, by the outcome of the resolution. *)
Lemma visit_resolved u a n info :
  resolve u (quality (m_config (multi a))) (net_log a) = (n, Ret info) ->
  user_status (fst (visit1 u a)) !! u = Some info
  /\ (TikTokAPI.is_live info = true ->
      MultiRecorder.is_recording (multi a) u = false ->
      multi (fst (visit1 u a))
      = fst (MultiRecorder.start (env_of u) u (TikTokAPI.stream_url info)
               (TikTokAPI.title info) (TikTokAPI.live_page_url u) (multi a))
      /\ EvAutoStart u ∈ app_log (fst (visit1 u a))).
Proof.
  intros Hres.
  unfold visit, try_pass, try_except, visit_body, call_resolve,
    call_start, record_status, app_emit, lift, bind, modify, get_st, when,
    ret.
  cbn [multi user_status net_log app_log]. rewrite Hres.
  cbn [multi user_status net_log app_log].
  destruct (TikTokAPI.is_live info) eqn:Hl; cbn [andb].
  2:{ cbn. rewrite lookup_insert_eq. split; [done|]. done. }
  destruct (MultiRecorder.is_recording (multi a) u) eqn:Hr; cbn [negb].
  { cbn. rewrite lookup_insert_eq. split; [done|]. done. }
  destruct (MultiRecorder.start _ _ _ _ _ _) as [ms [[|]|e]]; cbn;
    try destruct (notify_live u info); cbn;
    rewrite lookup_insert_eq; (split; [done|]); intros _ _;
    (split; [done|]); set_solver.
Qed.

(** A visit whose resolution raises changes the logs only. *)
Lemma visit_resolve_failed u a n e :
  resolve u (quality (m_config (multi a))) (net_log a) = (n, Raise e) ->
  visit1 u a
  = (mkApp (multi a) (user_status a) n (app_log a ++ [EvResolve u]), Ret tt).
Proof.
  intros Hres.
  unfold visit, try_pass, try_except, visit_body, call_resolve,
    app_emit, bind, modify.
  cbn [multi user_status net_log app_log]. by rewrite Hres.
Qed.

(** A visit calls the resolver once, and a round once per handle in
    order. *)
Lemma visit_resolves u a :
  List.filter is_resolve (app_log (fst (visit1 u a)))
  = (List.filter is_resolve (app_log a) ++ [EvResolve u])%list.
Proof.
  unfold visit, try_pass, try_except, visit_body, call_resolve,
    call_start, record_status, app_emit, lift, bind, modify, get_st, when,
    ret.
  cbn [multi user_status net_log app_log].
  destruct (resolve u _ _) as [n [info|e]];
    cbn [multi user_status net_log app_log fst].
  2:{ rewrite List.filter_app. done. }
  destruct (TikTokAPI.is_live info && _).
  - destruct (MultiRecorder.start _ _ _ _ _ _) as [ms [[|]|e]]; cbn;
      try destruct (notify_live u info); cbn;
      rewrite !List.filter_app; cbn; by rewrite ?app_nil_r.
  - cbn. rewrite !List.filter_app. cbn. by rewrite ?app_nil_r.
Qed.

Lemma cycle_resolves k handles a :
  List.filter is_resolve (app_log (fst (round k handles a)))
  = (List.filter is_resolve (app_log a) ++ map EvResolve handles)%list.
Proof.
  revert k a. induction handles as [|u rest IH]; intros k a.
  - simpl. by rewrite app_nil_r.
  - rewrite cycle_cons, IH, visit_resolves. by rewrite <- app_assoc.
Qed.

(** Claim C9. In one round over the watchlist, with the monitoring flag
  left on, and whatever the resolver, the recorder start and the
  notifier do, raising included: the round returns; the resolver is called once for every
  handle, in order; and for every handle of the list the round is the
  rest of the round run from the state that the visit of this handle
  leaves, that visit being made from the state the earlier handles
  left; if its resolution returns, the status of the handle is
  recorded, and if it is live and not recording, the registry's start
  is called for it. *)
Theorem monitor_cycle_survives_errors handles a :
  let a' := fst (round 0 handles a) in
  snd (round 0 handles a) = Ret tt
  /\ List.filter is_resolve (app_log a')
     = (List.filter is_resolve (app_log a) ++ map EvResolve handles)%list
  /\ forall pre u post,
       handles = (pre ++ u :: post)%list ->
       let before := fst (round 0 pre a) in
       let after := fst (visit1 u before) in
       a' = fst (round (S (length pre)) post after)
       /\ forall n info,
            resolve u (quality (m_config (multi before))) (net_log before)
            = (n, Ret info) ->
            user_status after !! u = Some info
            /\ (TikTokAPI.is_live info = true ->
                MultiRecorder.is_recording (multi before) u = false ->
                multi after
                = fst (MultiRecorder.start (env_of u) u
                         (TikTokAPI.stream_url info) (TikTokAPI.title info)
                         (TikTokAPI.live_page_url u) (multi before))
                /\ EvAutoStart u ∈ app_log after).
Proof.
  intros a'. split; [apply cycle_returns|]. split; [apply cycle_resolves|].
  intros pre u post -> before after. split.
  - subst a'. rewrite cycle_app, cycle_cons. apply cycle_index.
  - intros n info Hres. by apply (visit_resolved u before n info).
Qed.

End MonitorFacts.

(** The round over [a; b; c] in which resolving [b] raises. *)
Lemma monitor_round_witness :
  let round :=
    cycle Round.flaky Round.env_of (fun _ => true) Round.silent 0
      Round.handles Round.app in
  snd round = Ret tt
  /\ List.filter is_resolve (app_log (fst round))
     = [EvResolve "a"; EvResolve "b"; EvResolve "c"].
Proof.
  pose proof (monitor_cycle_survives_errors Round.flaky Round.env_of
                (fun _ => true) Round.silent (fun _ => eq_refl)
                Round.handles Round.app)
    as (H1 & H2 & _).
  split; [exact H1|exact H2].
Defined.

(** The round of the specification: [b] fails to resolve, [a] and [c] are
    resolved, recorded and started. *)
Example round_with_failing_handle :
  let round :=
    cycle Round.flaky Round.env_of (fun _ => true) Round.silent 0
      Round.handles Round.app in
  app_log (fst round)
  = [EvResolve "a"; EvAutoStart "a"; EvNotifyLive "a"; EvQueuePut "a";
     EvResolve "b";
     EvResolve "c"; EvAutoStart "c"; EvNotifyLive "c"; EvQueuePut "c"]
  /\ user_status (fst round) !! "a" = Some (Round.live "a")
  /\ user_status (fst round) !! "b" = None
  /\ user_status (fst round) !! "c" = Some (Round.live "c")
  /\ MultiRecorder.is_recording (multi (fst round)) "c" = true.
Proof. repeat split; vm_compute; reflexivity. Qed.

(* ===================================================================== *)
(** ** Starting a capture *)
(* ===================================================================== *)

Section StartProofs.
Import Recorder.

(** A non-empty prefix makes a non-empty message. *)
Lemma prefixed_nonempty (p m : string) : p <> "" -> p ++ m <> "".
Proof. destruct p; [done|]. intros _. discriminate. Qed.

Ltac start_done :=
  eexists _, _; rewrite <- ?app_assoc;
  repeat split; try reflexivity; try done; eauto;
  try (eexists; (split; [reflexivity|]); by apply prefixed_nonempty).

(** Everything [Recorder.start] does on an idle recorder with a string
    title, by the three ways each capture launch can go. *)
Lemma start_idle env user s_url ttl l_url s :
  is_recording (rec s) = false ->
  exists out r' l,
    _generate_filename (world s) (config s)
      (reset_for_start env user s_url (JStr ttl) l_url (rec s)) (clock env)
    = Ret out
    /\ start env user s_url (JStr ttl) l_url s
       = (mkRState (world s) (config s) r' (log s ++ l),
          Ret (ffmpeg_starts env (world s) s_url || alive (spawn_ytdlp env)))
    /\ output_file r' = Some out
    /\ raw_recording_file r' = Some (raw_of out)
    /\ username r' = user
    /\ is_stopping r' = false
    /\ is_recording r'
       = ffmpeg_starts env (world s) s_url || alive (spawn_ytdlp env)
    /\ List.filter is_spawn l
       = ((if ffmpeg_tried (world s) s_url
           then [EvSpawn "ffmpeg" (raw_of out)] else [])
          ++ (if ffmpeg_starts env (world s) s_url then []
              else [EvSpawn "yt-dlp" (raw_of out)]))%list
    /\ (is_recording r' = true ->
        is_Some (process r')
        /\ actual_recording_file r' = Some (raw_of out)
        /\ recording_method r'
           = (if ffmpeg_starts env (world s) s_url then "ffmpeg" else "yt-dlp")
        /\ occurrences is_notify_start l = 1%nat
        /\ occurrences is_monitor_thread l = 1%nat)
    /\ (is_recording r' = false ->
        (exists msg, last_error r' = Some msg /\ msg <> "")
        /\ actual_recording_file r' = None
        /\ occurrences is_notify_start l = 0%nat
        /\ occurrences is_monitor_thread l = 0%nat).
Proof.
  intros Hr. unfold start.
  rewrite (bind_eq _ _ s s s) by reflexivity. rewrite Hr.
  erewrite bind_eq by reflexivity.
  erewrite bind_eq by reflexivity.
  cbn [world config rec log].
  match goal with |- context [_generate_filename ?w ?c ?r ?k] =>
    destruct (_generate_filename w c r k) as [out|e] eqn:G end.
  2:{ unfold _generate_filename in G. destruct (rec s); discriminate G. }
  exists out.
  erewrite bind_eq by reflexivity.
  erewrite bind_eq by reflexivity.
  cbn [world config rec log].
  unfold _start_ffmpeg, _start_ytdlp, raw_target, after_spawn, _find_ffmpeg,
    try_except, bind, emit, upd_rec, modify, get_st, ret, raise, lift,
    ffmpeg_starts, ffmpeg_tried, raw_of.
  clear G.
  destruct (rec s) eqn:Hrec; cbn in Hr; subst.
  cbn -[OsPath.splitext String.append PyStr.take].
  destruct (Py.truthy s_url); cbn -[OsPath.splitext String.append PyStr.take].
  - destruct (has_ffmpeg (world s));
      cbn -[OsPath.splitext String.append PyStr.take].
    + destruct s_url; cbn -[OsPath.splitext String.append PyStr.take];
        destruct (spawn_ffmpeg env);
        cbn -[OsPath.splitext String.append PyStr.take];
        try (solve [start_done]);
        destruct (spawn_ytdlp env);
        cbn -[OsPath.splitext String.append PyStr.take];
        start_done.
    + destruct (spawn_ytdlp env);
        cbn -[OsPath.splitext String.append PyStr.take];
        start_done.
  - destruct (spawn_ytdlp env);
      cbn -[OsPath.splitext String.append PyStr.take];
      start_done.
Qed.

(** Extra X1. [Recorder.start] on a recorder that is recording returns
    false and changes nothing. On an idle recorder, with a string title,
    it returns a boolean and leaves the files and the configuration as
    they were; the recorder is recording exactly when it returned true.
    When it returns true the process handle is set, the raw and the
    tracked file are the output path with the extension [.flv], and one
    start notification and one monitor thread were issued; when it
    returns false the recorder holds a non-empty error message, tracks no
    file, and nothing was notified or started. *)
Theorem start_launches_or_reports env user s_url ttl l_url s :
  (is_recording (rec s) = true ->
   start env user s_url ttl l_url s = (s, Ret false))
  /\ (is_recording (rec s) = false ->
      forall t, ttl = JStr t ->
      let s' := fst (start env user s_url ttl l_url s) in
      exists b out l,
        snd (start env user s_url ttl l_url s) = Ret b
        /\ world s' = world s /\ config s' = config s
        /\ log s' = (log s ++ l)%list
        /\ is_recording (rec s') = b
        /\ is_stopping (rec s') = false
        /\ username (rec s') = user
        /\ output_file (rec s') = Some out
        /\ raw_recording_file (rec s') = Some (raw_of out)
        /\ (b = true ->
            is_Some (process (rec s'))
            /\ actual_recording_file (rec s') = Some (raw_of out)
            /\ occurrences is_notify_start l = 1%nat
            /\ occurrences is_monitor_thread l = 1%nat)
        /\ (b = false ->
            (exists msg, last_error (rec s') = Some msg /\ msg <> "")
            /\ actual_recording_file (rec s') = None
            /\ occurrences is_notify_start l = 0%nat
            /\ occurrences is_monitor_thread l = 0%nat)).
Proof.
  split.
  - intros Hr. unfold start, bind, get_st. by rewrite Hr.
  - intros Hr t -> s'.
    destruct (start_idle env user s_url t l_url s Hr)
      as (out & r' & l & _ & E & Ho & Hraw & Hu & Hst & Hrec & _ & Ht & Hf).
    subst s'. rewrite E. cbn [fst snd world config rec log].
    exists (ffmpeg_starts env (world s) s_url || alive (spawn_ytdlp env)),
      out, l.
    repeat (split; [done|]). split.
    + intros Hb. rewrite Hb in Hrec.
      destruct (Ht Hrec) as (H1 & H2 & _ & H3 & H4). done.
    + intros Hb. rewrite Hb in Hrec. exact (Hf Hrec).
Qed.

(** Extra X2. On an idle recorder with a string title, [Recorder.start]
    tries the direct capture first, and only when the stream URL is
    truthy and the tool can be launched; the extractor capture is
    launched exactly when the direct one was not tried or did not stay
    alive. The call returns true exactly when one of the two captures
    stays alive, and the recording method names the one that did. *)
Theorem start_prefers_direct_capture env user s_url ttl l_url s :
  is_recording (rec s) = false ->
  let st := start env user s_url (JStr ttl) l_url s in
  let direct := ffmpeg_starts env (world s) s_url in
  exists out l,
    output_file (rec (fst st)) = Some out
    /\ log (fst st) = (log s ++ l)%list
    /\ snd st = Ret (direct || alive (spawn_ytdlp env))
    /\ List.filter is_spawn l
       = ((if ffmpeg_tried (world s) s_url
           then [EvSpawn "ffmpeg" (raw_of out)] else [])
          ++ (if direct then [] else [EvSpawn "yt-dlp" (raw_of out)]))%list
    /\ (snd st = Ret true ->
        recording_method (rec (fst st))
        = (if direct then "ffmpeg" else "yt-dlp")).
Proof.
  intros Hr st direct.
  destruct (start_idle env user s_url ttl l_url s Hr)
    as (out & r' & l & _ & E & Ho & _ & _ & _ & Hrec & Hsp & Ht & _).
  subst st. rewrite E. cbn [fst snd rec log].
  exists out, l. repeat (split; [done|]).
  intros [= Hb]. subst direct. rewrite Hb in Hrec.
  by destruct (Ht Hrec) as (_ & _ & ? & _).
Qed.

(** The stream URL is empty: only the extractor capture is launched. *)
Lemma start_without_stream_url_witness :
  let s := mkRState (Sample.world_of 100000 true) Sample.cfg new_recorder [] in
  let st :=
    start (Sample.env_of Sample.run_second) "bob" (JStr "") (JStr "hello")
      "https://www.tiktok.com/@bob/live" s in
  exists out l,
    output_file (rec (fst st)) = Some out
    /\ log (fst st) = (log s ++ l)%list
    /\ snd st = Ret true
    /\ List.filter is_spawn l = [EvSpawn "yt-dlp" (raw_of out)]
    /\ (snd st = Ret true -> recording_method (rec (fst st)) = "yt-dlp").
Proof.
  apply (start_prefers_direct_capture (Sample.env_of Sample.run_second) "bob"
           (JStr "") "hello" "https://www.tiktok.com/@bob/live"
           (mkRState (Sample.world_of 100000 true) Sample.cfg new_recorder [])).
  reflexivity.
Defined.

End StartProofs.

(* ===================================================================== *)
(** ** Admission of start requests *)
(* ===================================================================== *)

Section RegistryAdmission.
Import Recorder.

(** A title that is not a string: [start] raises while it builds the
    file name, before anything is launched. *)
Lemma start_bad_title env user s_url ttl l_url s :
  is_recording (rec s) = false ->
  match ttl with JStr _ => false | _ => true end = true ->
  exists r' e,
    start env user s_url ttl l_url s
    = (mkRState (world s) (config s) r' (log s), Raise e)
    /\ is_recording r' = false.
Proof.
  intros Hr Ht. unfold start.
  rewrite (bind_eq _ _ s s s) by reflexivity. rewrite Hr.
  erewrite bind_eq by reflexivity.
  erewrite bind_eq by reflexivity.
  cbn [world config rec log].
  unfold _generate_filename, reset_for_start. cbn [title].
  destruct ttl; try discriminate Ht;
    unfold bind, lift; eexists _, _; (split; [reflexivity|]); exact Hr.
Qed.

(** Appending a recorder that is not recording activates no handle. *)
Lemma append_keeps_inactive ms user r' w c lg :
  MultiRecorder.active ms user = false -> is_recording r' = false ->
  MultiRecorder.active
    (mkMState w c (heap ms ++ [r'])%list (recorders ms) lg) user = false.
Proof.
  unfold MultiRecorder.active, MultiRecorder.registered. cbn [recorders heap].
  intros Ha Hr. destruct (recorders ms !! user) as [i|]; [|done].
  destruct (heap ms !! i) as [r|] eqn:Hi.
  - by rewrite (lookup_app_l_Some _ _ _ _ Hi).
  - apply lookup_ge_None in Hi. rewrite lookup_app_r by done.
    destruct (i - length (heap ms))%nat as [|k]; [exact Hr|done].
Qed.

(** Whether a start request for a handle that is not recording is
    admitted, and what it leaves when it is not. *)
Lemma start_admission env user s_url ttl l_url ms :
  MultiRecorder.active ms user = false ->
  let r := MultiRecorder.start env user s_url ttl l_url ms in
  admitted (snd r) = can_launch env (m_world ms) s_url ttl
  /\ m_world (fst r) = m_world ms
  /\ (admitted (snd r) = false -> MultiRecorder.active (fst r) user = false).
Proof.
  intros Ha r. subst r. unfold MultiRecorder.start, can_launch. rewrite Ha.
  destruct (mkdir_output env) as [[]|e]; cbn [is_ret andb]; [|done].
  destruct (match ttl with JStr _ => false | _ => true end) eqn:Ht.
  - destruct (start_bad_title env user s_url ttl l_url
                (mkRState (m_world ms) (m_config ms) new_recorder (m_log ms))
                eq_refl Ht) as (r' & e & -> & Hr).
    cbn [world config rec log fst snd admitted].
    assert (Hf : match ttl with JStr _ => true | _ => false end = false)
      by (by destruct ttl).
    rewrite Hf. cbn [andb]. repeat split; [done..|].
    intros _. by apply append_keeps_inactive.
  - destruct ttl as [| | |t| |]; try discriminate Ht. cbn [andb].
    destruct (start_idle env user s_url t l_url
                (mkRState (m_world ms) (m_config ms) new_recorder (m_log ms))
                eq_refl)
      as (out & r' & l & _ & E & _ & _ & _ & _ & Hrec & _).
    cbn [world config rec log] in E. rewrite E.
    cbn [world config rec log] in Hrec.
    destruct (ffmpeg_starts env (m_world ms) s_url || alive (spawn_ytdlp env));
      cbn [fst snd admitted m_world]; (split; [done|]); (split; [done|]);
      [done|].
    intros _. by apply append_keeps_inactive.
Qed.

(** Claim C2, as amended. In every registry state reachable from the empty
    registry by start requests, stop-all, passes of the monitor threads
    and changes of the files, at most one recorder object per handle is
    recording; a start for a handle whose registered recorder is recording
    returns false and leaves the whole state, registry map and recorder
    included, as it was; and of two start requests in a row for one
    handle never both are admitted: once the first is admitted the second
    returns false and changes nothing. For a handle that is not
    recording, a request is admitted exactly when a capture can be
    launched for it and no earlier one was admitted: so exactly one of
    the two is admitted whenever a capture can be launched for one of
    them, and neither when it can be launched for neither. *)
Theorem registry_admits_one_session_per_handle :
  (forall ms, reachable ms ->
     forall i j ri rj,
       heap ms !! i = Some ri -> heap ms !! j = Some rj ->
       is_recording ri = true -> is_recording rj = true ->
       username ri = username rj -> i = j)
  /\ (forall env user s_url ttl l_url ms,
        MultiRecorder.active ms user = true ->
        MultiRecorder.start env user s_url ttl l_url ms = (ms, Ret false))
  /\ (forall env1 env2 user u1 t1 l1 u2 t2 l2 ms,
        let first := MultiRecorder.start env1 user u1 t1 l1 ms in
        let second := MultiRecorder.start env2 user u2 t2 l2 (fst first) in
        (admitted (snd first) = true -> second = (fst first, Ret false))
        /\ admitted (snd first) && admitted (snd second) = false
        /\ (MultiRecorder.active ms user = false ->
            admitted (snd first) = can_launch env1 (m_world ms) u1 t1
            /\ admitted (snd second)
               = negb (can_launch env1 (m_world ms) u1 t1)
                 && can_launch env2 (m_world ms) u2 t2
            /\ (can_launch env1 (m_world ms) u1 t1
                || can_launch env2 (m_world ms) u2 t2 = true ->
                exactly_one_admitted (snd first) (snd second))
            /\ (can_launch env1 (m_world ms) u1 t1 = false ->
                can_launch env2 (m_world ms) u2 t2 = false ->
                admitted (snd first) = false
                /\ admitted (snd second) = false))).
Proof.
  split; [|split].
  - intros ms Hreach i j ri rj Hi Hj Hri Hrj Hu.
    pose proof (reachable_registry_ok ms Hreach) as Hok.
    destruct (Hok i ri Hi) as [_ Ki]. destruct (Hok j rj Hj) as [_ Kj].
    specialize (Ki Hri). specialize (Kj Hrj). rewrite Hu in Ki. congruence.
  - apply start_refused.
  - intros env1 env2 user u1 t1 l1 u2 t2 l2 ms first second.
    assert (H : admitted (snd first) = true -> second = (fst first, Ret false)).
    { intros Hadm. apply start_refused.
      by apply start_admitted_then_active. }
    split; [exact H|]. split.
    { destruct (admitted (snd first)) eqn:Hadm; [|done].
      rewrite (H eq_refl). done. }
    intros Ha.
    destruct (start_admission env1 user u1 t1 l1 ms Ha) as (A1 & W1 & I1).
    fold first in A1, W1, I1.
    assert (A2 : admitted (snd second)
                 = negb (can_launch env1 (m_world ms) u1 t1)
                   && can_launch env2 (m_world ms) u2 t2).
    { destruct (can_launch env1 (m_world ms) u1 t1) eqn:C1; cbn [negb andb].
      - by rewrite (H A1).
      - destruct (start_admission env2 user u2 t2 l2 (fst first) (I1 A1))
          as (A2 & _ & _).
        fold second in A2. by rewrite A2, W1. }
    split; [exact A1|]. split; [exact A2|]. unfold exactly_one_admitted.
    rewrite A1, A2.
    destruct (can_launch env1 (m_world ms) u1 t1),
      (can_launch env2 (m_world ms) u2 t2); cbn; split; done.
Qed.

(** A capture that launches: the first start is admitted, the second
    refused. *)
Lemma registry_second_start_refused_witness :
  let first :=
    MultiRecorder.start (Sample.env_of Sample.run_second) "bob"
      (JStr "https://pull.example/bob_hd.flv") (JStr "hello")
      "https://www.tiktok.com/@bob/live" Dead.registry in
  let second :=
    MultiRecorder.start Dead.env "bob" (JStr "https://pull.example/bob_hd.flv")
      (JStr "hello") "https://www.tiktok.com/@bob/live" (fst first) in
  admitted (snd first) = true /\ second = (fst first, Ret false).
Proof.
  split; [vm_compute; reflexivity|].
  apply (proj1 (proj2 (proj2 registry_admits_one_session_per_handle)
                  (Sample.env_of Sample.run_second) Dead.env "bob"
                  (JStr "https://pull.example/bob_hd.flv") (JStr "hello")
                  "https://www.tiktok.com/@bob/live"
                  (JStr "https://pull.example/bob_hd.flv") (JStr "hello")
                  "https://www.tiktok.com/@bob/live" Dead.registry)).
  vm_compute; reflexivity.
Defined.

End RegistryAdmission.

(* ===================================================================== *)
(** ** The life cycle of a session *)
(* ===================================================================== *)

Section LifeCycleProofs.
Import Recorder.

(** One pass of the monitor loop either leaves the log and the flags
    alone, or completes a recording that was on: then it finalizes
    once. *)
Lemma monitor_step_shape env exited s :
  exists s' b l,
    monitor_step env exited s = (s', Ret b)
    /\ log s' = (log s ++ l)%list
    /\ is_stopping (rec s') = is_stopping (rec s)
    /\ ((l = [] /\ is_recording (rec s') = is_recording (rec s))
        \/ (is_recording (rec s) = true /\ is_recording (rec s') = false
            /\ occurrences is_notify_end l = 1%nat
            /\ (occurrences is_callback l <= 1)%nat)).
Proof.
  unfold monitor_step.
  rewrite (bind_eq _ _ s s s) by reflexivity.
  destruct (stop_event (rec s) || negb (is_recording (rec s))) eqn:G.
  { exists s, false, []. rewrite app_nil_r. repeat split; try done. by left. }
  apply orb_false_iff in G as [_ Hrec]. apply negb_false_iff in Hrec.
  set (s1 := fst (when (PyStr.truthy (_find_actual_file (world s) (rec s)))
                    (upd_rec (set_actual_recording_file
                                (_find_actual_file (world s) (rec s)))) s)).
  assert (E1 : when (PyStr.truthy (_find_actual_file (world s) (rec s)))
                 (upd_rec (set_actual_recording_file
                             (_find_actual_file (world s) (rec s)))) s
               = (s1, Ret tt)).
  { subst s1. unfold when. destruct (PyStr.truthy _); reflexivity. }
  assert (F1 : is_stopping (rec s1) = is_stopping (rec s)
               /\ log s1 = log s
               /\ is_recording (rec s1) = is_recording (rec s)).
  { subst s1. unfold when. destruct (PyStr.truthy _); simpl;
      by destruct (rec s). }
  clearbody s1.
  rewrite (bind_eq _ _ _ _ _ E1).
  rewrite (bind_eq _ _ s1 s1 s1) by reflexivity.
  destruct F1 as (F1 & F2 & F3).
  assert (Hkeep : exists s' b l,
            (s1, @Ret bool true) = (s', Ret b)
            /\ log s' = (log s ++ l)%list
            /\ is_stopping (rec s') = is_stopping (rec s)
            /\ ((l = [] /\ is_recording (rec s') = is_recording (rec s))
                \/ (is_recording (rec s) = true /\ is_recording (rec s') = false
                    /\ occurrences is_notify_end l = 1%nat
                    /\ (occurrences is_callback l <= 1)%nat))).
  { exists s1, true, []. rewrite app_nil_r. repeat split; try done. by left. }
  destruct (process (rec s1)); [|exact Hkeep].
  destruct exited; [|exact Hkeep].
  assert (Hr1 : is_recording (rec s1) = true) by congruence.
  unfold bind. rewrite (complete_eq env s1 Hr1).
  match goal with |- context [_complete_after_stop env ?st] =>
    destruct (complete_after_stop_shape env st)
      as (w' & c' & o' & l2 & -> & _ & N & C) end.
  cbn [world config rec log] in *.
  eexists _, false, l2. split; [reflexivity|]. cbn [log rec].
  rewrite F2. split; [done|]. split.
  { rewrite <- F1. by destruct (rec s1). }
  right. split; [done|]. split; [by destruct (rec s1)|]. split; [done|].
  rewrite C. destruct (on_complete _); lia.
Qed.

(** What one action does to a recorder that is not inside a stop. *)
Lemma run_action_shape a s :
  is_stopping (rec s) = false ->
  exists s' l,
    run_action a s = (s', Ret tt)
    /\ log s' = (log s ++ l)%list
    /\ is_stopping (rec s') = false
    /\ ((l = [] /\ is_recording (rec s') = is_recording (rec s)
         /\ (is_call_stop a = true -> is_recording (rec s) = false))
        \/ (is_recording (rec s) = true /\ is_recording (rec s') = false
            /\ occurrences is_notify_end l = 1%nat
            /\ (occurrences is_callback l <= 1)%nat)).
Proof.
  intros Hs. destruct a as [env|env exited]; cbn [run_action is_call_stop].
  - destruct (stop_refused (rec s)) eqn:Hr.
    + rewrite (stop_refused_noop env s Hr). exists s, [].
      rewrite app_nil_r. repeat split; try done. left. repeat split; try done.
      intros _. unfold stop_refused in Hr. rewrite Hs, orb_false_r in Hr.
      by apply negb_true_iff in Hr.
    + destruct (stop_accepted_shape env s Hr)
        as (w' & c' & r' & l & -> & H1 & H2 & _ & _ & N & _ & C).
      eexists _, l. split; [reflexivity|]. cbn [log rec].
      repeat split; try done. right.
      unfold stop_refused in Hr. apply orb_false_iff in Hr as [Hr _].
      apply negb_false_iff in Hr. repeat split; try done.
      rewrite C. destruct (on_complete _); lia.
  - destruct (monitor_step_shape env exited s)
      as (s' & b & l & E & Hl & Hst & H).
    unfold bind. rewrite E. exists s', l. split; [reflexivity|].
    split; [done|]. split; [congruence|].
    destruct H as [[-> H]|H]; [left|right]; done.
Qed.

(** Any sequence of actions on a recorder that is not inside a stop. *)
Lemma run_actions_shape acts s :
  is_stopping (rec s) = false ->
  exists s' l,
    run_actions acts s = (s', Ret tt)
    /\ log s' = (log s ++ l)%list
    /\ is_stopping (rec s') = false
    /\ (occurrences is_notify_end l <= 1)%nat
    /\ (occurrences is_callback l <= 1)%nat
    /\ (is_recording (rec s) = false ->
        l = [] /\ is_recording (rec s') = false)
    /\ (is_recording (rec s) = true ->
        existsb is_call_stop acts = true ->
        occurrences is_notify_end l = 1%nat
        /\ is_recording (rec s') = false)
    /\ (occurrences is_notify_end l = 0%nat ->
        is_recording (rec s') = is_recording (rec s)).
Proof.
  revert s. induction acts as [|a rest IH]; intros s Hs.
  { exists s, []. rewrite app_nil_r.
    repeat split; try done; try (cbn; lia); cbn in *; congruence. }
  destruct (run_action_shape a s Hs) as (s1 & l1 & E1 & Hl1 & Hs1 & H1).
  destruct (IH s1 Hs1) as (s2 & l2 & E2 & Hl2 & Hs2 & N2 & C2 & F2 & T2 & Z2).
  exists s2, (l1 ++ l2)%list.
  split.
  { unfold run_actions in *. cbn [for_each].
    by rewrite (bind_eq _ _ _ _ _ E1). }
  split; [by rewrite Hl2, Hl1, app_assoc|]. split; [done|].
  rewrite !occurrences_app.
  destruct H1 as [(-> & Hr1 & Hstop)|(Hr & Hr1 & N1 & C1)].
  - cbn [occurrences List.filter length Nat.add app].
    split; [done|]. split; [done|]. split.
    { intros Hf. rewrite Hf in Hr1. by apply F2. }
    split.
    { intros Ht Hsome. rewrite Ht in Hr1. apply T2; [done|].
      cbn [existsb] in Hsome. apply orb_true_iff in Hsome as [Ha|Hsome]; [|done].
      specialize (Hstop Ha). congruence. }
    intros Hz. rewrite <- Hr1. by apply Z2.
  - destruct (F2 Hr1) as [-> Hr2]. rewrite app_nil_r.
    change (occurrences is_notify_end []) with 0%nat.
    change (occurrences is_callback []) with 0%nat.
    rewrite !Nat.add_0_r.
    split; [lia|]. split; [done|]. split; [congruence|].
    split; [done|]. intros Hz. lia.
Qed.

(** Extra X3. Whatever calls of [stop] and passes of the monitor loop
    follow one another on a recorder, with whatever the capture process
    and the conversion do: every call returns, the recording is
    finalized at most once (one end notification, at most one callback),
    nothing is finalized on a recorder that was not recording, and as
    soon as one of the actions is a [stop] a recording that was on is
    finalized exactly once and is off afterwards. *)
Theorem session_finalized_at_most_once acts s :
  is_stopping (rec s) = false ->
  let s' := fst (run_actions acts s) in
  exists l,
    snd (run_actions acts s) = Ret tt
    /\ log s' = (log s ++ l)%list
    /\ (occurrences is_notify_end l <= 1)%nat
    /\ (occurrences is_callback l <= 1)%nat
    /\ (is_recording (rec s) = false ->
        l = [] /\ is_recording (rec s') = false)
    /\ (is_recording (rec s) = true ->
        existsb is_call_stop acts = true ->
        occurrences is_notify_end l = 1%nat
        /\ is_recording (rec s') = false).
Proof.
  intros Hs s'.
  destruct (run_actions_shape acts s Hs)
    as (s2 & l & E & Hl & _ & N & C & F & T & _).
  subst s'. rewrite E. exists l. done.
Qed.

(** The capture ends on its own, then the user stops twice while the
    monitor loop makes one more pass. *)
Lemma session_finalized_once_witness :
  let env := Sample.env_of Sample.run_second in
  let s := Sample.state_of 100000 true in
  let acts :=
    [MonitorPass env true; CallStop env; MonitorPass env false;
     CallStop env] in
  let s' := fst (run_actions acts s) in
  exists l,
    snd (run_actions acts s) = Ret tt
    /\ log s' = (log s ++ l)%list
    /\ (occurrences is_notify_end l <= 1)%nat
    /\ (occurrences is_callback l <= 1)%nat
    /\ (is_recording (rec s) = false ->
        l = [] /\ is_recording (rec s') = false)
    /\ (is_recording (rec s) = true ->
        existsb is_call_stop acts = true ->
        occurrences is_notify_end l = 1%nat
        /\ is_recording (rec s') = false).
Proof.
  apply (session_finalized_at_most_once
           [MonitorPass (Sample.env_of Sample.run_second) true;
            CallStop (Sample.env_of Sample.run_second);
            MonitorPass (Sample.env_of Sample.run_second) false;
            CallStop (Sample.env_of Sample.run_second)]
           (Sample.state_of 100000 true)).
  reflexivity.
Defined.

End LifeCycleProofs.

(* ===================================================================== *)
(** ** Removal of the raw file *)
(* ===================================================================== *)

Section CleanupProofs.
Import Recorder.

(** What a guarded removal leaves at the path it is given. *)
Lemma remove_quietly_lookup p s S :
  files (world s) !! p = Some S ->
  remove_quietly p s
  = (mkRState
       (if bool_decide (p ∈ locked (world s)) then world s
        else set_files (delete p) (world s))
       (config s) (rec s) (log s), Ret tt).
Proof.
  intros HS.
  unfold remove_quietly, try_pass, try_except, in_world, Os.remove, ret.
  destruct s as [w c r l]; simpl in *.
  case_bool_decide; [reflexivity|]. by rewrite HS.
Qed.

(** [_cleanup_flv] as the ladder calls it: the input is removed when its
    name ends in [.flv] and the removal does not fail, and kept
    otherwise. *)
Lemma cleanup_flv_input inp s S :
  files (world s) !! inp = Some S -> inp <> "" ->
  let flv := PyStr.endswith ".flv" (PyStr.lower inp) in
  exists w',
    _cleanup_flv (if flv then Some inp else None) inp s
    = (mkRState w' (config s) (rec s) (log s), Ret tt)
    /\ files w' !! inp
       = (if flv && negb (bool_decide (inp ∈ locked (world s)))
          then None else Some S).
Proof.
  intros HS Hne flv. unfold _cleanup_flv, bind, get_st, when.
  assert (Hex : Os.path_exists (world s) inp = true).
  { unfold Os.path_exists. rewrite HS. by rewrite bool_decide_eq_true_2 by eauto. }
  assert (Htr : PyStr.truthy (Some inp) = true).
  { simpl. by destruct (String.eqb_spec inp ""). }
  destruct flv eqn:Hflv.
  - unfold Os.truthy_exists. rewrite Htr, Hex. cbn [andb].
    rewrite (remove_quietly_lookup inp s S HS). cbn [world config rec log].
    rewrite bool_decide_eq_true_2 by done. cbn [negb andb].
    eexists. split; [reflexivity|].
    case_bool_decide; cbn [negb]; [done|]. simpl. apply lookup_delete_eq.
  - cbn [Os.truthy_exists]. unfold ret at 1. cbn [world config rec log].
    rewrite Htr. rewrite bool_decide_eq_false_2 by done. cbn [negb andb].
    replace (Os.path_exists (world s) inp) with true.
    subst flv. rewrite Hflv. unfold ret.
    exists (world s). destruct s; split; [reflexivity|done].
Qed.

(** A framed world keeps the input and the set of locked paths. *)
Lemma frame_keeps_input mp4 inp w w' S :
  mp4 <> inp -> frame (eq mp4) w w' -> files w !! inp = Some S ->
  files w' !! inp = Some S /\ locked w' = locked w.
Proof.
  intros Hne (HL & _ & _ & F) HS. split; [|done]. rewrite F; [done|congruence].
Qed.

(** Accepting a step from a state that still holds the input. *)
Lemma accept_output_input inp mp4 s S :
  files (world s) !! inp = Some S -> inp <> "" ->
  let flv := PyStr.endswith ".flv" (PyStr.lower inp) in
  exists w',
    accept_output (if flv then Some inp else None) inp mp4 s
    = (mkRState w' (config s) (set_output_file (Some mp4) (rec s)) (log s),
       Ret tt)
    /\ files w' !! inp
       = (if flv && negb (bool_decide (inp ∈ locked (world s)))
          then None else Some S).
Proof.
  intros HS Hne flv. unfold accept_output, bind.
  destruct (cleanup_flv_input inp s S HS Hne) as (w' & E & H).
  fold flv in E, H. rewrite E. exists w'. split; [reflexivity|done].
Qed.

(** What the [try] block of the conversion leaves at the input path. *)
Lemma ladder_input env inp S s o :
  output_file (rec s) = Some o ->
  files (world s) !! inp = Some S -> inp <> "" ->
  let oc := snd (ladder_plan size_ok (ffmpeg_run env) S all_steps) in
  files (world (fst (ladder env inp S s))) !! inp
  = input_after (PyStr.endswith ".flv" (PyStr.lower inp))
      (bool_decide (inp ∈ locked (world s))) S oc.
Proof.
  intros Ho HS Hnz oc.
  set (mp4 := mp4_output_for o inp).
  assert (Hne : mp4 <> inp) by apply mp4_output_for_ne.
  unfold ladder. unfold bind at 1. unfold get_st. rewrite Ho.
  unfold bind at 1. unfold ret at 1. fold mp4.
  subst oc. unfold all_steps. simpl ladder_plan.
  (* step 1 *)
  unfold bind at 1. rewrite attempt_spec.
  pose proof (after_run_frame env Remux inp mp4 s) as F1.
  set (s1 := after_run env Remux inp mp4 s) in *.
  destruct (frame_keeps_input _ _ _ _ _ Hne F1 HS) as [K1 L1].
  destruct (ffmpeg_run env Remux) as [rc1 o1|e1 o1] eqn:R1; [|exact K1].
  destruct (step_accepts size_ok Remux S (Exited rc1 o1)) eqn:A1.
  { destruct (accept_output_input inp mp4 s1 S K1 Hnz) as (w' & -> & H).
    cbn [fst snd world input_after]. by rewrite H, L1. }
  unfold bind at 1.
  destruct (discard_output_spec mp4 s1) as (w1 & -> & D1).
  set (s1' := mkRState w1 (config s1) (rec s1) (log s1)).
  destruct (frame_keeps_input _ _ (world s1) (world s1') _ Hne D1 K1)
    as [K1' L1'].
  (* step 2 *)
  unfold bind at 1. rewrite attempt_spec.
  pose proof (after_run_frame env AudioAac inp mp4 s1') as F2.
  set (s2 := after_run env AudioAac inp mp4 s1') in *.
  destruct (frame_keeps_input _ _ _ _ _ Hne F2 K1') as [K2 L2].
  destruct (ffmpeg_run env AudioAac) as [rc2 o2|e2 o2] eqn:R2; [|exact K2].
  destruct (step_accepts size_ok AudioAac S (Exited rc2 o2)) eqn:A2.
  { destruct (accept_output_input inp mp4 s2 S K2 Hnz) as (w' & -> & H).
    cbn [fst snd world input_after]. by rewrite H, L2, L1', L1. }
  unfold bind at 1.
  destruct (discard_output_spec mp4 s2) as (w2 & -> & D2).
  set (s2' := mkRState w2 (config s2) (rec s2) (log s2)).
  destruct (frame_keeps_input _ _ (world s2) (world s2') _ Hne D2 K2)
    as [K2' L2'].
  (* step 3 *)
  unfold bind at 1. rewrite attempt_spec.
  pose proof (after_run_frame env FullEncode inp mp4 s2') as F3.
  set (s3 := after_run env FullEncode inp mp4 s2') in *.
  destruct (frame_keeps_input _ _ _ _ _ Hne F3 K2') as [K3 L3].
  destruct (ffmpeg_run env FullEncode) as [rc3 o3|e3 o3] eqn:R3; [|exact K3].
  destruct (step_accepts size_ok FullEncode S (Exited rc3 o3)) eqn:A3.
  { destruct (accept_output_input inp mp4 s3 S K3 Hnz) as (w' & -> & H).
    cbn [fst snd world input_after].
    by rewrite H, L3, L2', L2, L1', L1. }
  exact K3.
Qed.

(** The conversion, when it reaches the ladder, returns and leaves the
    files the ladder leaves. *)
Lemma convert_world env s inp S o :
  find_input (world s) (rec s) = Some inp ->
  files (world s) !! inp = Some S ->
  (51200 <= S)%Z -> has_ffmpeg (world s) = true ->
  output_file (rec s) = Some o ->
  snd (_convert_to_mp4 env s) = Ret tt
  /\ world (fst (_convert_to_mp4 env s))
     = world (fst (ladder env inp S
                     (mkRState (world s) (config s) (rec s)
                        (log s ++ [EvProbeFfmpeg])))).
Proof.
  intros Hin HS Hge Hff Ho.
  set (s0 := mkRState (world s) (config s) (rec s) (log s ++ [EvProbeFfmpeg])).
  assert (Ec : _convert_to_mp4 env s
               = try_except (ladder env inp S)
                   (fun _ =>
                      s <- get_st ;;
                      when (Os.truthy_exists (world s) (Some inp))
                        (upd_rec (set_output_file (Some inp)))) s0).
  { unfold _convert_to_mp4. unfold bind at 1.
    unfold get_st at 1. rewrite Hin. unfold Os.getsize. rewrite HS.
    apply Z.ltb_ge in Hge. rewrite Hge.
    unfold _find_ffmpeg, bind at 1 2 3, emit, modify, get_st at 1, ret at 1.
    simpl. rewrite Hff. reflexivity. }
  rewrite Ec. clear Ec.
  destruct (ladder_spec env inp S s0 o Ho) as (w' & E & F & _).
  unfold try_except. rewrite E. cbn [fst snd world].
  destruct (snd (ladder_plan size_ok (ffmpeg_run env) S all_steps)) eqn:Eoc;
    cbn [result_after fst snd world]; [done|done|].
  unfold bind, get_st, when. cbn [world].
  destruct (Os.truthy_exists w' (Some inp)); done.
Qed.

(** The files after a completion run that reaches the ladder are those
    the ladder leaves. *)
Lemma complete_after_stop_world env s inp S :
  let s1 := fst (adopt_actual_file s) in
  find_input (world s1) (rec s1) = Some inp ->
  files (world s) !! inp = Some S ->
  (51200 <= S)%Z -> has_ffmpeg (world s) = true ->
  world (fst (_complete_after_stop env s))
  = world (fst (ladder env inp S
                  (mkRState (world s) (config s) (adopted (world s) (rec s))
                     (log s ++ [EvProbeFfmpeg])))).
Proof.
  intros s1 Hin HS Hge Hff. subst s1.
  rewrite adopt_actual_file_spec in Hin. simpl in Hin.
  pose proof (find_input_adopted _ _ _ Hin) as Hout.
  destruct (convert_world env
              (mkRState (world s) (config s) (adopted (world s) (rec s)) (log s))
              inp S inp Hin HS Hge Hff Hout) as [R W].
  cbn [world config rec log] in W. rewrite <- W.
  unfold _complete_after_stop, bind. rewrite adopt_actual_file_spec.
  destruct (_convert_to_mp4 env _) as [s2 [[]|e]]; [|discriminate R].
  destruct (finalize_recording_spec env s2) as (c' & l' & -> & _).
  reflexivity.
Qed.

(** Extra X4. In a completion run that reaches the conversion ladder
    (raw input [inp] of [S] bytes, [S] at least 51200, tool available),
    the raw input is removed exactly when a step is accepted, the name of
    the input ends in [.flv] whatever the case of its letters, and the
    removal itself does not fail; in every other case it is still there
    with its size: an input of another extension is kept beside the
    converted file, and a failed removal is passed over. *)
Theorem accepted_conversion_removes_flv_only env s inp S :
  let s1 := fst (adopt_actual_file s) in
  find_input (world s1) (rec s1) = Some inp ->
  files (world s) !! inp = Some S ->
  (51200 <= S)%Z -> has_ffmpeg (world s) = true ->
  let s' := fst (_complete_after_stop env s) in
  files (world s') !! inp
  = match snd (ladder_plan size_ok (ffmpeg_run env) S all_steps) with
    | Accepted _ =>
        if PyStr.endswith ".flv" (PyStr.lower inp)
           && negb (bool_decide (inp ∈ locked (world s)))
        then None else Some S
    | _ => Some S
    end.
Proof.
  intros s1 Hin HS Hge Hff s'. subst s'.
  rewrite (complete_after_stop_world env s inp S Hin HS Hge Hff).
  subst s1. rewrite adopt_actual_file_spec in Hin. simpl in Hin.
  pose proof (find_input_adopted _ _ _ Hin) as Hout.
  pose proof (find_input_exists _ _ _ Hin) as [_ Hne].
  rewrite (ladder_input env inp S
             (mkRState (world s) (config s) (adopted (world s) (rec s))
                (log s ++ [EvProbeFfmpeg])) inp Hout HS Hne).
  reflexivity.
Qed.

(** The audio transcode of the sample recording is accepted: its raw
    file is removed. *)
Lemma accepted_conversion_witness :
  let env := Sample.env_of Sample.run_second in
  let s := Sample.state_of 100000 true in
  let s' := fst (_complete_after_stop env s) in
  files (world s') !! Sample.flv
  = match snd (ladder_plan size_ok (ffmpeg_run env) 100000 all_steps) with
    | Accepted _ =>
        if PyStr.endswith ".flv" (PyStr.lower Sample.flv)
           && negb (bool_decide (Sample.flv ∈ locked (world s)))
        then None else Some 100000%Z
    | _ => Some 100000%Z
    end.
Proof.
  apply (accepted_conversion_removes_flv_only
           (Sample.env_of Sample.run_second) (Sample.state_of 100000 true)
           Sample.flv 100000); [vm_compute; reflexivity ..| lia | reflexivity].
Defined.

End CleanupProofs.

(* ===================================================================== *)
(** ** Tracking the recorded file *)
(* ===================================================================== *)

Section TrackingProofs.
Import Recorder.

(** The alternate-extension probe returns a path that exists. *)
Lemma first_existing_exists w base exts alt :
  first_existing w base exts = Some alt -> Os.path_exists w alt = true.
Proof.
  induction exts as [|ext rest IH]; simpl; [done|].
  destruct (Os.path_exists w (base ++ ext)) eqn:E; [|done].
  by intros [= <-].
Qed.

(** The directory scan returns an entry of the right name. *)
Lemma first_named_entry dir_path base_name entries q :
  first_named dir_path base_name entries = Some q ->
  exists f, f ∈ entries
            /\ PyStr.startswith base_name f = true
            /\ PyStr.endswith ".txt" f = false
            /\ q = OsPath.join dir_path f.
Proof.
  induction entries as [|f rest IH]; simpl; [done|].
  destruct (PyStr.startswith base_name f && negb (PyStr.endswith ".txt" f))
    eqn:E.
  - intros [= <-]. apply andb_true_iff in E as [E1 E2].
    apply negb_true_iff in E2. exists f. repeat split; try done.
    apply list_elem_of_here.
  - intros H. destruct (IH H) as (g & Hg & H1 & H2 & H3).
    exists g. repeat split; try done. by apply list_elem_of_further.
Qed.

(** Extra X5. [_find_actual_file] looks at the raw file first, then at
    the file it tracked before, then at the output path: the first of
    them that is set and exists is returned. What it returns exists, or
    is an entry of the output directory named after the output; and it
    returns nothing only when none of the three is set and exists. *)
Theorem find_actual_file_sound w r :
  (Os.truthy_exists w (raw_recording_file r) = true ->
   _find_actual_file w r = raw_recording_file r)
  /\ (Os.truthy_exists w (raw_recording_file r) = false ->
      Os.truthy_exists w (actual_recording_file r) = true ->
      _find_actual_file w r = actual_recording_file r)
  /\ (Os.truthy_exists w (raw_recording_file r) = false ->
      Os.truthy_exists w (actual_recording_file r) = false ->
      Os.truthy_exists w (output_file r) = true ->
      _find_actual_file w r = output_file r)
  /\ (forall q, _find_actual_file w r = Some q ->
        Os.path_exists w q = true \/ from_listing w r q)
  /\ (_find_actual_file w r = None ->
      Os.truthy_exists w (raw_recording_file r) = false
      /\ Os.truthy_exists w (actual_recording_file r) = false
      /\ Os.truthy_exists w (output_file r) = false).
Proof.
  unfold _find_actual_file.
  destruct (Os.truthy_exists w (raw_recording_file r)) eqn:Hraw.
  { split; [done|]. split; [done|]. split; [done|]. split.
    - intros q Hq. left. rewrite Hq in Hraw.
      unfold Os.truthy_exists in Hraw. by apply andb_true_iff in Hraw as [_ ?].
    - intros Hq. rewrite Hq in Hraw. discriminate. }
  destruct (Os.truthy_exists w (actual_recording_file r)) eqn:Hact.
  { split; [done|]. split; [done|]. split; [done|]. split.
    - intros q Hq. left. rewrite Hq in Hact.
      unfold Os.truthy_exists in Hact. by apply andb_true_iff in Hact as [_ ?].
    - intros Hq. rewrite Hq in Hact. discriminate. }
  split; [done|]. split; [done|].
  destruct (output_file r) as [o|] eqn:Ho.
  2:{ split; [done|]. split; [done|]. done. }
  cbn [Os.truthy_exists PyStr.truthy].
  destruct (String.eqb o "") eqn:Hempty; cbn [negb andb].
  { split; [done|]. split; [done|]. done. }
  destruct (Os.path_exists w o) eqn:Hex.
  { split; [done|]. split; [|done]. intros q [= <-]. by left. }
  split; [done|]. split; [|intros _; done].
  intros q Hq.
  destruct (first_existing w _ _) as [alt|] eqn:Halt.
  { injection Hq as <-. left. by eapply first_existing_exists. }
  destruct (listing w (OsPath.dirname o)) as [entries|] eqn:Hls; [|done].
  right. destruct (first_named_entry _ _ _ _ Hq) as (f & Hf & H1 & H2 & H3).
  exists o, entries, f. done.
Qed.

End TrackingProofs.

(* ===================================================================== *)
(** ** Statistics *)
(* ===================================================================== *)

Section StatisticsProofs.
Import Recorder.

(** The statistics update, exactly. *)
Lemma update_stats_exact env s :
  update_stats env s
  = (mkRState (world s)
       (match counted_size (world s) (rec s) with
        | Some n => count_recording env (rec s) n (config s)
        | None => config s
        end)
       (rec s)
       (log s ++ match counted_size (world s) (rec s) with
                 | Some _ => [EvSaveConfig]
                 | None => []
                 end), Ret tt).
Proof.
  unfold update_stats, counted_size, bind, get_st, when.
  destruct (output_file (rec s)) as [o|] eqn:Ho; cbn [Os.truthy_exists].
  2:{ rewrite app_nil_r. by destruct s. }
  cbn [PyStr.truthy]. destruct (String.eqb o ""); cbn [negb andb].
  { rewrite app_nil_r. by destruct s. }
  unfold Os.path_exists, lift, Os.getsize.
  destruct (files (world s) !! o) as [n|] eqn:Hn.
  - rewrite bool_decide_eq_true_2 by eauto.
    destruct (10240 <? n)%Z; [reflexivity|].
    rewrite app_nil_r. by destruct s.
  - rewrite bool_decide_eq_false_2 by (intros [? ?]; discriminate).
    rewrite app_nil_r. by destruct s.
Qed.

(** Finalization, exactly: the statistics, one notification, the
    callback. *)
Lemma finalize_recording_exact env s :
  exists l,
    _finalize_recording env s
    = (mkRState (world s)
         (match counted_size (world s) (rec s) with
          | Some n => count_recording env (rec s) n (config s)
          | None => config s
          end)
         (rec s) (log s ++ l), Ret tt)
    /\ occurrences is_save_config l
       = (match counted_size (world s) (rec s) with
          | Some _ => 1 | None => 0 end)%nat.
Proof.
  unfold _finalize_recording. unfold bind at 1.
  rewrite update_stats_exact.
  unfold bind, get_st, emit, modify, when, ret; cbn [world config rec log].
  destruct (on_complete (rec s)); cbn [world config rec log];
    eexists; rewrite <- ?app_assoc; (split; [reflexivity|]);
    destruct (counted_size (world s) (rec s)); reflexivity.
Qed.

(** A log of tool runs holds no save of the configuration. *)
Lemma tool_runs_no_save l :
  Forall (fun e => is_tool_run e = true) l ->
  occurrences is_save_config l = 0%nat.
Proof.
  unfold occurrences. induction 1 as [|e l He _ IH]; [done|].
  simpl. destruct e; try discriminate He; exact IH.
Qed.

(** Whatever the state, the conversion returns, touches the recorder
    only in [output_file], and logs tool runs only. *)
Lemma convert_shape_tool env s :
  exists w' o' l',
    _convert_to_mp4 env s
    = (mkRState w' (config s) (set_output_file o' (rec s)) (log s ++ l'),
       Ret tt)
    /\ Forall (fun e => is_tool_run e = true) l'.
Proof.
  destruct (find_input (world s) (rec s)) as [inp|] eqn:Hin.
  2:{ exists (world s), (output_file (rec s)), [].
      rewrite set_output_file_same, app_nil_r.
      unfold _convert_to_mp4, bind, get_st. rewrite Hin.
      destruct s; split; [reflexivity|done]. }
  destruct (find_input_exists _ _ _ Hin) as [[S HS] Hne].
  destruct (Z.lt_ge_cases S 51200) as [Hlt|Hge].
  { exists (world s), (output_file (rec s)), [].
    rewrite set_output_file_same, app_nil_r.
    rewrite (convert_small env s inp S Hin HS Hlt).
    destruct s; split; [reflexivity|done]. }
  destruct (has_ffmpeg (world s)) eqn:Hff.
  2:{ rewrite (convert_no_tool env s inp S Hin HS Hge Hff).
      eexists _, _, _. split; [reflexivity|]. by repeat constructor. }
  destruct (output_file (rec s)) as [o|] eqn:Ho.
  - destruct (convert_ladder env s inp S o Hin HS Hge Hff Ho)
      as (w' & E & _ & _).
    rewrite E. eexists _, _, _. split; [reflexivity|].
    constructor; [done|]. apply Forall_forall. intros e He.
    apply list_elem_of_In, in_map_iff in He as (st & <- & _). done.
  - exists (world s), (Some inp), [EvProbeFfmpeg].
    split; [|by repeat constructor].
    unfold _convert_to_mp4. unfold bind at 1. unfold get_st at 1.
    rewrite Hin. unfold Os.getsize. rewrite HS.
    apply Z.ltb_ge in Hge. rewrite Hge.
    unfold _find_ffmpeg, bind at 1 2 3, emit, modify, get_st at 1, ret at 1.
    simpl. rewrite Hff.
    unfold try_except, ladder. unfold bind at 1. unfold get_st at 1.
    simpl. rewrite Ho. unfold bind at 1. unfold raise at 1.
    unfold bind, get_st, when. simpl.
    unfold Os.path_exists. rewrite HS.
    rewrite bool_decide_eq_true_2 by eauto.
    destruct (String.eqb_spec inp ""); [done|]. simpl. reflexivity.
Qed.

(** A completion run, exactly in what it does to the configuration. *)
Lemma complete_after_stop_exact env s :
  exists w' r' l,
    _complete_after_stop env s
    = (mkRState w'
         (match counted_size w' r' with
          | Some n => count_recording env (rec s) n (config s)
          | None => config s
          end) r' (log s ++ l), Ret tt)
    /\ occurrences is_save_config l
       = (match counted_size w' r' with Some _ => 1 | None => 0 end)%nat.
Proof.
  unfold _complete_after_stop. unfold bind at 1.
  rewrite adopt_actual_file_spec. unfold bind at 1.
  match goal with |- context [_convert_to_mp4 env ?st] =>
    destruct (convert_shape_tool env st) as (w' & o' & l1 & -> & T1) end.
  cbn [world config rec log].
  match goal with |- context [_finalize_recording env ?st] =>
    destruct (finalize_recording_exact env st) as (l2 & -> & Hs) end.
  cbn [world config rec log] in *.
  assert (Hfw : count_recording env
                  (set_output_file o' (adopted (world s) (rec s)))
                = count_recording env (rec s)).
  { unfold count_recording, adopted.
    destruct (PyStr.truthy _); by destruct (rec s). }
  rewrite Hfw. rewrite <- app_assoc.
  eexists _, _, _. split; [reflexivity|].
  by rewrite occurrences_app, Hs, (tool_runs_no_save _ T1).
Qed.

(** Extra X6. A completion run counts the file the session ends with:
    when the final output path names a file larger than 10240 bytes, the
    number of recordings grows by one, the total size by the size of
    that file and, when the time of the first write is set and not zero,
    the total duration by the difference between the clock and that
    time, cut to whole seconds; the configuration is then saved once.
    Otherwise the configuration is left as it was and is not saved. The
    other settings never change. *)
Theorem completion_counts_final_output env s :
  let s' := fst (_complete_after_stop env s) in
  exists l,
    log s' = (log s ++ l)%list
    /\ (forall n, counted_size (world s') (rec s') = Some n ->
          total_recordings (config s') = (total_recordings (config s) + 1)%Z
          /\ total_size_bytes (config s')
             = (total_size_bytes (config s) + n)%Z
          /\ total_duration_seconds (config s')
             = (total_duration_seconds (config s)
                + match first_write_time (rec s) with
                  | Some t0 =>
                      if float_truthy t0
                      then int_of_float (time_s (clock env) - t0)%Q
                      else 0
                  | None => 0
                  end)%Z
          /\ occurrences is_save_config l = 1%nat)
    /\ (counted_size (world s') (rec s') = None ->
        config s' = config s /\ occurrences is_save_config l = 0%nat)
    /\ output_dir (config s') = output_dir (config s)
    /\ cookies_file (config s') = cookies_file (config s)
    /\ check_interval (config s') = check_interval (config s)
    /\ quality (config s') = quality (config s)
    /\ filename_pattern (config s') = filename_pattern (config s).
Proof.
  intros s'. subst s'.
  destruct (complete_after_stop_exact env s) as (w' & r' & l & -> & Hs).
  cbn [fst world config rec log].
  exists l. split; [done|].
  destruct (counted_size w' r') as [n|] eqn:Hc.
  - split.
    { intros ? [= <-]. cbn. unfold elapsed_seconds.
      repeat (split; [try done|]); [|done].
      destruct (first_write_time (rec s)) as [t0|]; [|lia].
      destruct (float_truthy t0); lia. }
    split; [done|]. by cbn.
  - split; [done|]. split; [done|]. done.
Qed.

End StatisticsProofs.

(* ===================================================================== *)
(** ** Views of the registry *)
(* ===================================================================== *)

Section RegistryViews.
Import Recorder.

(** Extra X7. [get_all] lists exactly the handles for which
    [is_recording] answers true, each once. *)
Theorem get_all_lists_recording_handles ms :
  (forall u, u ∈ get_all ms <-> MultiRecorder.is_recording ms u = true)
  /\ NoDup (get_all ms).
Proof.
  split.
  - intros u. unfold get_all, MultiRecorder.is_recording,
      MultiRecorder.registered.
    rewrite list_elem_of_fmap. split.
    + intros ([u' i] & -> & Hin). cbn [fst].
      apply list_elem_of_In, List.filter_In in Hin as [Hin Hc].
      apply list_elem_of_In, elem_of_map_to_list in Hin. rewrite Hin.
      cbn [snd] in Hc. by destruct (heap ms !! i).
    + intros H. destruct (recorders ms !! u) as [i|] eqn:Hu; [|done].
      exists (u, i). split; [done|].
      apply list_elem_of_In, List.filter_In. split.
      * by apply list_elem_of_In, elem_of_map_to_list.
      * cbn [snd]. by destruct (heap ms !! i).
  - unfold get_all. 
    assert (Hnd : NoDup (map fst (map_to_list (recorders ms)))).
    { apply NoDup_fst_map_to_list. }
    revert Hnd. generalize (map_to_list (recorders ms)).
    induction l as [|[u i] l IH]; [constructor|].
    cbn [map fst List.filter]. intros Hnd.
    apply NoDup_cons in Hnd as [Hu Hl].
    destruct (match heap ms !! (u, i).2 with Some r => _ | None => _ end).
    + cbn [map fst]. apply NoDup_cons. split; [|by apply IH].
      intros Hin. apply Hu.
      apply list_elem_of_fmap in Hin as (x & -> & Hx).
      apply list_elem_of_fmap. exists x. split; [done|].
      apply list_elem_of_In, List.filter_In in Hx as [Hx _].
      by apply list_elem_of_In.
    + by apply IH.
Qed.

(** Extra X8. [stop_all] on a registry reached from the empty one
    returns, empties the dictionary, and leaves no recorder object
    recording or inside a stop: afterwards no handle is recording,
    [get] finds nothing and [get_all] is empty. *)
Theorem stop_all_stops_every_session envs ms :
  reachable ms ->
  let ms' := fst (MultiRecorder.stop_all envs ms) in
  snd (MultiRecorder.stop_all envs ms) = Ret tt
  /\ recorders ms' = ∅
  /\ (forall i r, heap ms' !! i = Some r ->
        is_recording r = false /\ is_stopping r = false)
  /\ get_all ms' = []
  /\ (forall u, MultiRecorder.is_recording ms' u = false
                /\ MultiRecorder.get ms' u = None).
Proof.
  intros Hreach ms'. subst ms'.
  pose proof (reachable_registry_ok ms Hreach) as Hok.
  unfold MultiRecorder.stop_all.
  rewrite (bind_eq _ _ ms ms ms) by reflexivity.
  destruct (stop_each_loop envs (map_to_list (recorders ms)) ms
              (fun i r Hi => proj1 (Hok i r Hi))) as (A0 & A1 & A2).
  set (ms1 := fst (for_each (stop_each envs) (map_to_list (recorders ms)) ms))
    in *.
  assert (E : for_each (stop_each envs) (map_to_list (recorders ms)) ms
              = (ms1, Ret tt)).
  { subst ms1. rewrite <- A0. by destruct (for_each _ _ _). }
  unfold stop_each in E. rewrite (bind_eq _ _ _ _ _ E).
  cbn [modify fst snd recorders heap].
  split; [done|]. split; [done|]. split.
  { intros i r Hi. destruct (A2 i r Hi) as [B1 B2]. split; [|done].
    destruct (is_recording r) eqn:Hr; [|done]. exfalso.
    destruct (B2 eq_refl) as [C1 C2]. apply C2.
    destruct (Hok i r C1) as [_ Hreg]. specialize (Hreg Hr).
    apply list_elem_of_fmap. exists (username r, i). split; [done|].
    by apply elem_of_map_to_list. }
  split.
  { unfold get_all. cbn [recorders]. by rewrite map_to_list_empty. }
  intros u. unfold MultiRecorder.is_recording, MultiRecorder.get,
    MultiRecorder.registered. cbn [recorders]. by rewrite lookup_empty.
Qed.

(** A registry with one session running is stopped. *)
Lemma stop_all_witness :
  let ms :=
    fst (MultiRecorder.start (Sample.env_of Sample.run_second) "bob"
           (JStr "https://pull.example/bob_hd.flv") (JStr "hello")
           "https://www.tiktok.com/@bob/live" Dead.registry) in
  let envs := fun _ : nat => Sample.env_of Sample.run_second in
  let ms' := fst (MultiRecorder.stop_all envs ms) in
  MultiRecorder.is_recording ms "bob" = true
  /\ snd (MultiRecorder.stop_all envs ms) = Ret tt
  /\ recorders ms' = ∅
  /\ (forall i r, heap ms' !! i = Some r ->
        is_recording r = false /\ is_stopping r = false)
  /\ get_all ms' = []
  /\ (forall u, MultiRecorder.is_recording ms' u = false
                /\ MultiRecorder.get ms' u = None).
Proof.
  split; [vm_compute; reflexivity|].
  apply (stop_all_stops_every_session
           (fun _ : nat => Sample.env_of Sample.run_second)
           (fst (MultiRecorder.start (Sample.env_of Sample.run_second) "bob"
                   (JStr "https://pull.example/bob_hd.flv") (JStr "hello")
                   "https://www.tiktok.com/@bob/live" Dead.registry))).
  eapply reach_step; [apply reach_init|apply step_start].
Defined.

(** Extra X9. A start request for one handle, admitted or not, leaves
    every recorder object that existed as it was and the registration of
    every other handle as it was; so what [get] and [is_recording] answer
    for another handle with a registered recorder does not change. *)
Theorem start_leaves_other_sessions env user s_url ttl l_url ms :
  let ms' := fst (MultiRecorder.start env user s_url ttl l_url ms) in
  (forall i r, heap ms !! i = Some r -> heap ms' !! i = Some r)
  /\ (forall u, u <> user -> recorders ms' !! u = recorders ms !! u)
  /\ (forall u, u <> user -> is_Some (MultiRecorder.get ms u) ->
        MultiRecorder.get ms' u = MultiRecorder.get ms u
        /\ MultiRecorder.is_recording ms' u = MultiRecorder.is_recording ms u).
Proof.
  intros ms'.
  assert (H : (forall i r, heap ms !! i = Some r -> heap ms' !! i = Some r)
              /\ (forall u, u <> user ->
                    recorders ms' !! u = recorders ms !! u)).
  { subst ms'. unfold MultiRecorder.start.
    destruct (MultiRecorder.active ms user); [done|].
    destruct (mkdir_output env) as [[]|e]; [|done].
    destruct (Recorder.start env user s_url ttl l_url _) as [s' a].
    destruct a as [[|]|e]; cbn [fst heap recorders]; split;
      try (intros i r Hi; by apply lookup_app_l_Some);
      try done.
    intros u Hu. by rewrite lookup_insert_ne. }
  destruct H as [Hh Hr]. split; [done|]. split; [done|].
  intros u Hu [r Hg].
  unfold MultiRecorder.is_recording, MultiRecorder.get,
    MultiRecorder.registered in *.
  rewrite (Hr u Hu). destruct (recorders ms !! u) as [i|]; [|done].
  by rewrite (Hh i r Hg), Hg.
Qed.

End RegistryViews.

(* ===================================================================== *)
(** ** Order of the resolver requests *)
(* ===================================================================== *)

Section Preservation.
Context {S : Type}.

Lemma preserves_ret {A} (P : S -> Prop) (a : A) : preserves P (ret a).
Proof. by intros s. Qed.

Lemma preserves_raise {A} (P : S -> Prop) e : preserves P (@raise S A e).
Proof. by intros s. Qed.

Lemma preserves_lift {A} (P : S -> Prop) (r : res A) : preserves P (lift r).
Proof. by intros s. Qed.

Lemma preserves_get_st (P : S -> Prop) : preserves P (@get_st S).
Proof. by intros s. Qed.

Lemma preserves_modify (P : S -> Prop) (f : S -> S) :
  (forall s, P s -> P (f s)) -> preserves P (modify f).
Proof. intros H s. apply H. Qed.

Lemma preserves_bind {A B} (P : S -> Prop) (m : M S A) (k : A -> M S B) :
  preserves P m -> (forall a, preserves P (k a)) -> preserves P (bind m k).
Proof.
  intros Hm Hk s Hs. unfold bind. specialize (Hm s Hs).
  destruct (m s) as [s' [a|e]]; simpl in *; [by apply Hk|done].
Qed.

Lemma preserves_when (P : S -> Prop) c (m : M S unit) :
  preserves P m -> preserves P (when c m).
Proof. intros Hm. unfold when. destruct c; [done|apply preserves_ret]. Qed.

Lemma preserves_try_except {A} (P : S -> Prop) (m : M S A) h :
  preserves P m -> (forall e, preserves P (h e)) ->
  preserves P (try_except m h).
Proof.
  intros Hm Hh s Hs. unfold try_except. specialize (Hm s Hs).
  destruct (m s) as [s' [a|e]]; simpl in *; [done|by apply Hh].
Qed.

(** Sequencing after a pure result: the continuation is only run on
    what the result is. *)
Lemma preserves_bind_lift {A B} (P : S -> Prop) (r : res A) (k : A -> M S B) :
  (forall a, r = Ret a -> preserves P (k a)) ->
  preserves P (bind (lift r) k).
Proof.
  intros Hk s Hs. unfold bind, lift. destruct r as [a|e]; [|done].
  by apply Hk.
Qed.

Lemma preserves_for_each {A} (P : S -> Prop) (f : A -> M S unit) l :
  (forall a, preserves P (f a)) -> preserves P (for_each f l).
Proof.
  intros Hf. induction l as [|a l IH]; simpl; [apply preserves_ret|].
  apply preserves_bind; [apply Hf|done].
Qed.

End Preservation.

Ltac preserve side :=
  repeat first
    [ apply preserves_ret | apply preserves_raise | apply preserves_lift
    | apply preserves_get_st
    | apply preserves_bind; [|intros ?]
    | apply preserves_when
    | apply preserves_try_except; [|intros ?]
    | apply preserves_modify; side
    | match goal with
      | |- preserves _ (if ?c then _ else _) => destruct c
      | |- preserves _ (match ?x with _ => _ end) => destruct x
      end ].

Section ResolverOrder.
Import TikTokAPI.

(** The body of the extractor strategy after its call: nothing in it
    touches the network. *)
Lemma read_info_net info quality n :
  preserves (fun st => net st = n) (read_info info quality).
Proof.
  unfold read_info, upd_result.
  preserve ltac:(by intros [? ?]).
Qed.

(** The extractor strategy makes its one call and nothing else. *)
Lemma try_ytdlp_net env cookies url user quality log :
  fst (_try_ytdlp env cookies url user quality log)
  = (log ++ [EvExtractInfo url (use_cookies env cookies)])%list.
Proof.
  unfold _try_ytdlp, run_strategy.
  match goal with |- context [try_except ?m ?h ?st] =>
    assert (H : net (fst (try_except m h st))
                = (log ++ [EvExtractInfo url (use_cookies env cookies)])%list);
    [|by destruct (try_except m h st) as [st' [a|e]]] end.
  unfold try_except. unfold bind at 1. unfold net_emit at 1, modify at 1.
  cbn [result net].
  set (st1 := mkStrat _ _).
  set (n := (log ++ _)%list).
  assert (P1 : net st1 = n) by reflexivity.
  match goal with |- context [bind ?m ?k st1] =>
    assert (Hb : preserves (fun st => net st = n) (bind m k)) end.
  { apply preserves_bind; [apply preserves_lift|]. intros info.
    apply preserves_when. apply read_info_net. }
  specialize (Hb st1 P1).
  match goal with |- context [bind ?m ?k st1] =>
    destruct (bind m k st1) as [st2 [a|e]] end; cbn [fst] in *; [done|].
  destruct (exn_kind_of e); exact Hb.
Qed.

(** The page strategy, after its request, touches the network no more. *)
Lemma scrape_net env cookies user quality st :
  net (fst (scrape env cookies user quality st))
  = (net st
     ++ [EvHttpGet (live_page_url user)
           (use_cookies env cookies && cookie_jar_loads env)])%list.
Proof.
  unfold scrape. unfold bind at 1. unfold net_emit at 1, modify at 1.
  set (st1 := mkStrat _ _).
  set (n := (net st ++ _)%list).
  assert (P1 : net st1 = n) by reflexivity.
  match goal with |- context [bind ?m ?k st1] =>
    assert (Hb : preserves (fun st => net st = n) (bind m k)) end.
  { unfold guarded, read_sigi, read_next, read_room, read_next_room,
      upd_result.
    preserve ltac:(by intros [? ?]). }
  exact (Hb st1 P1).
Qed.

Lemma try_web_scrape_net env cookies user quality log :
  fst (_try_web_scrape env cookies user quality log)
  = (log ++ [EvHttpGet (live_page_url user)
               (use_cookies env cookies && cookie_jar_loads env)])%list.
Proof.
  unfold _try_web_scrape, run_strategy.
  match goal with |- context [try_except ?m ?h ?st] =>
    assert (H : net (fst (try_except m h st))
                = (log ++ [EvHttpGet (live_page_url user)
                             (use_cookies env cookies
                              && cookie_jar_loads env)])%list);
    [|by destruct (try_except m h st) as [st' [a|e]]] end.
  unfold try_except.
  pose proof (scrape_net env cookies user quality
                (mkStrat (blank user) log)) as Hs.
  destruct (scrape env cookies user quality _) as [st2 [a|e]];
    cbn [fst net] in *; [done|].
  destruct (exn_kind_of e); exact Hs.
Qed.

(** Once the extractor has returned an info dictionary the strategy
    reports a live user, whatever reading the dictionary does. *)
Lemma read_info_marks info quality st :
  let st' := fst (read_info info quality st) in
  success (result st') = true /\ is_live (result st') = true.
Proof.
  unfold read_info. unfold bind at 1 2. unfold upd_result at 1 2.
  unfold modify at 1 2. cbn [result net].
  set (st1 := mkStrat _ _).
  assert (P1 : success (result st1) = true /\ is_live (result st1) = true)
    by done.
  match goal with |- context [bind ?m ?k st1] =>
    assert (Hb : preserves
                   (fun st => success (result st) = true
                              /\ is_live (result st) = true) (bind m k)) end.
  { unfold upd_result. preserve ltac:(by intros [? ?]). }
  exact (Hb st1 P1).
Qed.

Lemma try_ytdlp_success env cookies user quality log :
  exists yt,
    snd (_try_ytdlp env cookies (live_page_url (normalize user))
           (normalize user) quality log) = Ret yt
    /\ success yt = extracted env cookies user
    /\ (extracted env cookies user = true -> is_live yt = true).
Proof.
  unfold _try_ytdlp, run_strategy, extracted, try_except.
  unfold bind at 1. unfold net_emit at 1, modify at 1. cbn [result net].
  unfold bind at 1. unfold lift at 1.
  destruct (extract_info env _ _) as [info|e].
  - unfold when. destruct (Py.truthy info) eqn:Ht.
    + match goal with |- context [read_info info quality ?st] =>
        pose proof (read_info_marks info quality st) as [H1 H2];
        destruct (read_info info quality st) as [st2 [a|e]] end;
        cbn [fst] in *.
      * eexists. split; [reflexivity|done].
      * destruct (exn_kind_of e); (eexists; split; [reflexivity|done]).
    + eexists. split; [reflexivity|done].
  - destruct (exn_kind_of e); (eexists; split; [reflexivity|done]).
Qed.

(** Extra X10. Resolving a handle that is not empty after normalisation
    calls the extractor first, on the live page of the normalised handle,
    and fetches that page only when the extractor raised or returned
    nothing; no other network action is made. When the extractor returns
    an info dictionary the resolver reports success and a live user,
    whatever reading the dictionary does afterwards. *)
Theorem resolver_queries_extractor_first env cookies user quality log :
  normalize user <> "" ->
  fst (get_live_info env cookies user quality log)
  = (log ++ resolver_requests env cookies user)%list
  /\ (extracted env cookies user = true ->
      exists info,
        snd (get_live_info env cookies user quality log) = Ret info
        /\ success info = true /\ is_live info = true).
Proof.
  intros Hne. unfold get_live_info, resolver_requests.
  destruct (String.eqb_spec (normalize user) ""); [done|].
  pose proof (try_ytdlp_net env cookies (live_page_url (normalize user))
                (normalize user) quality log) as N1.
  destruct (try_ytdlp_success env cookies user quality log)
    as (yt & R1 & S1 & L1).
  destruct (_try_ytdlp env cookies _ _ quality log) as [log1 r1] eqn:E1.
  cbn [fst snd] in *. subst r1 log1.
  rewrite (bind_eq _ _ _ _ _ E1). rewrite S1.
  destruct (extracted env cookies user) eqn:Hx.
  { split; [reflexivity|]. intros _. eexists. split; [reflexivity|].
    split; [exact S1|]. by apply L1. }
  split; [|done].
  pose proof (try_web_scrape_net env cookies (normalize user) quality
                (log ++ [EvExtractInfo (live_page_url (normalize user))
                           (use_cookies env cookies)])) as N2.
  destruct (try_web_scrape_returns env cookies (normalize user) quality
              (log ++ [EvExtractInfo (live_page_url (normalize user))
                         (use_cookies env cookies)]))
    as (log2 & web & E2).
  rewrite E2 in N2. cbn [fst] in N2. subst log2.
  rewrite (bind_eq _ _ _ _ _ E2). rewrite <- app_assoc. cbn [app].
  destruct (success web); [reflexivity|].
  destruct (PyStr.truthy (error yt)); [reflexivity|].
  destruct (PyStr.truthy (error web)); reflexivity.
Qed.

(** An offline user: the extractor raises, the page is fetched. *)
Lemma resolver_requests_witness :
  fst (get_live_info Page.offline "" "@Bob" "best" [])
  = ([] ++ resolver_requests Page.offline "" "@Bob")%list
  /\ (extracted Page.offline "" "@Bob" = true ->
      exists info,
        snd (get_live_info Page.offline "" "@Bob" "best" []) = Ret info
        /\ success info = true /\ is_live info = true).
Proof.
  apply (resolver_queries_extractor_first Page.offline "" "@Bob" "best" []).
  vm_compute. discriminate.
Defined.

End ResolverOrder.

(* ===================================================================== *)
(** ** What the resolver reports *)
(* ===================================================================== *)

Section ResolverOutcome.
Import TikTokAPI.











End ResolverOutcome.

(* ===================================================================== *)
(** ** Results of the resolver *)
(* ===================================================================== *)

Section ResolverResults.
Import TikTokAPI.

(** Lower-casing a character twice is lower-casing it once, and never
    gives an at-sign that was not there. *)
Lemma lower_ascii_idem c :
  PyStr.lower_ascii (PyStr.lower_ascii c) = PyStr.lower_ascii c.
Proof.
  destruct c as [[] [] [] [] [] [] [] []]; vm_compute; reflexivity.
Qed.

Lemma lower_ascii_at c :
  Ascii.eqb "@" (PyStr.lower_ascii c) = Ascii.eqb "@" c.
Proof.
  destruct c as [[] [] [] [] [] [] [] []]; vm_compute; reflexivity.
Qed.

Lemma lower_idem s : PyStr.lower (PyStr.lower s) = PyStr.lower s.
Proof.
  induction s as [|c s IH]; simpl; [done|]. by rewrite lower_ascii_idem, IH.
Qed.

(** What is left of a string stripped of a kind of characters on its
    left does not start with one. *)
Lemma lstrip_by_head p s :
  match PyStr.lstrip_by p s with
  | EmptyString => True
  | String c _ => p c = false
  end.
Proof.
  induction s as [|c s IH]; simpl; [done|].
  destruct (p c) eqn:E; [exact IH|exact E].
Qed.

Lemma normalize_no_at user : PyStr.startswith "@" (normalize user) = false.
Proof.
  unfold normalize, PyStr.lstrip_char.
  pose proof (lstrip_by_head (PyStr.is_char "@") (PyStr.strip user)) as H.
  destruct (PyStr.lstrip_by _ _) as [|c r]; [done|].
  cbn [PyStr.lower PyStr.startswith]. rewrite lower_ascii_at.
  unfold PyStr.is_char in H. by rewrite H.
Qed.

(** Extra X11. Whatever the network answers, the result of
    [get_live_info] carries the normalised handle as its username; the
    normalised handle does not start with an at-sign and lower-casing it
    changes nothing. *)
Theorem resolver_reports_normalized_handle env cookies user quality log :
  (exists log' info,
     get_live_info env cookies user quality log = (log', Ret info)
     /\ username info = normalize user)
  /\ PyStr.startswith "@" (normalize user) = false
  /\ PyStr.lower (normalize user) = normalize user.
Proof.
  split; [|split; [apply normalize_no_at|apply lower_idem]].
  unfold get_live_info.
  destruct (String.eqb (normalize user) "") eqn:Hu.
  { eexists _, _. split; reflexivity. }
  destruct (try_ytdlp_returns env cookies (live_page_url (normalize user))
              (normalize user) quality log) as (log1 & yt & Ey).
  rewrite (bind_eq _ _ _ _ _ Ey).
  destruct (success yt) eqn:Sy.
  { eexists _, _. split; reflexivity. }
  destruct (try_web_scrape_returns env cookies (normalize user) quality log1)
    as (log2 & web & Ew).
  rewrite (bind_eq _ _ _ _ _ Ew).
  destruct (success web) eqn:Sw.
  { eexists _, _. split; reflexivity. }
  destruct (PyStr.truthy (error yt)); [eexists _, _; split; reflexivity|].
  destruct (PyStr.truthy (error web)); eexists _, _; split; reflexivity.
Qed.

(** The inner loop over string keys never raises, and what it returns
    is the truthy URL of a candidate; it returns nothing only when no
    candidate is eligible. *)
Lemma scan_keys_member pref urls :
  match scan_keys pref (keyed urls) with
  | Ret (Some v) => v ∈ map snd urls /\ Py.truthy v = true
  | Ret None => forall kv, kv ∈ urls -> eligible pref kv = false
  | Raise _ => False
  end.
Proof.
  induction urls as [|[k v] rest IH]; cbn [keyed map fst snd scan_keys Py.lower].
  - intros kv Hkv. by apply elem_of_nil in Hkv.
  - change (map (fun kv => (JStr kv.1, kv.2)) rest) with (keyed rest).
    destruct (PyStr.contains (PyStr.lower pref) (PyStr.lower k)
              && Py.truthy v) eqn:E.
    + apply andb_true_iff in E as [_ E]. split; [|done].
      apply list_elem_of_here.
    + destruct (scan_keys pref (keyed rest)) as [[u|]|e]; [| |done].
      * destruct IH as [H1 H2]. split; [|done].
        by apply list_elem_of_further.
      * intros kv Hkv. apply elem_of_cons in Hkv as [->|Hkv]; [exact E|].
        by apply IH.
Qed.

Lemma scan_prefs_member prefs urls :
  match scan_prefs prefs (keyed urls) with
  | Ret (Some v) => v ∈ map snd urls /\ Py.truthy v = true
  | Ret None =>
      forall pref kv, pref ∈ prefs -> kv ∈ urls -> eligible pref kv = false
  | Raise _ => False
  end.
Proof.
  induction prefs as [|pref rest IH]; cbn [scan_prefs].
  - intros pref kv Hp. by apply elem_of_nil in Hp.
  - pose proof (scan_keys_member pref urls) as H.
    destruct (scan_keys pref (keyed urls)) as [[v|]|e]; [done| |done].
    destruct (scan_prefs rest (keyed urls)) as [[v|]|e]; [done| |done].
    intros p kv Hp Hkv. apply elem_of_cons in Hp as [->|Hp]; [by apply H|].
    by apply IH.
Qed.

Lemma quality_map_head quality :
  exists rest, QUALITY_MAP quality = first_pref quality :: rest.
Proof.
  unfold first_pref, QUALITY_MAP.
  repeat (match goal with |- context [String.eqb ?a ?b] =>
            destruct (String.eqb a b) end); eexists; reflexivity.
Qed.

(** The inner loop on a map whose first key that is no string comes
    after the string-keyed entries [pre]: it returns the first eligible
    entry of [pre], and raises when there is none. *)
Lemma scan_keys_bad_key pref pre k u rest :
  is_ret (Py.lower k) = false ->
  scan_keys pref (keyed pre ++ (k, u) :: rest)%list
  = match List.find (eligible pref) pre with
    | Some kv => Ret (Some (snd kv))
    | None => Raise (Py.attribute_error "lower")
    end.
Proof.
  intros Hk. induction pre as [|[k0 v0] pre IH].
  - cbn [keyed map app scan_keys List.find].
    destruct k; try discriminate Hk; reflexivity.
  - cbn [keyed map app scan_keys List.find Py.lower fst snd].
    change (map (fun kv => (JStr kv.1, kv.2)) pre) with (keyed pre).
    unfold eligible at 1, key_matches. cbn [fst snd].
    destruct (PyStr.contains (PyStr.lower pref) (PyStr.lower k0)
              && Py.truthy v0); [reflexivity|exact IH].
Qed.

Lemma select_url_bad_key quality pre k u rest :
  is_ret (Py.lower k) = false ->
  select_url quality (keyed pre ++ (k, u) :: rest)%list
  = match List.find (eligible (first_pref quality)) pre with
    | Some kv => Ret (snd kv)
    | None => Raise (Py.attribute_error "lower")
    end.
Proof.
  intros Hk. destruct (quality_map_head quality) as (ps & E).
  unfold select_url. rewrite E. cbn [scan_prefs].
  rewrite (scan_keys_bad_key _ pre k u rest Hk).
  destruct pre as [|[k0 v0] pre]; cbn [keyed map app].
  - reflexivity.
  - by destruct (List.find _ _).
Qed.

(** Extra X12. On a non-empty candidate map all of whose keys are
    strings the selection never raises and returns the URL of one of the
    candidates; the URL returned is falsy (an empty string, say) only
    when no candidate was eligible for any preference of the tier, so
    that it is the first candidate's. On a map that holds a key that is
    no string (a null [sdk_key], say), the selection returns the URL of
    the first candidate before that key that is eligible for the first
    preference of the tier, and raises when there is none. *)
Theorem select_url_returns_candidate quality (urls : list (string * json)) :
  (urls <> [] ->
   exists v,
     select_url quality (keyed urls) = Ret v
     /\ v ∈ map snd urls
     /\ (Py.truthy v = false ->
         (forall pref kv, pref ∈ QUALITY_MAP quality -> kv ∈ urls ->
                          eligible pref kv = false)
         /\ Some v = head (map snd urls)))
  /\ (forall k u rest,
        is_ret (Py.lower k) = false ->
        select_url quality (keyed urls ++ (k, u) :: rest)%list
        = match List.find (eligible (first_pref quality)) urls with
          | Some kv => Ret (snd kv)
          | None => Raise (Py.attribute_error "lower")
          end).
Proof.
  split; [|intros k u rest; apply select_url_bad_key].
  intros Hne. destruct urls as [|[k0 v0] rest]; [done|].
  unfold select_url. cbn [keyed map fst snd].
  change ((JStr k0, v0) :: map (fun kv => (JStr kv.1, kv.2)) rest)
    with (keyed ((k0, v0) :: rest)).
  pose proof (scan_prefs_member (QUALITY_MAP quality) ((k0, v0) :: rest)) as H.
  destruct (scan_prefs _ _) as [[v|]|e]; [| |done].
  - destruct H as [H1 H2]. exists v. split; [done|]. split; [done|].
    intros Hf. congruence.
  - exists v0. split; [done|]. split; [apply list_elem_of_here|].
    intros _. split; [exact H|done].
Qed.

(** The flat map with an empty entry: the URL returned is a candidate's. *)
Lemma select_url_candidate_witness :
  exists v,
    select_url "high" (keyed Page.flat) = Ret v
    /\ v ∈ map snd Page.flat
    /\ (Py.truthy v = false ->
        (forall pref kv, pref ∈ QUALITY_MAP "high" -> kv ∈ Page.flat ->
                         eligible pref kv = false)
        /\ Some v = head (map snd Page.flat)).
Proof.
  apply (proj1 (select_url_returns_candidate "high" Page.flat)). discriminate.
Defined.

End ResolverResults.

(* ===================================================================== *)
(** ** Stream-URL extraction *)
(* ===================================================================== *)

Section ExtractionProofs.
Import TikTokAPI.

(** Extra X13. When the stream data holds no [pull_data] and its
    [flv_pull_url] is a plain string, the extraction returns that string
    as it is, for every quality tier and whatever [hls_pull_url] holds:
    the keys [flv] and [hls] match no preference, and the first
    candidate is the FLV one. *)
Theorem plain_flv_url_is_selected env d f quality :
  Py.assoc "pull_data" d = None ->
  Py.assoc "flv_pull_url" d = Some (JStr f) ->
  _extract_stream_url env (JDict d) quality = Ret (JStr f).
Proof.
  intros Hp Hf. unfold _extract_stream_url.
  destruct d as [|kv d']; [discriminate Hf|]. cbn [Py.truthy negb].
  unfold collect_urls, bind, lift, when, modify, ret, Py.get.
  rewrite Hp. cbn [Py.truthy]. rewrite Hf.
  cbn [Py.dict_set].
  destruct (Py.assoc "hls_pull_url" (kv :: d')) as [h|];
    [destruct (Py.truthy h)|]; cbn [Py.truthy String.eqb negb Py.dict_set Py.key_eqb];
    unfold select_url, QUALITY_MAP;
    destruct (String.eqb quality "best"); try (vm_compute; reflexivity);
    destruct (String.eqb quality "high"); try (vm_compute; reflexivity);
    destruct (String.eqb quality "medium"); try (vm_compute; reflexivity);
    destruct (String.eqb quality "low"); vm_compute; reflexivity.
Qed.

(** A page with an empty FLV URL beside an HLS one. *)
Lemma plain_flv_url_witness :
  _extract_stream_url Page.offline
    (JDict [("hls_pull_url", JStr "https://pull.example/bob.m3u8");
            ("flv_pull_url", JStr "")]) "best"
  = Ret (JStr "").
Proof.
  apply (plain_flv_url_is_selected Page.offline
           [("hls_pull_url", JStr "https://pull.example/bob.m3u8");
            ("flv_pull_url", JStr "")] "" "best"); reflexivity.
Defined.

(** The format loops return truthy URLs only. *)
Lemma format_url_truthy fmt v :
  format_url fmt = Ret (Some v) ->
  exists u, Py.truthy u = true /\ Py.get fmt "url" JNull = Ret u
            /\ Py.getitem fmt "url" = Ret v.
Proof.
  unfold format_url. destruct (Py.get fmt "url" JNull) as [u|e]; [|done].
  destruct (Py.truthy u) eqn:Hu; [|done].
  destruct (Py.getitem fmt "url") as [x|e]; [|done].
  intros [= <-]. by exists u.
Qed.

Lemma format_url_usable fmt v :
  format_url fmt = Ret (Some v) -> Py.truthy v = true.
Proof.
  intros H. destruct (format_url_truthy fmt v H) as (u & Hu & Hg & Hi).
  unfold Py.get, Py.getitem in *. destruct fmt; try done.
  destruct (Py.assoc "url" d); [|done]. congruence.
Qed.

Lemma find_format_usable pref formats v :
  find_format pref formats = Ret (Some v) -> Py.truthy v = true.
Proof.
  induction formats as [|fmt rest IH]; cbn [find_format]; [done|].
  destruct (Py.get fmt "format_id" (JStr "")) as [fid|e]; [|done].
  destruct (Py.lower fid) as [fmt_id|e]; [|done].
  destruct (PyStr.contains _ _); [|exact IH].
  destruct (format_url fmt) as [[u|]|e] eqn:E; [|exact IH|done].
  intros [= <-]. by eapply format_url_usable.
Qed.

Lemma best_format_usable preferred formats v :
  best_format preferred formats = Ret (Some v) -> Py.truthy v = true.
Proof.
  induction preferred as [|pref rest IH]; cbn [best_format]; [done|].
  destruct (Py.iter formats) as [fmts|e]; [|done].
  destruct (find_format pref fmts) as [[u|]|e] eqn:E; [|exact IH|done].
  intros [= <-]. by eapply find_format_usable.
Qed.

Lemma first_format_usable formats v :
  first_format formats = Ret (Some v) -> Py.truthy v = true.
Proof.
  induction formats as [|fmt rest IH]; cbn [first_format]; [done|].
  destruct (format_url fmt) as [[u|]|e] eqn:E; [|exact IH|done].
  intros [= <-]. by eapply format_url_usable.
Qed.

Lemma opt_json_usable (o : option json) :
  (forall v, o = Some v -> Py.truthy v = true) -> usable_url (opt_json o).
Proof.
  intros H. destruct o as [v|]; [right; by apply H|by left].
Qed.

(** Reading the info dictionary leaves a usable stream URL. *)
Lemma read_info_url info quality st :
  usable_url (stream_url (result st)) ->
  usable_url (stream_url (result (fst (read_info info quality st)))).
Proof.
  intros Hst. destruct st as [r n].
  unfold read_info, upd_result, bind, lift, modify, ret.
  cbn [result net].
  destruct (Py.get info "title" _) as [t|e]; [|exact Hst].
  destruct (Py.get info "concurrent_view_count" _) as [v|e]; [|exact Hst].
  destruct (Py.get info "thumbnail" _) as [th|e]; [|exact Hst].
  destruct (Py.get info "formats" _) as [formats|e]; [|exact Hst].
  destruct (best_format (QUALITY_MAP quality) formats) as [best0|e] eqn:B;
    [|exact Hst].
  destruct (negb (Py.truthy (opt_json best0)) && Py.truthy formats).
  - destruct (Py.iter formats) as [fmts|e]; [|exact Hst].
    destruct (first_format fmts) as [best1|e] eqn:F; [|exact Hst].
    cbn [fst result stream_url set_stream_url].
    apply opt_json_usable. intros u ->. by eapply first_format_usable.
  - cbn [fst result stream_url set_stream_url].
    apply opt_json_usable. intros u ->. by eapply best_format_usable.
Qed.

(** Extra X14. The stream URL in a result of the extractor strategy is
    never an empty value: it is nothing at all, or the truthy URL of a
    format. (The page strategy gives no such guarantee.) *)
Theorem try_ytdlp_url_usable env cookies url user quality log :
  exists log' yt,
    _try_ytdlp env cookies url user quality log = (log', Ret yt)
    /\ usable_url (stream_url yt).
Proof.
  unfold _try_ytdlp, run_strategy, try_except.
  unfold bind at 1. unfold net_emit at 1, modify at 1. cbn [result net].
  unfold bind at 1. unfold lift at 1.
  destruct (extract_info env _ _) as [info|e].
  - unfold when. destruct (Py.truthy info).
    + match goal with |- context [read_info info quality ?st] =>
        pose proof (read_info_url info quality st (or_introl eq_refl)) as H;
        destruct (read_info info quality st) as [st2 [a|e]] end;
        cbn [fst] in *.
      * eexists _, _. split; [reflexivity|done].
      * destruct (exn_kind_of e);
          (eexists _, _; split; [reflexivity|done]).
    + eexists _, _. split; [reflexivity|by left].
  - destruct (exn_kind_of e);
      (eexists _, _; split; [reflexivity|by left]).
Qed.

End ExtractionProofs.

(* ===================================================================== *)
(** ** Error texts *)
(* ===================================================================== *)

Section ErrorTexts.
Import TikTokAPI.

Lemma length_take_le n s : (String.length (PyStr.take n s) <= n)%nat.
Proof.
  revert s. induction n as [|n IH]; intros [|c s]; simpl; try lia.
  specialize (IH s). lia.
Qed.

Lemma length_app (a b : string) :
  String.length (a ++ b) = (String.length a + String.length b)%nat.
Proof. induction a as [|c a IH]; simpl; [done|]. by rewrite IH. Qed.

(** A prefixed, truncated message is non-empty and bounded. *)
Lemma prefixed_within (p msg : string) k n :
  p <> "" -> (String.length p + k <= n)%nat ->
  p ++ PyStr.take k msg <> ""
  /\ (String.length (p ++ PyStr.take k msg) <= n)%nat.
Proof.
  intros Hp Hn. split.
  - destruct p; [done|]. discriminate.
  - rewrite length_app. pose proof (length_take_le k msg). lia.
Qed.

Lemma download_error_text_within e :
  download_error_text e <> ""
  /\ (String.length (download_error_text e) <= 68)%nat.
Proof.
  unfold download_error_text.
  repeat match goal with
         | |- context [if ?c then _ else _] => destruct c
         end;
    try (split; [discriminate|vm_compute; lia]).
  apply prefixed_within; [discriminate|vm_compute; lia].
Qed.

Ltac err_side :=
  intros [? ?] ?; unfold error_within in *;
  cbn [result net error set_is_live set_success set_title set_viewer_count
         set_thumbnail_url set_stream_url set_error] in *;
  first [ assumption
        | split; [discriminate|vm_compute; lia]
        | apply download_error_text_within
        | apply prefixed_within; [discriminate|vm_compute; lia] ].

Lemma try_ytdlp_error env cookies url user quality log :
  exists log' yt,
    _try_ytdlp env cookies url user quality log = (log', Ret yt)
    /\ error_within 68 yt.
Proof.
  destruct (try_ytdlp_returns env cookies url user quality log)
    as (log' & yt & E).
  exists log', yt. split; [exact E|].
  unfold _try_ytdlp, run_strategy in E.
  match type of E with context [try_except ?m ?h ?st] =>
    assert (H : preserves (fun x => error_within 68 (result x))
                  (try_except m h)) end.
  { unfold read_info, upd_result, net_emit. preserve err_side. }
  match type of E with context [try_except ?m ?h ?st] =>
    specialize (H st I); destruct (try_except m h st) as [st' [a|e]] end;
    [|discriminate E].
  injection E as _ <-. exact H.
Qed.

Lemma try_web_scrape_error env cookies user quality log :
  exists log' web,
    _try_web_scrape env cookies user quality log = (log', Ret web)
    /\ error_within 68 web.
Proof.
  destruct (try_web_scrape_returns env cookies user quality log)
    as (log' & web & E).
  exists log', web. split; [exact E|].
  unfold _try_web_scrape, run_strategy in E.
  match type of E with context [try_except ?m ?h ?st] =>
    assert (H : preserves (fun x => error_within 68 (result x))
                  (try_except m h)) end.
  { unfold scrape, guarded, read_sigi, read_next, read_room, read_next_room,
      upd_result, net_emit.
    preserve err_side. }
  match type of E with context [try_except ?m ?h ?st] =>
    specialize (H st I); destruct (try_except m h st) as [st' [a|e]] end;
    [|discriminate E].
  injection E as _ <-. exact H.
Qed.

(** Extra X15. Whatever the network and the parsers answer, the error
    text in a result of [get_live_info], when there is one, is not empty
    and holds at most 68 characters: the texts taken from exceptions are
    cut at 60 or 40 characters behind a fixed prefix. *)
Theorem resolver_error_text_bounded env cookies user quality log :
  exists log' info,
    get_live_info env cookies user quality log = (log', Ret info)
    /\ error_within 68 info.
Proof.
  unfold get_live_info.
  destruct (String.eqb (normalize user) "") eqn:Hu.
  { eexists _, _. split; [reflexivity|]. split; [discriminate|vm_compute; lia]. }
  destruct (try_ytdlp_error env cookies (live_page_url (normalize user))
              (normalize user) quality log) as (log1 & yt & Ey & By).
  rewrite (bind_eq _ _ _ _ _ Ey).
  destruct (success yt) eqn:Sy.
  { eexists _, _. split; [reflexivity|]. exact By. }
  destruct (try_web_scrape_error env cookies (normalize user) quality log1)
    as (log2 & web & Ew & Bw).
  rewrite (bind_eq _ _ _ _ _ Ew).
  destruct (success web) eqn:Sw.
  { eexists _, _. split; [reflexivity|]. exact Bw. }
  destruct (PyStr.truthy (error yt)) eqn:Ty.
  { eexists _, _. split; [reflexivity|]. exact By. }
  destruct (PyStr.truthy (error web)) eqn:Tw.
  { eexists _, _. split; [reflexivity|]. exact Bw. }
  eexists _, _. split; [reflexivity|]. split; [discriminate|vm_compute; lia].
Qed.

End ErrorTexts.

(* ===================================================================== *)
(** ** Shape of the file name *)
(* ===================================================================== *)

Section FileNameShape.
Import Recorder.

Lemma all_chars_app p (a b : string) :
  all_chars p (a ++ b) = all_chars p a && all_chars p b.
Proof.
  induction a as [|c a IH]; [reflexivity|].
  change (String c a ++ b) with (String c (a ++ b)).
  cbn [all_chars]. by rewrite IH, andb_assoc.
Qed.

Lemma clean_app (a b : string) :
  clean_name (a ++ b) = clean_name a && clean_name b.
Proof. apply all_chars_app. Qed.

(** What the cleaning leaves is clean. *)
Lemma clean_remove_chars s : clean_name (PyStr.remove_chars forbidden s) = true.
Proof.
  induction s as [|c s IH]; cbn [PyStr.remove_chars]; [done|].
  destruct (forbidden c) eqn:E; [exact IH|].
  unfold clean_name in *. cbn [all_chars]. by rewrite E, IH.
Qed.

(** Decimal digits are clean. *)
Lemma digit_clean n : negb (forbidden (PyStr.digit n)) = true.
Proof.
  unfold PyStr.digit.
  assert (H : (n mod 10 < 10)%nat) by (apply Nat.mod_upper_bound; lia).
  destruct (n mod 10)%nat as [|[|[|[|[|[|[|[|[|[|k]]]]]]]]]];
    try (vm_compute; reflexivity); lia.
Qed.

Lemma digits_fuel_clean fuel n acc :
  clean_name acc = true -> clean_name (PyStr.digits_fuel fuel n acc) = true.
Proof.
  revert n acc. induction fuel as [|f IH]; intros n acc Hacc;
    cbn [PyStr.digits_fuel PyStr.digitsZ_fuel]; [done|].
  assert (H : clean_name (String (PyStr.digit n) acc) = true).
  { unfold clean_name in *. cbn [all_chars]. by rewrite digit_clean, Hacc. }
  destruct (n <? 10)%nat; [exact H|]. by apply IH.
Qed.

Lemma digitsZ_fuel_clean fuel n acc :
  clean_name acc = true -> clean_name (PyStr.digitsZ_fuel fuel n acc) = true.
Proof.
  revert n acc. induction fuel as [|f IH]; intros n acc Hacc;
    cbn [PyStr.digits_fuel PyStr.digitsZ_fuel]; [done|].
  assert (H : clean_name (String (PyStr.digit (Z.to_nat (n mod 10))) acc) = true).
  { unfold clean_name in *. cbn [all_chars]. by rewrite digit_clean, Hacc. }
  destruct (n <? 10)%Z; [exact H|]. by apply IH.
Qed.

Lemma str_of_Z_clean n : clean_name (PyStr.str_of_Z n) = true.
Proof.
  unfold PyStr.str_of_Z. destruct (n <? 0)%Z.
  - change (clean_name (String "-" ?s)) with (true && clean_name s).
    by apply digitsZ_fuel_clean.
  - by apply digitsZ_fuel_clean.
Qed.

Lemma zeros_clean k : clean_name (PyStr.zeros k) = true.
Proof. induction k as [|k IH]; [done|]. exact IH. Qed.

Lemma zfill_clean w n : clean_name (PyStr.zfill w n) = true.
Proof.
  unfold PyStr.zfill. rewrite clean_app, zeros_clean.
  by apply digits_fuel_clean.
Qed.

(** The stem of a generated name is clean. *)
Lemma filename_stem_clean cfg user ttl c :
  clean_name (filename_stem cfg user ttl c) = true.
Proof.
  unfold filename_stem.
  rewrite !clean_app, clean_remove_chars, zfill_clean. reflexivity.
Qed.

(** The equations of [String.append]. *)
Lemma app_cons x (a b : string) : String x a ++ b = String x (a ++ b).
Proof. reflexivity. Qed.

Lemma app_nil (b : string) : "" ++ b = b.
Proof. reflexivity. Qed.

Lemma str_app_assoc (a b c : string) : (a ++ b) ++ c = a ++ (b ++ c).
Proof.
  induction a as [|x a IH]; [reflexivity|]. by rewrite !app_cons, IH.
Qed.

(** Reversal, as [endswith] uses it. *)
Lemma rev_onto_acc s acc : PyStr.rev_onto s acc = PyStr.rev_onto s "" ++ acc.
Proof.
  revert acc. induction s as [|c s IH]; intros acc; cbn [PyStr.rev_onto];
    [done|].
  rewrite (IH (String c acc)), (IH (String c "")), str_app_assoc.
  reflexivity.
Qed.

Lemma rev_onto_app s acc : PyStr.rev_onto s acc = PyStr.rev s ++ acc.
Proof. apply rev_onto_acc. Qed.

Lemma rev_cons c s : PyStr.rev (String c s) = PyStr.rev s ++ String c "".
Proof. unfold PyStr.rev at 1. cbn [PyStr.rev_onto]. apply rev_onto_app. Qed.

Lemma app_empty_r (s : string) : s ++ "" = s.
Proof.
  induction s as [|c s IH]; [reflexivity|].
  change (String c s ++ "") with (String c (s ++ "")). by rewrite IH.
Qed.

Lemma rev_app (a b : string) : PyStr.rev (a ++ b) = PyStr.rev b ++ PyStr.rev a.
Proof.
  induction a as [|c a IH].
  - rewrite app_nil. change (PyStr.rev "") with "". by rewrite app_empty_r.
  - by rewrite app_cons, !rev_cons, IH, str_app_assoc.
Qed.

Lemma rev_involutive s : PyStr.rev (PyStr.rev s) = s.
Proof.
  induction s as [|c s IH]; [done|].
  rewrite rev_cons, rev_app, IH. reflexivity.
Qed.

Lemma startswith_app (p x : string) : PyStr.startswith p (p ++ x) = true.
Proof.
  induction p as [|c p IH]; [reflexivity|].
  rewrite app_cons. cbn [PyStr.startswith]. by rewrite Ascii.eqb_refl, IH.
Qed.

Lemma endswith_app (p x : string) : PyStr.endswith p (x ++ p) = true.
Proof. unfold PyStr.endswith. rewrite rev_app. apply startswith_app. Qed.

(** A string that ends with a slash is something followed by a slash. *)
Lemma endswith_sep a :
  PyStr.endswith "/" a = true -> exists q, a = q ++ "/".
Proof.
  unfold PyStr.endswith. change (PyStr.rev "/") with "/".
  destruct (PyStr.rev a) as [|c r] eqn:E; cbn [PyStr.startswith]; [done|].
  intros H. apply andb_true_iff in H as [H _].
  apply Ascii.eqb_eq in H. subst c.
  exists (PyStr.rev r). rewrite <- (rev_involutive a), E. apply rev_cons.
Qed.

(** The last slash of a string. *)
Lemma rfind_from_app c (a b : string) i best :
  PyStr.rfind_from c (a ++ b) i best
  = PyStr.rfind_from c b (i + String.length a)
      (PyStr.rfind_from c a i best).
Proof.
  revert i best. induction a as [|d a IH]; intros i best.
  - rewrite app_nil. cbn [PyStr.rfind_from String.length].
    by rewrite Nat.add_0_r.
  - rewrite app_cons. cbn [PyStr.rfind_from String.length].
    rewrite IH. f_equal. lia.
Qed.

Lemma rfind_from_absent c (b : string) i best :
  all_chars (fun d => negb (Ascii.eqb c d)) b = true ->
  PyStr.rfind_from c b i best = best.
Proof.
  revert i best. induction b as [|d b IH]; intros i best;
    cbn [all_chars PyStr.rfind_from]; [done|].
  intros H. apply andb_true_iff in H as [Hd Hb].
  apply negb_true_iff in Hd. rewrite Hd. by apply IH.
Qed.

(** A clean name holds no slash. *)
Lemma clean_no_sep name :
  clean_name name = true ->
  all_chars (fun d => negb (Ascii.eqb "/" d)) name = true
  /\ PyStr.startswith "/" name = false.
Proof.
  unfold clean_name. induction name as [|c s IH]; cbn [all_chars]; [done|].
  intros H. apply andb_true_iff in H as [Hc Hs].
  assert (Hne : Ascii.eqb "/" c = false).
  { destruct (Ascii.eqb_spec "/" c) as [<-|]; [|done].
    vm_compute in Hc. discriminate. }
  cbn [PyStr.startswith]. rewrite Hne. cbn [negb andb].
  split; [by apply IH|done].
Qed.

Lemma drop_app_length (a b : string) : PyStr.drop (String.length a) (a ++ b) = b.
Proof.
  induction a as [|c a IH]; [by destruct b|].
  rewrite app_cons. exact IH.
Qed.

(** Joining a directory and a clean name gives a path whose last
    component is the name. *)
Lemma basename_join dir name :
  clean_name name = true -> OsPath.basename (OsPath.join dir name) = name.
Proof.
  intros Hc. destruct (clean_no_sep name Hc) as [Hno Hst].
  unfold OsPath.join. rewrite Hst. unfold OsPath.basename, PyStr.rfind.
  destruct (String.eqb_spec dir "") as [->|Hd]; cbn [orb].
  { rewrite app_nil. by rewrite rfind_from_absent. }
  destruct (PyStr.endswith "/" dir) eqn:He.
  - destruct (endswith_sep dir He) as (q & ->).
    rewrite !rfind_from_app, (rfind_from_absent _ name) by done.
    cbn [PyStr.rfind_from]. rewrite Ascii.eqb_refl.
    replace (S (0 + String.length q)) with (String.length (q ++ "/")).
    + apply drop_app_length.
    + rewrite length_app. cbn. lia.
  - rewrite <- (str_app_assoc dir "/" name).
    rewrite !rfind_from_app, (rfind_from_absent _ name) by done.
    cbn [PyStr.rfind_from]. rewrite Ascii.eqb_refl.
    replace (S (0 + String.length dir)) with (String.length (dir ++ "/")).
    + apply drop_app_length.
    + rewrite length_app. cbn. lia.
Qed.

(** A file name made of a clean stem, a clean suffix and the extension. *)
Lemma mp4_name_ok (stem suffix : string) :
  clean_name stem = true -> clean_name suffix = true ->
  clean_name (stem ++ suffix ++ ".mp4") = true
  /\ PyStr.endswith ".mp4" (stem ++ suffix ++ ".mp4") = true.
Proof.
  intros H1 H2. split.
  - by rewrite !clean_app, H1, H2.
  - rewrite <- str_app_assoc. apply endswith_app.
Qed.

(** The shape of every path the counter loop can return. *)
Lemma probe_counters_shape fuel w cfg stem c counter :
  clean_name stem = true ->
  exists name,
    probe_counters fuel w cfg stem c counter = OsPath.join (output_dir cfg) name
    /\ clean_name name = true
    /\ PyStr.endswith ".mp4" name = true.
Proof.
  intros Hstem.
  assert (Hts : exists name,
            ts_path cfg stem c = OsPath.join (output_dir cfg) name
            /\ clean_name name = true /\ PyStr.endswith ".mp4" name = true).
  { exists (stem ++ ("_" ++ PyStr.str_of_Z (time_ms c)) ++ ".mp4").
    split; [by unfold ts_path; rewrite !str_app_assoc|].
    apply mp4_name_ok; [done|]. by rewrite clean_app, str_of_Z_clean. }
  revert counter. induction fuel as [|f IH]; intros counter;
    cbn [probe_counters]; [exact Hts|].
  destruct (negb (Os.path_exists w (counter_path cfg stem counter))).
  - exists (stem ++ ("_" ++ PyStr.zfill 3 counter) ++ ".mp4").
    split; [by unfold counter_path; rewrite !str_app_assoc|].
    apply mp4_name_ok; [done|]. by rewrite clean_app, zfill_clean.
  - destruct (999 <? S counter)%nat; [exact Hts|apply IH].
Qed.

(** Extra X16. Whatever the pattern, the username and the title hold,
    the path [_generate_filename] returns is the output directory joined
    with a single file name: the name holds none of the characters the
    recorder strips (angle brackets, colon, double quote, slash,
    backslash, bar, question mark, star), so no path separator, it ends
    in [.mp4], and it is the last component of the path. *)
Theorem generated_filename_stays_in_output_dir w cfg r c ttl :
  title r = JStr ttl ->
  exists name,
    _generate_filename w cfg r c = Ret (OsPath.join (output_dir cfg) name)
    /\ clean_name name = true
    /\ PyStr.endswith ".mp4" name = true
    /\ OsPath.basename (OsPath.join (output_dir cfg) name) = name.
Proof.
  intros Ht. unfold _generate_filename. rewrite Ht.
  set (stem := filename_stem cfg (username r) ttl c).
  assert (Hstem : clean_name stem = true) by apply filename_stem_clean.
  assert (H : exists name,
            (if negb (Os.path_exists w (base_path cfg stem))
             then base_path cfg stem
             else probe_counters 999 w cfg stem c 1)
            = OsPath.join (output_dir cfg) name
            /\ clean_name name = true /\ PyStr.endswith ".mp4" name = true).
  { destruct (negb (Os.path_exists w (base_path cfg stem))).
    - exists (stem ++ "" ++ ".mp4"). split; [reflexivity|].
      by apply mp4_name_ok.
    - by apply probe_counters_shape. }
  destruct H as (name & -> & H1 & H2).
  exists name. repeat split; try done. by apply basename_join.
Qed.

(** A title and a pattern full of separators. *)
Lemma generated_filename_shape_witness :
  let cfg := mkConfig "./recordings" "" 60 "best" "../{title}/{username}" 0 0 0 in
  exists name,
    _generate_filename (Sample.world_of 100000 true) cfg
      {| process := None; is_recording := false; is_stopping := false;
         output_file := None; actual_recording_file := None;
         raw_recording_file := None; username := "../bob";
         title := JStr "a/b\c"; live_url := ""; stream_url := JStr "";
         first_write_time := None; stop_event := false;
         file_check_count := 0; recording_method := "";
         last_error := None; on_complete := false |} Sample.clk
    = Ret (OsPath.join (output_dir cfg) name)
    /\ clean_name name = true
    /\ PyStr.endswith ".mp4" name = true
    /\ OsPath.basename (OsPath.join (output_dir cfg) name) = name.
Proof.
  intros cfg.
  apply (generated_filename_stays_in_output_dir (Sample.world_of 100000 true)
           cfg _ Sample.clk "a/b\c").
  reflexivity.
Defined.

End FileNameShape.

(* ===================================================================== *)
(** ** The watchlist *)
(* ===================================================================== *)

Section WatchlistProofs.

Lemma is_str_eq s x : Py.is_str s x = true <-> x = JStr s.
Proof.
  destruct x; simpl; try (split; [discriminate|intros [=]]).
  split.
  - intros H. apply String.eqb_eq in H. by subst.
  - intros [= ->]. apply String.eqb_refl.
Qed.

Lemma existsb_is_str s (l : list json) :
  existsb (Py.is_str s) l = true <-> JStr s ∈ l.
Proof.
  rewrite existsb_exists. split.
  - intros (x & Hx & Hs). apply is_str_eq in Hs as ->. by apply list_elem_of_In.
  - intros H. exists (JStr s). split; [by apply list_elem_of_In|].
    by apply is_str_eq.
Qed.

(** [list.remove]: what is removed is the first occurrence. *)
Lemma remove_first_none s l :
  PyList.remove_first s l = None <-> JStr s ∉ l.
Proof.
  induction l as [|x l IH]; simpl.
  - split; [intros _; apply not_elem_of_nil|done].
  - destruct (Py.is_str s x) eqn:E.
    + apply is_str_eq in E as ->. split; [done|].
      intros H. destruct H. apply list_elem_of_here.
    + assert (x <> JStr s).
      { intros ->. rewrite (proj2 (is_str_eq s (JStr s)) eq_refl) in E. done. }
      destruct (PyList.remove_first s l) as [l'|]; rewrite not_elem_of_cons.
      * split; [done|]. intros [_ H']. by apply IH in H'.
      * split; [|done]. intros _. split; [done|]. by apply IH.
Qed.

Lemma remove_first_some s l l' :
  PyList.remove_first s l = Some l' ->
  (forall x, x ∈ l' -> x ∈ l)
  /\ (forall x, x <> JStr s -> x ∈ l -> x ∈ l')
  /\ (NoDup l -> NoDup l' /\ JStr s ∉ l').
Proof.
  revert l'. induction l as [|x l IH]; intros l'; simpl; [done|].
  destruct (Py.is_str s x) eqn:E.
  - apply is_str_eq in E as ->. intros [= <-]. split; [|split].
    + intros y Hy. by apply list_elem_of_further.
    + intros y Hne Hy. apply elem_of_cons in Hy as [->|Hy]; done.
    + intros Hnd. apply NoDup_cons in Hnd as [H1 H2]. done.
  - assert (Hx : x <> JStr s).
    { intros ->. rewrite (proj2 (is_str_eq s (JStr s)) eq_refl) in E. done. }
    destruct (PyList.remove_first s l) as [l1|]; [|done].
    intros [= <-]. destruct (IH l1 eq_refl) as (H1 & H2 & H3).
    split; [|split].
    + intros y Hy. apply elem_of_cons in Hy as [->|Hy];
        [apply list_elem_of_here|apply list_elem_of_further; by apply H1].
    + intros y Hne Hy. apply elem_of_cons in Hy as [->|Hy];
        [apply list_elem_of_here|apply list_elem_of_further; by apply H2].
    + intros Hnd. apply NoDup_cons in Hnd as [N1 N2].
      destruct (H3 N2) as [N3 N4]. split.
      * apply NoDup_cons. split; [|done]. intros Hin. apply N1. by apply H1.
      * rewrite not_elem_of_cons. done.
Qed.

Lemma remove_first_last s l :
  JStr s ∉ l -> PyList.remove_first s (l ++ [JStr s]) = Some l.
Proof.
  induction l as [|x l IH]; intros Hn; simpl.
  - by rewrite String.eqb_refl.
  - apply not_elem_of_cons in Hn as [Hx Hl].
    destruct (Py.is_str s x) eqn:E; [apply is_str_eq in E; congruence|].
    by rewrite (IH Hl).
Qed.

(** [Watchlist.add] on a list. *)
Lemma add_list u w l :
  content w = JList l ->
  let r := Watchlist.handle u in
  let b := negb (String.eqb r "") && negb (existsb (Py.is_str r) l) in
  Watchlist.add u w
  = (if b
     then mkListed (JList (l ++ [JStr r]))
            (JsonFile.dump Watchlist.file
               (JDict [("users", JList (l ++ [JStr r]))]) (store w))
     else w, Ret b).
Proof.
  intros Hc r b. subst b. unfold Watchlist.add. fold r.
  unfold bind, get_st, lift, ret, Watchlist.set_users, Watchlist.save, modify.
  rewrite Hc. cbn [Py.contains PyList.append].
  destruct (String.eqb r ""); cbn [negb andb]; [done|].
  destruct (existsb (Py.is_str r) l); cbn [negb]; done.
Qed.

(** [Watchlist.remove] on a list. *)
Lemma remove_list u w l :
  content w = JList l ->
  let r := Watchlist.handle u in
  Watchlist.remove u w
  = match PyList.remove_first r l with
    | Some l' =>
        (mkListed (JList l')
           (JsonFile.dump Watchlist.file (JDict [("users", JList l')])
              (store w)), Ret true)
    | None => (w, Ret false)
    end.
Proof.
  intros Hc r. unfold Watchlist.remove. fold r.
  unfold bind, get_st, lift, ret, Watchlist.set_users, Watchlist.save, modify.
  rewrite Hc. cbn [Py.contains PyList.remove].
  destruct (PyList.remove_first r l) as [l'|] eqn:E.
  - destruct (existsb (Py.is_str r) l) eqn:H; [done|].
    assert (Hn : JStr r ∉ l).
    { intros Hin. apply existsb_is_str in Hin. congruence. }
    apply remove_first_none in Hn. congruence.
  - apply remove_first_none in E.
    destruct (existsb (Py.is_str r) l) eqn:H; [|done].
    apply existsb_is_str in H. done.
Qed.

(** One call on a duplicate-free list. *)
Lemma run_watch_op_list o w l :
  content w = JList l -> NoDup l ->
  exists w' l',
    run_watch_op o w = (w', Ret tt)
    /\ content w' = JList l' /\ NoDup l'
    /\ (forall x, x ∈ l' ->
          x ∈ l \/ (x ∈ added [o] /\ x <> JStr "")).
Proof.
  intros Hc Hnd. destruct o as [u|u]; cbn [run_watch_op added].
  - unfold bind. rewrite (add_list u w l Hc).
    set (r := Watchlist.handle u).
    destruct (String.eqb_spec r "") as [He|Hne]; cbn [negb andb].
    { exists w, l. repeat split; try done; auto. }
    destruct (existsb (Py.is_str r) l) eqn:Hex; cbn [negb].
    { exists w, l. repeat split; try done; auto. }
    assert (Hn : JStr r ∉ l).
    { intros Hin. apply existsb_is_str in Hin. congruence. }
    eexists _, _. split; [reflexivity|]. cbn [content store].
    split; [reflexivity|]. split.
    { apply NoDup_app. split; [done|]. split; [|apply NoDup_singleton].
      intros x Hx Hx'. apply list_elem_of_singleton in Hx'. by subst. }
    intros x Hx. apply elem_of_app in Hx as [Hx|Hx]; [by left|right].
    apply list_elem_of_singleton in Hx as ->. split; [apply list_elem_of_here|].
    intros [= E]. done.
  - unfold bind. rewrite (remove_list u w l Hc).
    set (r := Watchlist.handle u).
    destruct (PyList.remove_first r l) as [l'|] eqn:E.
    + destruct (remove_first_some r l l' E) as (H1 & _ & H3).
      eexists _, _. split; [reflexivity|]. cbn [content store].
      split; [reflexivity|]. split; [by apply H3|].
      intros x Hx; left; by apply H1.
    + exists w, l. repeat split; try done; auto.
Qed.

(** Extra X17. Starting from a watchlist that holds no handle twice,
    whatever handles are added and removed, in whatever order: every call
    returns, the list still holds no handle twice, and each of its
    entries was there at the start or is the normalised, non-empty form
    of a handle that was added. *)
Theorem watchlist_stays_duplicate_free ops w l0 :
  content w = JList l0 -> NoDup l0 ->
  exists w' l,
    run_watch_ops ops w = (w', Ret tt)
    /\ content w' = JList l /\ NoDup l
    /\ (forall x, x ∈ l -> x ∈ l0 \/ (x ∈ added ops /\ x <> JStr "")).
Proof.
  revert w l0. induction ops as [|o ops IH]; intros w l0 Hc Hnd.
  { exists w, l0. repeat split; try done. by left. }
  destruct (run_watch_op_list o w l0 Hc Hnd) as (w1 & l1 & E1 & C1 & N1 & M1).
  destruct (IH w1 l1 C1 N1) as (w2 & l2 & E2 & C2 & N2 & M2).
  exists w2, l2. split.
  { unfold run_watch_ops in *. cbn [for_each].
    by rewrite (bind_eq _ _ _ _ _ E1). }
  split; [done|]. split; [done|].
  intros x Hx. destruct (M2 x Hx) as [H1|[H1 H2]].
  - destruct (M1 x H1) as [?|[H3 H4]]; [by left|right]. split; [|done].
    destruct o; cbn [added] in *; [|by apply elem_of_nil in H3].
    apply list_elem_of_singleton in H3 as ->. apply list_elem_of_here.
  - right. split; [|done]. destruct o; cbn [added]; [|done].
    by apply list_elem_of_further.
Qed.

(** The same handle added in three spellings, then removed. *)
Lemma watchlist_duplicate_free_witness :
  let w := Watchlist.init (mkStore ∅ ∅ ∅) in
  let ops := [WAdd "@Bob"; WAdd " bob "; WAdd "alice"; WRemove "BOB"] in
  exists w' l,
    run_watch_ops ops w = (w', Ret tt)
    /\ content w' = JList l /\ NoDup l
    /\ (forall x, x ∈ l -> x ∈ [] \/ (x ∈ added ops /\ x <> JStr "")).
Proof.
  apply (watchlist_stays_duplicate_free
           [WAdd "@Bob"; WAdd " bob "; WAdd "alice"; WRemove "BOB"]
           (Watchlist.init (mkStore ∅ ∅ ∅)) []).
  - reflexivity.
  - constructor.
Defined.

(** Extra X18. On a watchlist that is a list, [add] returns a boolean.
    When it returns true the normalised handle was appended; a second
    [add] of the same handle then returns false and changes nothing, and
    a [remove] of it returns true and gives back the list as it was.
    When [add] returns false nothing is changed, the file included. *)
Theorem watchlist_add_then_remove u w l :
  content w = JList l ->
  let a := Watchlist.add u w in
  (snd a = Ret true \/ snd a = Ret false)
  /\ (snd a = Ret false -> fst a = w)
  /\ (snd a = Ret true ->
      content (fst a) = JList (l ++ [JStr (Watchlist.handle u)])
      /\ Watchlist.add u (fst a) = (fst a, Ret false)
      /\ exists w2, Watchlist.remove u (fst a) = (w2, Ret true)
                    /\ content w2 = JList l).
Proof.
  intros Hc a. subst a. rewrite (add_list u w l Hc).
  set (r := Watchlist.handle u).
  destruct (negb (String.eqb r "") && negb (existsb (Py.is_str r) l)) eqn:B;
    cbn [fst snd].
  2:{ split; [by right|]. split; [done|]. intros [=]. }
  split; [by left|]. split; [intros [=]|]. intros _.
  apply andb_true_iff in B as [B1 B2]. apply negb_true_iff in B2.
  assert (Hn : JStr r ∉ l).
  { intros Hin. apply existsb_is_str in Hin. congruence. }
  cbn [content]. split; [done|]. split.
  - match goal with |- Watchlist.add u ?w1 = _ =>
      rewrite (add_list u w1 (l ++ [JStr r]) eq_refl) end.
    fold r. rewrite B1, existsb_app. cbn [existsb Py.is_str].
    rewrite String.eqb_refl, orb_true_r. reflexivity.
  - match goal with |- context [Watchlist.remove u ?w1] =>
      rewrite (remove_list u w1 (l ++ [JStr r]) eq_refl) end.
    fold r. rewrite (remove_first_last r l Hn). eexists. split; reflexivity.
Qed.

(** A handle added to an empty watchlist. *)
Lemma watchlist_add_witness :
  let w := Watchlist.init (mkStore ∅ ∅ ∅) in
  let a := Watchlist.add " @Bob" w in
  (snd a = Ret true \/ snd a = Ret false)
  /\ (snd a = Ret false -> fst a = w)
  /\ (snd a = Ret true ->
      content (fst a) = JList ([] ++ [JStr (Watchlist.handle " @Bob")])
      /\ Watchlist.add " @Bob" (fst a) = (fst a, Ret false)
      /\ exists w2, Watchlist.remove " @Bob" (fst a) = (w2, Ret true)
                    /\ content w2 = JList []).
Proof.
  apply (watchlist_add_then_remove " @Bob" (Watchlist.init (mkStore ∅ ∅ ∅)) []).
  reflexivity.
Defined.

(** What [save] writes is what [__init__] reads. *)
Lemma saved_reloads v st :
  Watchlist.file ∉ unwritable st -> Watchlist.file ∉ unreadable st ->
  Watchlist.init (JsonFile.dump Watchlist.file (JDict [("users", v)]) st)
  = mkListed v (JsonFile.dump Watchlist.file (JDict [("users", v)]) st).
Proof.
  intros Hw Hr. unfold Watchlist.init, Watchlist.load, JsonFile.load,
    JsonFile.dump.
  rewrite (bool_decide_eq_false_2 _ Hw). cbn [store docs unreadable].
  rewrite lookup_insert_eq, (bool_decide_eq_false_2 _ Hr). reflexivity.
Qed.

(** Extra X19. On a watchlist that is a list, with a file that can be
    written and read, a call of [add] or [remove] either changes
    nothing, or leaves on disk exactly the list it leaves in memory: a
    watchlist opened afresh on the files is the one the call left. When
    the file cannot be written the call still returns and the files are
    as they were. *)
Theorem watchlist_changes_are_saved o w l :
  content w = JList l ->
  let w' := fst (run_watch_op o w) in
  snd (run_watch_op o w) = Ret tt
  /\ (Watchlist.file ∉ unwritable (store w) ->
      Watchlist.file ∉ unreadable (store w) ->
      w' = w \/ Watchlist.init (store w') = w')
  /\ (Watchlist.file ∈ unwritable (store w) -> store w' = store w).
Proof.
  intros Hc w'. subst w'.
  destruct o as [u|u]; cbn [run_watch_op]; unfold bind.
  - rewrite (add_list u w l Hc).
    destruct (negb _ && negb _); cbn [fst snd store].
    + split; [done|]. split.
      * intros Hw Hr. right. by apply saved_reloads.
      * intros Hw. unfold JsonFile.dump.
        by rewrite (bool_decide_eq_true_2 _ Hw).
    + split; [done|]. split; [by left|done].
  - rewrite (remove_list u w l Hc).
    destruct (PyList.remove_first _ l); cbn [fst snd store].
    + split; [done|]. split.
      * intros Hw Hr. right. by apply saved_reloads.
      * intros Hw. unfold JsonFile.dump.
        by rewrite (bool_decide_eq_true_2 _ Hw).
    + split; [done|]. split; [by left|done].
Qed.

(** A handle added to an empty watchlist is on disk. *)
Lemma watchlist_saved_witness :
  let w := Watchlist.init (mkStore ∅ ∅ ∅) in
  let w' := fst (run_watch_op (WAdd "bob") w) in
  snd (run_watch_op (WAdd "bob") w) = Ret tt
  /\ (Watchlist.file ∉ unwritable (store w) ->
      Watchlist.file ∉ unreadable (store w) ->
      w' = w \/ Watchlist.init (store w') = w')
  /\ (Watchlist.file ∈ unwritable (store w) -> store w' = store w).
Proof.
  apply (watchlist_changes_are_saved (WAdd "bob")
           (Watchlist.init (mkStore ∅ ∅ ∅)) []).
  reflexivity.
Defined.

(** Extra X20. On a watchlist that holds no handle twice, [remove] looks
    for the normal form of its argument: when that is listed the call
    returns true, and afterwards it is not listed while every other
    entry is; when it is not listed the call returns false and changes
    nothing, the argument itself being listed or not. *)
Theorem watchlist_remove_listed h w l :
  content w = JList l -> NoDup l ->
  (JStr (Watchlist.handle h) ∈ l ->
   exists w' l',
     Watchlist.remove h w = (w', Ret true)
     /\ content w' = JList l'
     /\ (JStr (Watchlist.handle h) ∉ l')
     /\ (forall x, x <> JStr (Watchlist.handle h) -> (x ∈ l' <-> x ∈ l)))
  /\ (JStr (Watchlist.handle h) ∉ l -> Watchlist.remove h w = (w, Ret false)).
Proof.
  intros Hc Hnd. rewrite (remove_list h w l Hc).
  set (r := Watchlist.handle h).
  assert (H1 : JStr r ∈ l ->
               exists w' l',
                 match PyList.remove_first r l with
                 | Some l'0 =>
                     (mkListed (JList l'0)
                        (JsonFile.dump Watchlist.file
                           (JDict [("users", JList l'0)]) (store w)),
                      Ret true)
                 | None => (w, Ret false)
                 end = (w', Ret true)
                 /\ content w' = JList l'
                 /\ (JStr r ∉ l')
                 /\ (forall x, x <> JStr r -> (x ∈ l' <-> x ∈ l))).
  { intros Hin. destruct (PyList.remove_first r l) as [l'|] eqn:E.
    - destruct (remove_first_some r l l' E) as (A & B & C).
      destruct (C Hnd) as [_ C2].
      eexists _, l'. split; [reflexivity|]. split; [reflexivity|].
      split; [done|]. intros x Hx. split; [apply A|by apply B].
    - apply remove_first_none in E. done. }
  split; [exact H1|].
  intros Hn. apply remove_first_none in Hn. by rewrite Hn.
Qed.

(** A listed handle is removed. *)
Lemma watchlist_remove_witness :
  let w := fst (Watchlist.add "bob" (Watchlist.init (mkStore ∅ ∅ ∅))) in
  (JStr (Watchlist.handle "@Bob") ∈ [JStr "bob"] ->
   exists w' l',
     Watchlist.remove "@Bob" w = (w', Ret true)
     /\ content w' = JList l'
     /\ (JStr (Watchlist.handle "@Bob") ∉ l')
     /\ (forall x, x <> JStr (Watchlist.handle "@Bob") ->
                   (x ∈ l' <-> x ∈ [JStr "bob"])))
  /\ (JStr (Watchlist.handle "@Bob") ∉ [JStr "bob"] ->
      Watchlist.remove "@Bob" w = (w, Ret false)).
Proof.
  apply (watchlist_remove_listed "@Bob"
           (fst (Watchlist.add "bob" (Watchlist.init (mkStore ∅ ∅ ∅))))
           [JStr "bob"]).
  - reflexivity.
  - apply NoDup_singleton.
Defined.

(** A handle with a blank after its at-sign: [add] stores a name that is
    not its own normal form, so that [remove], given the stored name as
    the list shows it, does not find it. *)
Example watchlist_entry_that_cannot_be_removed :
  let w := fst (Watchlist.add "@ bob" (Watchlist.init (mkStore ∅ ∅ ∅))) in
  content w = JList [JStr " bob"]
  /\ Watchlist.remove " bob" w = (w, Ret false).
Proof. split; vm_compute; reflexivity. Qed.

End WatchlistProofs.

(* ===================================================================== *)
(** ** The history *)
(* ===================================================================== *)

Section HistoryProofs.

(** [History.add] on a list. *)
Lemma history_add_list f h l :
  content h = JList l ->
  record_finished f h
  = (mkListed (JList (firstn 100 (entry_of f :: l)))
       (JsonFile.dump History.file (JList (firstn 100 (entry_of f :: l)))
          (store h)),
     Ret tt).
Proof.
  intros Hc. unfold record_finished, History.add, History.save, bind,
    get_st, lift, modify.
  rewrite Hc. reflexivity.
Qed.

Lemma firstn_app_firstn {A} n (a b : list A) :
  firstn n (a ++ firstn n b) = firstn n (a ++ b).
Proof.
  rewrite !firstn_app, firstn_firstn. do 2 f_equal. lia.
Qed.

(** What [save] writes is what [__init__] reads. *)
Lemma history_saved_reloads doc st :
  History.file ∉ unwritable st -> History.file ∉ unreadable st ->
  History.init (JsonFile.dump History.file doc st)
  = mkListed doc (JsonFile.dump History.file doc st).
Proof.
  intros Hw Hr. unfold History.init, History.load, JsonFile.load,
    JsonFile.dump.
  rewrite (bool_decide_eq_false_2 _ Hw). cbn [store docs unreadable].
  rewrite lookup_insert_eq, (bool_decide_eq_false_2 _ Hr). reflexivity.
Qed.

Lemma dump_keeps_permissions name doc st :
  unwritable (JsonFile.dump name doc st) = unwritable st
  /\ unreadable (JsonFile.dump name doc st) = unreadable st.
Proof. unfold JsonFile.dump. by case_bool_decide. Qed.

(** Entries added one after the other. *)
Lemma history_adds fs h l :
  content h = JList l ->
  exists h',
    for_each record_finished fs h = (h', Ret tt)
    /\ content h'
       = JList (match fs with
                | [] => l
                | _ => firstn 100 (rev (map entry_of fs) ++ l)
                end)
    /\ unwritable (store h') = unwritable (store h)
    /\ unreadable (store h') = unreadable (store h)
    /\ (fs <> [] ->
        History.file ∉ unwritable (store h) ->
        History.file ∉ unreadable (store h) ->
        History.init (store h') = h').
Proof.
  revert h l. induction fs as [|f fs IH]; intros h l Hc.
  { exists h. repeat split; done. }
  cbn [for_each]. unfold bind at 1. rewrite (history_add_list f h l Hc).
  set (h1 := mkListed _ _).
  destruct (dump_keeps_permissions History.file
              (JList (firstn 100 (entry_of f :: l))) (store h)) as [P1 P2].
  destruct (IH h1 (firstn 100 (entry_of f :: l)) eq_refl)
    as (h' & E & C & W & R & S).
  exists h'. split; [exact E|]. split.
  { rewrite C. destruct fs as [|f' fs']; [reflexivity|].
    f_equal. rewrite firstn_app_firstn.
    cbn [rev map]. by rewrite <- !app_assoc. }
  split; [by rewrite W|]. split; [by rewrite R|].
  intros _ Hw Hr. destruct fs as [|f' fs'].
  - cbn [for_each] in E. injection E as <-.
    subst h1. by apply history_saved_reloads.
  - apply S; [done| |]; subst h1; cbn [store]; by rewrite ?P1, ?P2.
Qed.

(** Extra X21. On a history that is a list, recording finished sessions
    one after the other always returns and leaves their entries, newest
    first, before the old ones, cut to the first hundred; when the file
    can be written and read, a history opened afresh on the files is the
    one the calls left. On a history that is not a list (the file held
    something else) [add] raises and changes nothing. *)
Theorem history_keeps_latest_hundred fs h :
  (forall l, content h = JList l ->
     let run := for_each record_finished fs h in
     snd run = Ret tt
     /\ content (fst run)
        = JList (match fs with
                 | [] => l
                 | _ => firstn 100 (rev (map entry_of fs) ++ l)
                 end)
     /\ (fs <> [] ->
         History.file ∉ unwritable (store h) ->
         History.file ∉ unreadable (store h) ->
         History.init (store (fst run)) = fst run))
  /\ (is_list (content h) = false ->
      forall f, exists x, record_finished f h = (h, Raise x)).
Proof.
  split.
  - intros l Hc run. subst run.
    destruct (history_adds fs h l Hc) as (h' & -> & C & _ & _ & S). done.
  - intros Hn f. unfold record_finished, History.add, bind, get_st, lift.
    destruct (content h); try discriminate Hn; eexists; reflexivity.
Qed.

(** A history that holds one entry and receives a hundred more: the old
    entry is gone. *)
Example history_drops_the_oldest_entry :
  let old := mkFinished "alice" "first" "00:10:00" "a.mp4" "1.0 MB" "t0" in
  let new := mkFinished "bob" "next" "00:20:00" "b.mp4" "2.0 MB" "t1" in
  let h := History.init
             (mkStore {[ History.file := Some (JList [entry_of old]) ]} ∅ ∅) in
  content h = JList [entry_of old]
  /\ content (fst (for_each record_finished (repeat new 100) h))
     = JList (repeat (entry_of new) 100).
Proof. split; vm_compute; reflexivity. Qed.

End HistoryProofs.

(* ===================================================================== *)
(** ** The settings file *)
(* ===================================================================== *)

Section SettingsProofs.
Import ConfigFile.

Variable class_attr : string -> bool.
Variable setattr_class : string -> json -> M AppConfig unit.

#[local] Abbreviation from_dict := (ConfigFile.from_dict class_attr setattr_class).
#[local] Abbreviation from_dict_key := (ConfigFile.from_dict_key class_attr setattr_class).
#[local] Abbreviation load := (ConfigFile.load class_attr setattr_class).

(** The dictionary of a configuration is read back as that
    configuration. *)
Lemma from_dict_to_dict c : from_dict (to_dict c) = Ret c.
Proof. destruct c as [? ? ? ? ? ? ? [] [] ? ? ?]. reflexivity. Qed.

(** Extra X22. The dictionary [to_dict] builds from a configuration is
    turned back into that configuration by [from_dict]; and a
    configuration saved to a file that can be written and read is the one
    [load] returns. *)
Theorem settings_survive_save_and_load c :
  from_dict (to_dict c) = Ret c
  /\ (forall st filepath,
        filepath ∉ unwritable st -> filepath ∉ unreadable st ->
        load (save c filepath st) filepath = c).
Proof.
  split; [apply from_dict_to_dict|].
  intros st f Hw Hr. unfold ConfigFile.load, save, JsonFile.load,
    JsonFile.dump.
  rewrite (bool_decide_eq_false_2 _ Hw). cbn [docs unreadable].
  rewrite lookup_insert_eq, (bool_decide_eq_false_2 _ Hr).
  by rewrite from_dict_to_dict.
Qed.

(** A loop that meets an entry on which its body raises, raises. *)
Lemma for_each_raises {S A} (f : A -> M S unit) x l :
  In x l -> (forall s, exists s' e, f x s = (s', Raise e)) ->
  forall s, exists s' e, for_each f l s = (s', Raise e).
Proof.
  intros Hin Hx. induction l as [|y l IH]; [destruct Hin|].
  intros s. cbn [for_each]. unfold bind.
  destruct (f y s) as [s1 [[]|e]] eqn:E.
  - destruct Hin as [->|Hin].
    + destruct (Hx s) as (s' & e & E'). congruence.
    + apply (IH Hin).
  - eauto.
Qed.

(** The keyword arguments are checked one by one. *)
Lemma telegram_kwargs d :
  forallb (fun kv => telegram_field (fst kv)) d = false ->
  forall t, exists t' e, for_each telegram_kwarg d t = (t', Raise e).
Proof.
  induction d as [|[k v] d IH]; [discriminate|].
  cbn [forallb fst]. intros H t. cbn [for_each]. unfold bind.
  destruct (telegram_field k) eqn:Ek.
  - cbn [andb] in H.
    destruct (telegram_kwarg (k, v) t) as [t1 [[]|e]]; eauto.
  - unfold telegram_field in Ek. cbn [existsb] in Ek.
    repeat (apply orb_false_elim in Ek as [?E Ek]).
    unfold telegram_kwarg. rewrite E, E0, E1, E2, E3, E4.
    unfold raise. eauto.
Qed.

Lemma sound_kwargs d :
  forallb (fun kv => sound_field (fst kv)) d = false ->
  forall t, exists t' e, for_each sound_kwarg d t = (t', Raise e).
Proof.
  induction d as [|[k v] d IH]; [discriminate|].
  cbn [forallb fst]. intros H t. cbn [for_each]. unfold bind.
  destruct (sound_field k) eqn:Ek.
  - cbn [andb] in H.
    destruct (sound_kwarg (k, v) t) as [t1 [[]|e]]; eauto.
  - unfold sound_field in Ek. cbn [existsb] in Ek.
    repeat (apply orb_false_elim in Ek as [?E Ek]).
    unfold sound_kwarg. rewrite E, E0, E1, E2.
    unfold raise. eauto.
Qed.

Lemma new_telegram_rejects v :
  section_ok telegram_field v = false -> exists e, new_telegram v = Raise e.
Proof.
  destruct v as [| | | | |d]; cbn [section_ok new_telegram]; eauto.
  intros H. destruct (telegram_kwargs d H default_telegram) as (t & e & ->).
  cbn. eauto.
Qed.

Lemma new_sound_rejects v :
  section_ok sound_field v = false -> exists e, new_sound v = Raise e.
Proof.
  destruct v as [| | | | |d]; cbn [section_ok new_sound]; eauto.
  intros H. destruct (sound_kwargs d H default_sound) as (t & e & ->).
  cbn. eauto.
Qed.

(** A document with a section its constructor rejects is rejected. *)
Lemma from_dict_rejects d key v :
  In (key, v) d ->
  (key = "telegram" /\ section_ok telegram_field v = false)
  \/ (key = "sound" /\ section_ok sound_field v = false) ->
  exists e, from_dict (JDict d) = Raise e.
Proof.
  intros Hin Hbad. unfold ConfigFile.from_dict.
  cbn [Py.items]. unfold bind at 1, lift at 1.
  destruct (for_each_raises from_dict_key (key, v) d Hin) with (s := default)
    as (c & e & ->); [|cbn; eauto].
  intros s. destruct Hbad as [[-> Hv]|[-> Hv]].
  - destruct (new_telegram_rejects v Hv) as (e & E).
    unfold ConfigFile.from_dict_key. cbn [String.eqb Ascii.eqb].
    change ("telegram" =? "telegram")%string with true. cbv iota.
    unfold bind, lift. rewrite E. eauto.
  - destruct (new_sound_rejects v Hv) as (e & E).
    unfold ConfigFile.from_dict_key.
    change ("sound" =? "telegram")%string with false.
    change ("sound" =? "sound")%string with true. cbv iota.
    unfold bind, lift. rewrite E. eauto.
Qed.

(** Extra X23. [load] gives the default configuration when there is no
    settings file, when the file cannot be read, when it does not parse,
    when the document is not a dictionary, and when its [telegram] or
    [sound] entry is not a dictionary of fields of that section: the
    other settings of such a file are dropped too. *)
Theorem settings_load_falls_back_to_defaults st filepath :
  (docs st !! filepath = None -> load st filepath = default)
  /\ (filepath ∈ unreadable st -> load st filepath = default)
  /\ (docs st !! filepath = Some None -> load st filepath = default)
  /\ (forall doc,
        docs st !! filepath = Some (Some doc) ->
        (forall d, doc <> JDict d) ->
        load st filepath = default)
  /\ (forall d key v,
        docs st !! filepath = Some (Some (JDict d)) ->
        In (key, v) d ->
        (key = "telegram" /\ section_ok telegram_field v = false)
        \/ (key = "sound" /\ section_ok sound_field v = false) ->
        load st filepath = default).
Proof.
  unfold ConfigFile.load, JsonFile.load.
  split; [by intros ->|]. split.
  { intros Hr. rewrite (bool_decide_eq_true_2 _ Hr).
    by destruct (docs st !! filepath). }
  split.
  { intros ->. by case_bool_decide. }
  split.
  { intros doc -> Hd. case_bool_decide; [done|].
    destruct doc; try reflexivity. by destruct (Hd d). }
  intros d key v -> Hin Hbad. case_bool_decide; [done|].
  by destruct (from_dict_rejects d key v Hin Hbad) as (e & ->).
Qed.

(** A settings file whose [telegram] section has a key of an older
    version: the output directory it names is not used. *)
Example settings_file_with_a_stale_key :
  let doc := JDict [("output_dir", JStr "/data");
                    ("telegram", JDict [("token", JStr "x")])] in
  load (mkStore {[ "config.json" := Some doc ]} ∅ ∅) "config.json"
  = default.
Proof. reflexivity. Qed.

(** An entry that names no attribute changes nothing. *)
Lemma unknown_key_skipped k v c :
  is_field k || class_attr k = false ->
  from_dict_key (k, v) c = (c, Ret tt).
Proof.
  intros H. apply orb_false_elim in H as [Hf Hc].
  unfold is_field in Hf. cbn [existsb] in Hf.
  repeat (apply orb_false_elim in Hf as [?E Hf]).
  unfold ConfigFile.from_dict_key, set_field.
  rewrite E, E0, E1, E2, E3, E4, E5, E6, E7, E8, E9, E10, Hc.
  reflexivity.
Qed.

Lemma for_each_known d c :
  for_each from_dict_key (known_keys class_attr d) c
  = for_each from_dict_key d c.
Proof.
  revert c. induction d as [|[k v] d IH]; intros c; [reflexivity|].
  unfold known_keys. cbn [List.filter fst]. fold (known_keys class_attr d).
  destruct (is_field k || class_attr k) eqn:E.
  - cbn [for_each]. unfold bind.
    destruct (from_dict_key (k, v) c) as [c1 [[]|e]]; [apply IH|done].
  - cbn [for_each]. unfold bind at 1.
    rewrite (unknown_key_skipped k v c E). apply IH.
Qed.

(** Extra X24. [from_dict] ignores the entries of the document whose key
    names no attribute of the configuration: with or without them the
    result, or the exception, is the same. *)
Theorem settings_ignore_unknown_keys d :
  from_dict (JDict d) = from_dict (JDict (known_keys class_attr d)).
Proof.
  unfold ConfigFile.from_dict. cbn [Py.items].
  unfold bind, lift. by rewrite for_each_known.
Qed.

End SettingsProofs.

(* ===================================================================== *)
(** ** The duration shown *)
(* ===================================================================== *)

Section DurationProofs.

(** A decimal digit is read as its value. *)
Lemma read_digit n rest a :
  read_number (String (PyStr.digit n) rest) a
  = read_number rest (10 * a + n mod 10).
Proof.
  unfold PyStr.digit.
  assert (H : (n mod 10 < 10)%nat) by (apply Nat.mod_upper_bound; lia).
  destruct (n mod 10)%nat as [|[|[|[|[|[|[|[|[|[|m]]]]]]]]]];
    try reflexivity; lia.
Qed.

(** The digits of a number are read as the number. *)
Lemma read_digits_fuel f : forall n, (n < f)%nat ->
  exists k, forall acc a,
    read_number (PyStr.digits_fuel f n acc) a
    = read_number acc (a * 10 ^ k + n).
Proof.
  induction f as [|f IH]; intros n Hn; [lia|].
  cbn [PyStr.digits_fuel].
  destruct (n <? 10)%nat eqn:E.
  - apply Nat.ltb_lt in E. exists 1%nat. intros acc a.
    rewrite read_digit. f_equal. rewrite Nat.mod_small by done.
    cbn [Nat.pow]. lia.
  - apply Nat.ltb_ge in E.
    assert (Hd : (n / 10 < f)%nat).
    { pose proof (Nat.div_lt n 10). lia. }
    destruct (IH _ Hd) as (k & Hk). exists (S k). intros acc a.
    rewrite Hk, read_digit. f_equal.
    pose proof (Nat.div_mod_eq n 10).
    rewrite Nat.pow_succ_r'. lia.
Qed.

Lemma digits_fuel_app f : forall n acc rest,
  PyStr.digits_fuel f n acc ++ rest = PyStr.digits_fuel f n (acc ++ rest).
Proof.
  induction f as [|f IH]; intros n acc rest; [reflexivity|].
  cbn [PyStr.digits_fuel]. destruct (n <? 10)%nat; [reflexivity|].
  by rewrite IH.
Qed.

Lemma read_zeros k rest :
  read_number (PyStr.zeros k ++ rest) 0 = read_number rest 0.
Proof.
  induction k as [|k IH]; [reflexivity|].
  cbn [PyStr.zeros]. rewrite app_cons. cbn [read_number]. exact IH.
Qed.

(** A zero-filled number followed by [rest] is read as the number, then
    [rest]. *)
Lemma read_zfill w n rest :
  read_number (PyStr.zfill w n ++ rest) 0 = read_number rest n.
Proof.
  unfold PyStr.zfill, PyStr.str_of_nat.
  rewrite str_app_assoc, read_zeros, digits_fuel_app, app_nil.
  destruct (read_digits_fuel (S n) n) as (k & ->); [lia|].
  f_equal.
Qed.

(** Numbers under a hundred take two characters. *)
Lemma zfill_two n : (n < 100)%nat -> String.length (PyStr.zfill 2 n) = 2%nat.
Proof.
  intros H. unfold PyStr.zfill, PyStr.str_of_nat.
  cbn [PyStr.digits_fuel].
  destruct (n <? 10)%nat eqn:E; [reflexivity|].
  apply Nat.ltb_ge in E.
  destruct n as [|n]; [lia|]. cbn [PyStr.digits_fuel].
  assert (Hd : (S n / 10 < 10)%nat) by (apply Nat.Div0.div_lt_upper_bound; lia).
  apply Nat.ltb_lt in Hd. rewrite Hd. reflexivity.
Qed.

Lemma fmt_02d_nonneg z : (0 <= z)%Z -> fmt_02d z = PyStr.zfill 2 (Z.to_nat z).
Proof.
  intros H. unfold fmt_02d.
  destruct (z <? 0)%Z eqn:E; [apply Z.ltb_lt in E; lia|reflexivity].
Qed.

(** Three zero-filled numbers between colons are read back. *)
Lemma read_hms_zfill h m s :
  read_hms (PyStr.zfill 2 h ++ ":" ++ PyStr.zfill 2 m ++ ":" ++ PyStr.zfill 2 s)
  = Some (h * 3600 + m * 60 + s)%nat.
Proof.
  unfold read_hms.
  rewrite read_zfill, app_cons, app_nil. cbn [read_number].
  change (Ascii.eqb ":" ":") with true. cbv iota.
  rewrite read_zfill, app_cons, app_nil. cbn [read_number].
  change (Ascii.eqb ":" ":") with true. cbv iota.
  rewrite <- (app_empty_r (PyStr.zfill 2 s)), read_zfill.
  reflexivity.
Qed.

(** The time elapsed since an earlier reading is not negative. *)
Lemma elapsed_seconds_nonneg t t0 :
  (t0 <= t)%Q -> (0 <= elapsed_seconds t t0)%Z.
Proof.
  intros H. unfold elapsed_seconds, int_of_float.
  apply Z.quot_pos; [|done].
  apply Qle_minus_iff in H. unfold Qle in H. cbn in H.
  rewrite Z.mul_1_r in H. exact H.
Qed.

(** Extra X25. [get_duration] shows hours, minutes and seconds of the
    time since the first write: once the first write is recorded (at a
    time that is not zero) and the clock has not gone back, reading the
    three numbers back gives the seconds elapsed, cut to a whole number,
    and under a hundred hours the text has exactly eight characters. *)
Theorem duration_reads_back_as_elapsed_seconds env r t0 :
  first_write_time r = Some t0 -> float_truthy t0 = true ->
  (t0 <= time_s (clock env))%Q ->
  let elapsed := int_of_float (time_s (clock env) - t0)%Q in
  read_hms (get_duration env r) = Some (Z.to_nat elapsed)
  /\ ((elapsed < 360000)%Z -> String.length (get_duration env r) = 8%nat).
Proof.
  intros Hf Ht Hle elapsed. unfold get_duration. rewrite Hf, Ht.
  cbn [negb].
  pose proof (elapsed_seconds_nonneg _ _ Hle) as He.
  change (elapsed_seconds (time_s (clock env)) t0) with elapsed in *.
  clearbody elapsed.
  assert (Hh : (0 <= elapsed / 3600)%Z) by (apply Z.div_pos; lia).
  pose proof (Z.mod_pos_bound elapsed 3600 ltac:(lia)) as Hr.
  assert (Hm : (0 <= elapsed mod 3600 / 60)%Z) by (apply Z.div_pos; lia).
  pose proof (Z.mod_pos_bound (elapsed mod 3600) 60 ltac:(lia)) as Hs.
  cbv zeta. rewrite !fmt_02d_nonneg by lia. split.
  - rewrite read_hms_zfill. f_equal.
    pose proof (Z.div_mod elapsed 3600 ltac:(lia)).
    pose proof (Z.div_mod (elapsed mod 3600) 60 ltac:(lia)).
    lia.
  - intros Hlt. rewrite !length_app.
    assert (elapsed / 3600 < 100)%Z by (apply Z.div_lt_upper_bound; lia).
    assert (elapsed mod 3600 / 60 < 60)%Z
      by (apply Z.div_lt_upper_bound; lia).
    rewrite !zfill_two by lia. reflexivity.
Qed.

(** A clock that reads 5405.25 seconds after the first write of the
    sample recorder. *)
Lemma duration_witness :
  let env :=
    mkEnv (mkClock (now Sample.clk) 1704170051 (17041700511289 # 10000))
      Sample.run_second (SpawnAlive 4242) (SpawnAlive 4243) Sample.quiet
      (Ret tt) in
  let elapsed :=
    int_of_float (time_s (clock env) - (17041646456789 # 10000))%Q in
  read_hms (get_duration env Sample.recorder) = Some (Z.to_nat elapsed)
  /\ ((elapsed < 360000)%Z ->
      String.length (get_duration env Sample.recorder) = 8%nat).
Proof.
  apply (duration_reads_back_as_elapsed_seconds
           (mkEnv (mkClock (now Sample.clk) 1704170051
                     (17041700511289 # 10000))
              Sample.run_second (SpawnAlive 4242) (SpawnAlive 4243)
              Sample.quiet (Ret tt))
           Sample.recorder (17041646456789 # 10000));
    [reflexivity | reflexivity | vm_compute; discriminate].
Defined.

Example duration_of_ninety_minutes :
  get_duration
    (mkEnv (mkClock (now Sample.clk) 1704170051 (17041700511289 # 10000))
       Sample.run_second (SpawnAlive 4242) (SpawnAlive 4243) Sample.quiet
       (Ret tt))
    Sample.recorder
  = "01:30:05".
Proof. vm_compute. reflexivity. Qed.

(** The clock reads 4.9992 seconds after the first write: four seconds
    are shown. *)
Example duration_cuts_the_fraction :
  get_duration
    (mkEnv (mkClock (now Sample.clk) 1704164650 (17041646506781 # 10000))
       Sample.run_second (SpawnAlive 4242) (SpawnAlive 4243) Sample.quiet
       (Ret tt))
    Sample.recorder
  = "00:00:04".
Proof. vm_compute. reflexivity. Qed.

End DurationProofs.
